(** * EffectSizeCalculator: the effect-size engine of [src/3.3.py]

    A shallow embedding of the computational core of the program
    ([interpret_effect_size], the three analyzers and the dispatch of
    [EffectSizeCalculator.calculate_effect_size]) and the properties of
    the specification proved about it.

    Conventions of the embedding.
    - A Python [float] (and a numpy [float64]) is a binary64 value: Rocq's
      primitive [float], with the IEEE operations of [PrimFloat].  Decimal
      literals denote the nearest binary64 value, as in Python.
    - A Python [str] is a [string] holding its UTF-8 bytes.
    - A raised exception is the [Raise] case of [res]; code that creates
      or mutates data frames runs in the state monad [M] over a store of
      frames, so that aliasing between the caller's table and the
      analyzers' working copies is explicit. *)

From Stdlib Require Import Reals Lra.
From Stdlib Require Import ZArith List String Ascii Bool Lia Floats.
From stdpp Require Import base option list gmap strings.

Set Warnings "-inexact-float".

Local Open Scope string_scope.
Local Open Scope float_scope.
Local Open Scope list_scope.

(** ** Exceptions *)

Inductive exn : Type :=
| KeyError (key : string)            (* KeyError(key), the key a str *)
| KeyErrorList (keys : list string)  (* KeyError(keys), a list of labels *)
| ValueError (msg : string).

Inductive res (A : Type) : Type :=
| Ok (a : A)
| Raise (e : exn).

Arguments Ok {A} a.
Arguments Raise {A} e.

(** ** Strings *)

Module PyStr.

(** [str.lower] on one character.  Only the ASCII capitals are mapped;
    every other byte is kept.  Python also maps cased characters
    outside ASCII, but none of them is mapped to a character that
    occurs in a key of [interpretations], so the dictionary lookup of
    [interpret_effect_size] finds the same entry either way. *)
Definition lower_char (c : ascii) : ascii :=
  let n := N_of_ascii c in
  if (65 <=? n)%N && (n <=? 90)%N then ascii_of_N (n + 32) else c.

Fixpoint lower (s : string) : string :=
  match s with
  | EmptyString => EmptyString
  | String c s' => String (lower_char c) (lower s')
  end.

End PyStr.

(** ** Effect Size Interpretations *)

Definition band : Type := (float * string)%type.

(** The dictionary literal of [interpret_effect_size]: four keys, each
    with its list of (threshold, interpretation) pairs. *)
Definition interpretations : gmap string (list band) :=
  list_to_map
    [ ("cohen's d",
        [ (0.2, "small effect size");
          (0.5, "medium effect size");
          (0.8, "large effect size");
          (infinity, "very large effect size") ]);
      ("eta squared",
        [ (0.01, "small effect size");
          (0.06, "medium effect size");
          (0.14, "large effect size");
          (infinity, "very large effect size") ]);
      ("pearson's r",
        [ (0.1, "negligible correlation");
          (0.3, "small correlation");
          (0.5, "medium correlation");
          (0.7, "large correlation");
          (0.9, "very large correlation");
          (infinity, "perfect correlation") ]);
      ("cram√©r's v",
        [ (0.1, "small effect size");
          (0.3, "medium effect size");
          (0.5, "large effect size");
          (infinity, "very large effect size") ]) ].

(** The [for threshold, interpretation in ...] loop: the first pair with
    [abs(value) < threshold] returns; falling off the end of the list
    returns Python's [None]. *)
Fixpoint for_bands (value : float) (bands : list band) : option string :=
  match bands with
  | [] => None
  | (threshold, interpretation) :: rest =>
      if abs value <? threshold then Some interpretation
      else for_bands value rest
  end.

Definition interpret_effect_size (value : float) (effect_type : string)
  : res (option string) :=
  match interpretations !! PyStr.lower effect_type with
  | None => Raise (KeyError (PyStr.lower effect_type))
  | Some bands => Ok (for_bands value bands)
  end.


(** ** Tables

    A cell of a data frame is a text value, a number (an integer cell is
    taken as its binary64 value) or Python's [None].  A missing value is
    [None] or a NaN. *)

Inductive cell : Type :=
| Str (s : string)
| Num (x : float)
| NoneCell.

Definition isna (c : cell) : bool :=
  match c with
  | Str _ => false
  | Num x => is_nan x
  | NoneCell => true
  end.

Definition notna (c : cell) : bool := negb (isna c).

(** Python's [==] on two values that are not missing. *)
Definition cell_eqb (a b : cell) : bool :=
  match a, b with
  | Str s, Str t => String.eqb s t
  | Num x, Num y => x =? y
  | _, _ => false
  end.

(** The order pandas sorts labels by: numbers before text, numbers by
    [<], text by code point (the byte order of UTF-8). *)
Definition cell_ltb (a b : cell) : bool :=
  match a, b with
  | Num x, Num y => x <? y
  | Num _, Str _ => true
  | Str s, Str t => String.ltb s t
  | _, _ => false
  end.

Definition float_of_cell (c : cell) : float :=
  match c with
  | Num x => x
  | _ => nan
  end.

(** A frame: the column names in order, and the rows in order, each row
    a map from column name to cell. *)
Record frame : Type := Frame {
  columns : list string;
  rows : list (gmap string cell)
}.

Definition row_cell (col : string) (row : gmap string cell) : cell :=
  default NoneCell (row !! col).

Definition has_column (df : frame) (col : string) : bool :=
  bool_decide (col ∈ columns df).

(** [df[col]]: the column as a sequence of cells, [KeyError] when the
    frame has no such column. *)
Definition frame_getitem (df : frame) (col : string) : res (list cell) :=
  if has_column df col then Ok (map (row_cell col) (rows df))
  else Raise (KeyError col).

(** [df[col] = values] on the frame value; [values] has one cell per
    row, as in each use. *)
Definition frame_setitem (df : frame) (col : string) (values : list cell)
  : frame :=
  {| columns := if has_column df col then columns df else columns df ++ [col];
     rows := zip_with (fun row v => <[col := v]> row) (rows df) values |}.

(** The rows kept by [dropna(subset=...)]. *)
Definition complete_on (subset : list string) (row : gmap string cell)
  : bool :=
  forallb (fun col => notna (row_cell col row)) subset.

(** [df.dropna(subset=...)] on the frame value: [KeyError] with the list
    of the names of the subset that are no columns, when there are
    any. *)
Definition frame_dropna (df : frame) (subset : list string) : res frame :=
  match List.filter (fun col => negb (has_column df col)) subset with
  | [] =>
      Ok {| columns := columns df;
            rows := List.filter (complete_on subset) (rows df) |}
  | missing => Raise (KeyErrorList missing)
  end.

(** [Series.unique()] on a column with no missing value (its only use):
    the distinct values in order of first appearance. *)
Fixpoint unique_from (seen : list cell) (values : list cell) : list cell :=
  match values with
  | [] => []
  | c :: values' =>
      if existsb (cell_eqb c) seen then unique_from seen values'
      else c :: unique_from (c :: seen) values'
  end.

Definition unique (values : list cell) : list cell :=
  unique_from [] values.

(** [Series.nunique()]: missing values are not counted. *)
Definition nunique (values : list cell) : Z :=
  Z.of_nat (List.length (unique (List.filter notna values))).

(** ** The store of frames and the monad of the analyzers *)

(** A reference to a frame object is its position in the store. *)
Abbreviation loc := nat (only parsing).
Abbreviation store := (list frame) (only parsing).

Definition M (A : Type) : Type := store -> res A * store.

Definition ret {A : Type} (a : A) : M A := fun st => (Ok a, st).

Definition raise {A : Type} (e : exn) : M A := fun st => (Raise e, st).

Definition bind {A B : Type} (m : M A) (k : A -> M B) : M B :=
  fun st =>
    match m st with
    | (Ok a, st') => k a st'
    | (Raise e, st') => (Raise e, st')
    end.

Definition lift {A : Type} (r : res A) : M A := fun st => (r, st).

Notation "'do' x <- m ; k" := (bind m (fun x => k))
  (at level 10, x name, m at level 100, k at level 200).
Notation "'do' ' p <- m ; k" := (bind m (fun x => match x with p => k end))
  (at level 10, p pattern, m at level 100, k at level 200).

Definition empty_frame : frame := {| columns := []; rows := [] |}.

(** The frame a reference denotes in a store. *)
Definition at_loc (st : store) (l : loc) : frame :=
  default empty_frame (st !! l).

Definition deref (l : loc) : M frame :=
  fun st => (Ok (at_loc st l), st).

(** A new frame object. *)
Definition alloc (df : frame) : M loc :=
  fun st => (Ok (List.length st), st ++ [df]).

(** [df.copy()]. *)
Definition df_copy (l : loc) : M loc :=
  do df <- deref l; alloc df.

(** [df[col]]. *)
Definition df_getitem (l : loc) (col : string) : M (list cell) :=
  do df <- deref l; lift (frame_getitem df col).

(** [df[col] = values]: the frame object is updated in place. *)
Definition df_setitem (l : loc) (col : string) (values : list cell)
  : M unit :=
  fun st =>
    (Ok tt, <[l := frame_setitem (at_loc st l) col values]> st).

(** [df.dropna(subset=...)]: a new frame object. *)
Definition df_dropna (l : loc) (subset : list string) : M loc :=
  do df <- deref l;
  do df' <- lift (frame_dropna df subset);
  alloc df'.

(** [len(df)]. *)
Definition df_len (l : loc) : M Z :=
  do df <- deref l; ret (Z.of_nat (List.length (rows df))).

(** ** The numerical libraries

    The routines of pandas, scipy and pingouin that the analyzers call,
    and Python's [float(...)], are outside the program.  The analyzers
    are modelled over any implementation of them. *)

(** The two columns that [cat_on_num_effect_size] reads in the table
    [pg.anova] returns: the first entry of each, when the table has the
    column. *)
Record anova_table : Type := AnovaTable {
  p_unc : option float;  (* ['p-unc'][0] *)
  np2 : option float     (* ['np2'][0] *)
}.

Class Libraries : Type := {
  (** [float(text)]: [None] stands for the [ValueError] of a text that
      is not a number. *)
  py_float : string -> option float;
  (** What [pd.to_numeric] reads in one text cell, if it is a number. *)
  to_numeric_str : string -> option float;
  (** [Series.mean()]. *)
  series_mean : list float -> float;
  (** [Series.var(ddof=...)]. *)
  series_var : Z -> list float -> float;
  (** [stats.chi2_contingency]: (chi2, p_value, dof, expected), or the
      [ValueError] of a table it refuses. *)
  chi2_contingency :
    list (list Z) -> res (float * float * Z * list (list float));
  (** [stats.ttest_ind]: (t_stat, p_value). *)
  ttest_ind : list float -> list float -> float * float;
  (** [pg.anova(dv=, between=, data=, detailed=True)] on the
      (category, value) observations. *)
  anova : list (cell * float) -> anova_table;
  (** [stats.pearsonr]: (r, p_value). *)
  pearsonr : list float -> list float -> float * float
}.

(** An integer of at most 63 bits converted to binary64, rounding to
    nearest even. *)
Definition float_of_Z (z : Z) : float :=
  if (z <? 0)%Z then - of_uint63 (Uint63.of_Z (- z))
  else of_uint63 (Uint63.of_Z z).

(** ** Cross-tabulation *)

Fixpoint insert_sorted (c : cell) (l : list cell) : list cell :=
  match l with
  | [] => [c]
  | d :: l' => if cell_ltb d c then d :: insert_sorted c l' else c :: l
  end.

Definition sort_cells (l : list cell) : list cell :=
  fold_right insert_sorted [] l.

(** The observations of two columns where neither value is missing. *)
Definition complete_pairs (xs ys : list cell) : list (cell * cell) :=
  List.filter (fun p => notna (fst p) && notna (snd p)) (combine xs ys).

Definition count_pairs (pairs : list (cell * cell)) (a b : cell) : Z :=
  Z.of_nat
    (List.length
       (List.filter
          (fun p => cell_eqb (fst p) a && cell_eqb (snd p) b) pairs)).

(** The contingency table: row labels, column labels and counts. *)
Record contingency : Type := Contingency {
  index : list cell;
  labels : list cell;
  values : list (list Z)
}.

(** [pd.crosstab(xs, ys)]: one row per distinct value of [xs], one
    column per distinct value of [ys], both sorted, over the complete
    observations. *)
Definition crosstab (xs ys : list cell) : contingency :=
  let pairs := complete_pairs xs ys in
  let index := sort_cells (unique (map fst pairs)) in
  let labels := sort_cells (unique (map snd pairs)) in
  {| index := index;
     labels := labels;
     values := map (fun a => map (count_pairs pairs a) labels) index |}.

(** [contingency_table.shape]. *)
Definition shape (ct : contingency) : Z * Z :=
  (Z.of_nat (List.length (index ct)), Z.of_nat (List.length (labels ct))).

(** [contingency_table.values.sum()]. *)
Definition values_sum (ct : contingency) : Z :=
  fold_right Z.add 0%Z (map (fold_right Z.add 0%Z) (values ct)).

(** ** Result texts

    A formatted result text is kept as the sequence of its pieces: the
    literal parts of the f-string and the values formatted into it. *)

Inductive piece : Type :=
| Text (s : string)
| Fixed3 (x : float)          (* a float formatted with .3f *)
| Plain (x : float)           (* a float formatted with no format spec *)
| Label (o : option string).  (* the interpretation: a label or None *)

Definition text : Type := list piece.

Definition not_significant (p_value alpha : float) : text :=
  [ Text "Effect size not statistically significant (p = ";
    Fixed3 p_value; Text ", alpha = "; Plain alpha; Text ")" ].

Definition significant (name : string) (effect_size : float)
    (interpretation : option string) (p_value : float) : text :=
  [ Text name; Text ": "; Fixed3 effect_size; Text " (";
    Label interpretation; Text ") (p = "; Fixed3 p_value; Text ")" ].

(** ** Effect Size Functions *)

Section Analyzers.

Context `{Libraries}.

(** [pd.to_numeric(series, errors='coerce')]: every cell becomes a
    number, a NaN where the cell holds no number. *)
Definition to_numeric_cell (c : cell) : cell :=
  match c with
  | Num x => Num x
  | Str s => Num (default nan (to_numeric_str s))
  | NoneCell => Num nan
  end.

Definition to_numeric (series : list cell) : list cell :=
  map to_numeric_cell series.

(** [min((k - 1), (r - 1)) if min((k - 1), (r - 1)) > 0 else 1]. *)
Definition cramers_denom (r k : Z) : Z :=
  if (Z.min (k - 1) (r - 1) >? 0)%Z then Z.min (k - 1) (r - 1) else 1%Z.

(** The value [cramers_v] of [cat_on_cat_effect_size]. *)
Definition cramers_v_value (chi2 : float) (ct : contingency) : float :=
  let n := values_sum ct in
  let '(r, k) := shape ct in
  let denom := cramers_denom r k in
  let phi2 := chi2 / float_of_Z n in
  PrimFloat.sqrt (phi2 / float_of_Z denom).

Definition cat_on_cat_effect_size
    (df : loc) (cat_col1 cat_col2 : string) (alpha : float)
  : M (text * contingency * string * string) :=
  do xs <- df_getitem df cat_col1;
  do ys <- df_getitem df cat_col2;
  let contingency_table := crosstab xs ys in
  do '(chi2, p_value, dof, expected) <-
    lift (chi2_contingency (values contingency_table));
  let cramers_v := cramers_v_value chi2 contingency_table in
  do result_text <-
    (if p_value <=? alpha then
       do interpretation <-
         lift (interpret_effect_size cramers_v "Cram√©r's V");
       ret (significant "Cram√©r's V" cramers_v interpretation p_value)
     else ret (not_significant p_value alpha));
  ret (result_text, contingency_table, cat_col1, cat_col2).

(** [df[df[cat_col] == value][num_col]] as floats. *)
Definition group_values (df : frame) (cat_col : string) (value : cell)
    (num_col : string) : list float :=
  map (fun row => float_of_cell (row_cell num_col row))
    (List.filter (fun row => cell_eqb (row_cell cat_col row) value)
       (rows df)).

(** [np.sqrt((group1.var(ddof=1) + group2.var(ddof=1)) / 2)]. *)
Definition pooled_std_value (group1 group2 : list float) : float :=
  PrimFloat.sqrt
    ((series_var 1 group1 + series_var 1 group2) / 2).

(** [(group1.mean() - group2.mean()) / pooled_std]. *)
Definition cohen_d (group1 group2 : list float) (pooled_std : float)
  : float :=
  (series_mean group1 - series_mean group2) / pooled_std.

(** The branch [num_categories == 2] of [cat_on_num_effect_size]. *)
Definition two_groups (df : frame) (cat_col num_col : string)
    (alpha : float) : res text :=
  match frame_getitem df cat_col with
  | Raise e => Raise e
  | Ok cats =>
      let unique_vals := unique cats in
      let group1 :=
        group_values df cat_col (nth 0 unique_vals NoneCell) num_col in
      let group2 :=
        group_values df cat_col (nth 1 unique_vals NoneCell) num_col in
      let '(t_stat, p_value) := ttest_ind group1 group2 in
      let pooled_std := pooled_std_value group1 group2 in
      if pooled_std =? 0 then
        Raise (ValueError
          "Pooled standard deviation is zero; cannot compute Cohen's d.")
      else
        let cohen_d_value := cohen_d group1 group2 pooled_std in
        if p_value <=? alpha then
          match interpret_effect_size cohen_d_value "Cohen's d" with
          | Raise e => Raise e
          | Ok interpretation =>
              Ok (significant "Cohen's d" cohen_d_value interpretation
                    p_value)
          end
        else Ok (not_significant p_value alpha)
  end.

(** The branch of three or more categories. *)
Definition many_groups (df : frame) (cat_col num_col : string)
    (alpha : float) : res text :=
  let anova_results :=
    anova (map (fun row => (row_cell cat_col row,
                            float_of_cell (row_cell num_col row)))
             (rows df)) in
  match p_unc anova_results with
  | None => Raise (KeyError "p-unc")
  | Some p_value =>
      match np2 anova_results with
      | None => Raise (KeyError "np2")
      | Some eta_squared_value =>
          if p_value <=? alpha then
            match interpret_effect_size eta_squared_value "Eta Squared" with
            | Raise e => Raise e
            | Ok interpretation =>
                Ok (significant "Œ∑¬≤ (Eta Squared)" eta_squared_value
                      interpretation p_value)
            end
          else Ok (not_significant p_value alpha)
      end
  end.

Definition cat_on_num_effect_size
    (df : loc) (cat_col num_col : string) (alpha : float)
  : M (text * loc * string * string) :=
  do df <- df_copy df;
  do series <- df_getitem df num_col;
  do _ <- df_setitem df num_col (to_numeric series);
  do df <- df_dropna df [cat_col; num_col];
  do cats <- df_getitem df cat_col;
  let num_categories := nunique cats in
  if (num_categories <? 2)%Z then
    raise (ValueError
      "Categorical column must have at least 2 categories for comparison.")
  else
    do cleaned <- deref df;
    do result_text <-
      lift (if (num_categories =? 2)%Z
            then two_groups cleaned cat_col num_col alpha
            else many_groups cleaned cat_col num_col alpha);
    ret (result_text, df, cat_col, num_col).

Definition correlation_effect_size
    (df : loc) (col1 col2 : string) (alpha : float)
  : M (text * loc * string * string) :=
  do df <- df_copy df;
  do series1 <- df_getitem df col1;
  do _ <- df_setitem df col1 (to_numeric series1);
  do series2 <- df_getitem df col2;
  do _ <- df_setitem df col2 (to_numeric series2);
  do df <- df_dropna df [col1; col2];
  do n <- df_len df;
  if (n <? 2)%Z then
    raise (ValueError "Not enough valid numeric data for correlation.")
  else
    do xs <- df_getitem df col1;
    do ys <- df_getitem df col2;
    let '(r, p_value) :=
      pearsonr (map float_of_cell xs) (map float_of_cell ys) in
    do result_text <-
      (if p_value <=? alpha then
         do interpretation <- lift (interpret_effect_size r "Pearson's r");
         ret (significant "Pearson's r" r interpretation p_value)
       else ret (not_significant p_value alpha));
    ret (result_text, df, col1, col2).

End Analyzers.

(** ** Calculate and show results *)

(** What [calculate_effect_size] reads from the window. *)
Record window : Type := Window {
  df : option loc;            (* self.df, when a dataset is loaded *)
  alpha_entry : string;       (* self.alpha_entry.text() *)
  effect_type_menu : string;  (* self.effect_type_menu.currentText() *)
  col1_menu : string;         (* self.col1_menu.currentText() *)
  col2_menu : string          (* self.col2_menu.currentText() *)
}.

(** What it shows.  The text [str(e)] of a caught exception is kept as
    the exception. *)
Inductive shown : Type :=
| WarningBox (msg : string)
| CriticalBox (msg : string)
| ExceptionBox (e : exn)      (* QMessageBox.critical(..., str(e)) *)
| ResultLabel (result_text : text).

(** A call of one of the three analyzers. *)
Inductive analyzer_call : Type :=
| CallCatOnCat (df : loc) (col1 col2 : string) (alpha : float)
| CallCatOnNum (df : loc) (col1 col2 : string) (alpha : float)
| CallCorrelation (df : loc) (col1 col2 : string) (alpha : float).

Definition call_alpha (c : analyzer_call) : float :=
  match c with
  | CallCatOnCat _ _ _ alpha => alpha
  | CallCatOnNum _ _ _ alpha => alpha
  | CallCorrelation _ _ _ alpha => alpha
  end.

(** The same call with another alpha. *)
Definition with_alpha (alpha : float) (c : analyzer_call) : analyzer_call :=
  match c with
  | CallCatOnCat df col1 col2 _ => CallCatOnCat df col1 col2 alpha
  | CallCatOnNum df col1 col2 _ => CallCatOnNum df col1 col2 alpha
  | CallCorrelation df col1 col2 _ => CallCorrelation df col1 col2 alpha
  end.

Section Calculate.

Context `{Libraries}.

(** The dispatch on the effect type inside the [try]. *)
Definition select_analyzer (effect_type : string) (df : loc)
    (col1 col2 : string) (alpha : float) : analyzer_call :=
  if String.eqb effect_type "Categorical on Categorical"
  then CallCatOnCat df col1 col2 alpha
  else if String.eqb effect_type "Categorical on Numerical"
  then CallCatOnNum df col1 col2 alpha
  else CallCorrelation df col1 col2 alpha.

Definition run_analyzer (c : analyzer_call) : M text :=
  match c with
  | CallCatOnCat df col1 col2 alpha =>
      do '(result_text, _, _, _) <-
        cat_on_cat_effect_size df col1 col2 alpha;
      ret result_text
  | CallCatOnNum df col1 col2 alpha =>
      do '(result_text, _, _, _) <-
        cat_on_num_effect_size df col1 col2 alpha;
      ret result_text
  | CallCorrelation df col1 col2 alpha =>
      do '(result_text, _, _, _) <-
        correlation_effect_size df col1 col2 alpha;
      ret result_text
  end.

(** The checks before the [try]: either a message box and an early
    return, or the analyzer call the method goes on to make. *)
Definition dispatch (w : window) : shown + analyzer_call :=
  match df w with
  | None => inl (WarningBox "Please load a dataset first.")
  | Some df =>
      match py_float (alpha_entry w) with
      | None =>
          inl (CriticalBox "Significance (Œ±) must be a numeric value.")
      | Some alpha =>
          if String.eqb (col1_menu w) (col2_menu w)
          then inl (CriticalBox "Please select two different columns.")
          else inr (select_analyzer (effect_type_menu w) df
                      (col1_menu w) (col2_menu w) alpha)
      end
  end.

Definition calculate_effect_size (w : window) : M shown :=
  match dispatch w with
  | inl box => ret box
  | inr call =>
      fun st =>
        match run_analyzer call st with
        | (Ok result_text, st') => (Ok (ResultLabel result_text), st')
        | (Raise e, st') => (Ok (ExceptionBox e), st')
        end
  end.

End Calculate.

(** ** The specification's vocabulary *)

(** The four recognized metric kinds and the dictionary key of each. *)
Inductive effect_kind : Type := CohensD | EtaSquared | PearsonsR | CramersV.

Definition kind_key (k : effect_kind) : string :=
  match k with
  | CohensD => "cohen's d"
  | EtaSquared => "eta squared"
  | PearsonsR => "pearson's r"
  | CramersV => "cram√©r's v"
  end.

(** A kind string names [k] when it is [k]'s key up to letter case. *)
Definition names_kind (effect_type : string) (k : effect_kind) : Prop :=
  PyStr.lower effect_type = kind_key k.

(** The band tables as the specification lists them (bound, band name). *)
Definition documented_bands (k : effect_kind) : list band :=
  match k with
  | CohensD =>
      [ (0.2, "small"); (0.5, "medium"); (0.8, "large");
        (infinity, "very large") ]
  | EtaSquared =>
      [ (0.01, "small"); (0.06, "medium"); (0.14, "large");
        (infinity, "very large") ]
  | PearsonsR =>
      [ (0.1, "negligible"); (0.3, "small"); (0.5, "medium");
        (0.7, "large"); (0.9, "very large"); (infinity, "perfect") ]
  | CramersV =>
      [ (0.1, "small"); (0.3, "medium"); (0.5, "large");
        (infinity, "very large") ]
  end.

(** The program's label of a band is the documented band name followed
    by the metric's noun ("small" becomes "small effect size"). *)
Definition same_band (documented actual : band) : Prop :=
  fst documented = fst actual
  /\ String.prefix (snd documented) (snd actual) = true.

(** Bounds strictly increasing along the list. *)
Fixpoint increasing (bounds : list float) : bool :=
  match bounds with
  | [] => true
  | b :: rest =>
      match rest with
      | [] => true
      | b' :: _ => (b <? b') && increasing rest
      end
  end.

(** [label] is the label of the first band of [bands] whose bound
    strictly exceeds [a]. *)
Definition first_band_above (a : float) (bands : list band)
    (label : string) : Prop :=
  exists (i : nat) (bound : float),
    bands !! i = Some (bound, label)
    /\ (a <? bound) = true
    /\ forall (j : nat) (b : band),
         (j < i)%nat -> bands !! j = Some b -> (a <? fst b) = false.

(** The severity rank of a label: its position in the band list. *)
Fixpoint rank_of (bands : list band) (label : string) : option nat :=
  match bands with
  | [] => None
  | (_, l) :: rest =>
      if String.eqb l label then Some 0%nat
      else option_map S (rank_of rest label)
  end.

(** The position of the band that [for_bands] returns (the length of
    the list when no band matches). *)
Fixpoint band_index (value : float) (bands : list band) : nat :=
  match bands with
  | [] => 0%nat
  | (threshold, _) :: rest =>
      if abs value <? threshold then 0%nat
      else S (band_index value rest)
  end.

(** The name an analyzer prints for a metric, and the kind string it
    passes to [interpret_effect_size]. *)
Definition display_name (k : effect_kind) : string :=
  match k with
  | CohensD => "Cohen's d"
  | EtaSquared => "Œ∑¬≤ (Eta Squared)"
  | PearsonsR => "Pearson's r"
  | CramersV => "Cram√©r's V"
  end.

Definition passed_kind (k : effect_kind) : string :=
  match k with
  | CohensD => "Cohen's d"
  | EtaSquared => "Eta Squared"
  | PearsonsR => "Pearson's r"
  | CramersV => "Cram√©r's V"
  end.

(** The numbers and the interpretations formatted into a result text. *)
Definition surfaced_floats (t : text) : list float :=
  flat_map (fun p => match p with
                     | Fixed3 x | Plain x => [x]
                     | _ => []
                     end) t.

Definition surfaced_labels (t : text) : list (option string) :=
  flat_map (fun p => match p with Label o => [o] | _ => [] end) t.

(** [denom] in the specification's words: [min(r-1, k-1)], floored to 1
    if that minimum is <= 0. *)
Definition spec_denom (r k : Z) : Z :=
  let m := Z.min (r - 1) (k - 1) in
  if (m <=? 0)%Z then 1%Z else m.

(** The frame object on which [cat_on_num_effect_size] works after its
    first three statements: the numeric column coerced, the rows with a
    missing value in either column dropped. *)
Definition coerce_column `{Libraries} (f : frame) (col : string)
  : res frame :=
  match frame_getitem f col with
  | Raise e => Raise e
  | Ok series => Ok (frame_setitem f col (to_numeric series))
  end.

Definition clean_cat_num `{Libraries} (f : frame) (cat_col num_col : string)
  : res frame :=
  match coerce_column f num_col with
  | Raise e => Raise e
  | Ok f1 => frame_dropna f1 [cat_col; num_col]
  end.

(** The (effect size, p-value) pairs the analyzers take from the
    libraries, by metric. *)
Inductive test_outcome `{Libraries} : effect_kind -> float -> float -> Prop :=
| chi2_outcome (ct : contingency) (chi2 p_value : float) (dof : Z)
    (expected : list (list float)) :
    chi2_contingency (values ct) = Ok (chi2, p_value, dof, expected) ->
    test_outcome CramersV (cramers_v_value chi2 ct) p_value
| ttest_outcome (group1 group2 : list float) (t_stat p_value : float) :
    ttest_ind group1 group2 = (t_stat, p_value) ->
    (pooled_std_value group1 group2 =? 0) = false ->
    test_outcome CohensD
      (cohen_d group1 group2 (pooled_std_value group1 group2)) p_value
| anova_outcome (observations : list (cell * float))
    (p_value eta_squared : float) :
    p_unc (anova observations) = Some p_value ->
    np2 (anova observations) = Some eta_squared ->
    test_outcome EtaSquared eta_squared p_value
| pearson_outcome (xs ys : list float) (r p_value : float) :
    pearsonr xs ys = (r, p_value) ->
    test_outcome PearsonsR r p_value.

(** ** A stand-in for the libraries

    Used to run the model on examples: text cells and the alpha entry
    read as plain decimals, means and variances by plain summation, and
    tests that answer a given statistic and p-value. *)

Module Fixture.

Definition digit (c : ascii) : option Z :=
  let n := Z.of_N (N_of_ascii c) in
  if (48 <=? n)%Z && (n <=? 57)%Z then Some (n - 48)%Z else None.

(** Digits with at most one point: the digits read as an integer, and
    the number of digits after the point. *)
Fixpoint digits (s : string) (acc : Z) (frac : option Z)
  : option (Z * Z) :=
  match s with
  | EmptyString => Some (acc, default 0%Z frac)
  | String c s' =>
      if Ascii.eqb c "."%char then
        match frac with
        | None => digits s' acc (Some 0%Z)
        | Some _ => None
        end
      else
        match digit c with
        | None => None
        | Some d => digits s' (10 * acc + d)%Z (option_map Z.succ frac)
        end
  end.

Definition decimal (s : string) : option float :=
  match s with
  | EmptyString => None
  | _ =>
      match digits s 0%Z None with
      | None => None
      | Some (m, e) => Some (float_of_Z m / float_of_Z (10 ^ e))
      end
  end.

Definition sum (xs : list float) : float := fold_left add xs 0.

Definition mean (xs : list float) : float :=
  sum xs / float_of_Z (Z.of_nat (List.length xs)).

Definition var (ddof : Z) (xs : list float) : float :=
  let avg := mean xs in
  sum (map (fun x => (x - avg) * (x - avg)) xs)
  / float_of_Z (Z.of_nat (List.length xs) - ddof).

Definition libraries (statistic p_value : float) : Libraries :=
  {| py_float := decimal;
     to_numeric_str := decimal;
     series_mean := mean;
     series_var := var;
     chi2_contingency := fun _ => Ok (statistic, p_value, 1%Z, []);
     ttest_ind := fun _ _ => (statistic, p_value);
     anova := fun _ =>
       {| p_unc := Some p_value; np2 := Some statistic |};
     pearsonr := fun _ _ => (statistic, p_value) |}.

(** A two-column table from its rows. *)
Definition table (col1 col2 : string) (cells : list (cell * cell))
  : frame :=
  {| columns := [col1; col2];
     rows := map (fun c => <[col2 := snd c]> {[col1 := fst c]}) cells |}.

(** Two groups with the same constant score. *)
Definition constant_scores : frame :=
  table "Group" "Score"
    [ (Str "A", Num 5); (Str "A", Num 5);
      (Str "B", Num 5); (Str "B", Num 5) ].


(** Two categorical columns. *)
Definition outcomes : frame :=
  table "Group" "Outcome"
    [ (Str "A", Str "Yes"); (Str "A", Str "Yes"); (Str "A", Str "No");
      (Str "B", Str "No"); (Str "B", Str "No"); (Str "B", Str "Yes") ].

(** Two numeric columns, the second given as text. *)
Definition measurements : frame :=
  table "x" "y"
    [ (Num 1, Str "5"); (Num 2, Str "7"); (Num 3, Str "9") ].

(** The value of a computation that returned. *)
Definition returned {A : Type} (d : A) (r : res A) : A :=
  match r with
  | Ok a => a
  | Raise _ => d
  end.

End Fixture.

(** An alpha that is a probability strictly between 0 and 1. *)
Definition in_open_unit_interval (alpha : float) : bool :=
  (0 <? alpha) && (alpha <? 1).

(** The output policy shared by the analyzers: below or at [alpha] the
    effect size with its interpretation and the p-value, above it the
    p-value and [alpha] only. *)
Definition reported (k : effect_kind) (effect_size p_value alpha : float)
    (result_text : text) : Prop :=
  exists interpretation : option string,
    interpret_effect_size effect_size (passed_kind k) = Ok interpretation
    /\ result_text
       = if p_value <=? alpha
         then significant (display_name k) effect_size interpretation p_value
         else not_significant p_value alpha.






(** Two result texts that report one test outcome, each against its own
    alpha. *)
Definition same_outcome `{Libraries} (alpha alpha' : float)
    (t t' : text) : Prop :=
  exists (k : effect_kind) (v p : float),
    test_outcome k v p /\ reported k v p alpha t /\ reported k v p alpha' t'.

(** A table of two blocks of rows: the rows of category [a] with the
    scores [xs], then the rows of category [b] with the scores [ys]. *)
Definition block_row (cat_col num_col : string) (category : cell)
    (x : float) : gmap string cell :=
  <[num_col := Num x]> {[cat_col := category]}.

Definition two_blocks (cat_col num_col : string) (a : cell)
    (xs : list float) (b : cell) (ys : list float) : frame :=
  {| columns := [cat_col; num_col];
     rows := map (block_row cat_col num_col a) xs
             ++ map (block_row cat_col num_col b) ys |}.

(** No NaN among the scores. *)
Definition all_numbers (xs : list float) : bool :=
  forallb (fun x => negb (is_nan x)) xs.

(** How many labels of a list a value is equal to. *)
Definition occurrences (x : cell) (labels : list cell) : Z :=
  Z.of_nat (List.length (List.filter (cell_eqb x) labels)).

Definition sumZ (l : list Z) : Z := fold_right Z.add 0%Z l.

(** ** The chi-square test of independence

    [scipy.stats.chi2_contingency] is not in src/.  Its statistic is
    modelled here from its documentation, once for every arithmetic, so
    that the value numpy computes in binary64 and the value of the
    formula in the real numbers are two instances of one definition. *)

(** The arithmetic a formula is evaluated in: the conversion of a count
    and the operations that the test uses. *)
Record arithmetic (A : Type) : Type := Arithmetic {
  number : Z -> A;
  plus : A -> A -> A;
  minus : A -> A -> A;
  times : A -> A -> A;
  over : A -> A -> A;
  magnitude : A -> A;        (* abs *)
  smaller : A -> A -> A;     (* minimum *)
  direction : A -> A;        (* sign *)
  root : A -> A;             (* sqrt *)
  total : list A -> A        (* sum *)
}.

Arguments number {A} _ _.
Arguments plus {A} _ _ _.
Arguments minus {A} _ _ _.
Arguments times {A} _ _ _.
Arguments over {A} _ _ _.
Arguments magnitude {A} _ _.
Arguments smaller {A} _ _ _.
Arguments direction {A} _ _.
Arguments root {A} _ _.
Arguments total {A} _ _.

(** Modelled from the spec: binary64, the arithmetic of numpy, with
    [np.minimum] and [np.sign] as numpy documents them (a NaN operand
    is returned) and the sum taken in the order in which numpy adds
    fewer than eight numbers: one after the other, from zero. *)
Definition binary64 : arithmetic float :=
  {| number := float_of_Z;
     plus := PrimFloat.add;
     minus := PrimFloat.sub;
     times := PrimFloat.mul;
     over := PrimFloat.div;
     magnitude := PrimFloat.abs;
     smaller := fun a b =>
       if is_nan a then a else if is_nan b then b
       else if (a <? b)%float then a else b;
     direction := fun x =>
       if (0 <? x)%float then 1%float
       else if (x <? 0)%float then (-1)%float
       else if (x =? 0)%float then 0%float else x;
     root := PrimFloat.sqrt;
     total := fun xs => fold_left PrimFloat.add xs 0%float |}.

(** Modelled from the spec: the real numbers, the same operations
    without rounding. *)
Definition exact : arithmetic R :=
  {| number := IZR;
     plus := Rplus;
     minus := Rminus;
     times := Rmult;
     over := Rdiv;
     magnitude := Rabs;
     smaller := Rmin;
     direction := fun x =>
       if Rlt_dec 0 x then 1%R else if Rlt_dec x 0 then (-1)%R else 0%R;
     root := R_sqrt.sqrt;
     total := fun xs => fold_right Rplus 0%R xs |}.

Module Pearson.

(** Modelled from the spec: two rows added cell by cell, a step of a
    sum over the rows of a table. *)
Fixpoint add_rows (xs ys : list Z) : list Z :=
  match xs, ys with
  | x :: xs', y :: ys' => (x + y)%Z :: add_rows xs' ys'
  | _, _ => []
  end.

(** Modelled from the spec: the number of columns of a table. *)
Definition width (observed : list (list Z)) : nat :=
  List.length (hd [] observed).

(** Modelled from the spec: the marginal sums over the rows, one
    total per column.  The sums of counts are taken in the integers:
    binary64 holds them exactly below 2^53. *)
Definition column_totals (observed : list (list Z)) : list Z :=
  fold_right add_rows (repeat 0%Z (width observed)) observed.

(** Modelled from the spec: [observed.sum()], the number of
    observations. *)
Definition grand_total (observed : list (list Z)) : Z :=
  sumZ (map sumZ observed).

(** Modelled from the spec: the degrees of freedom,
    [expected.size - sum(expected.shape) + expected.ndim - 1]. *)
Definition dof (observed : list (list Z)) : Z :=
  let r := Z.of_nat (List.length observed) in
  let k := Z.of_nat (width observed) in
  (r * k - (r + k) + 2 - 1)%Z.


Section Statistic.

Context {A : Type} (ar : arithmetic A).

(** Modelled from the spec: the expected frequency of a cell under
    independence, the product of its two marginal sums over the sum of
    the table. *)
Definition expected_cell (row_total column_total n : Z) : A :=
  over ar (times ar (number ar row_total) (number ar column_total))
    (number ar n).

(** Modelled from the spec: the table of the expected frequencies. *)
Definition expected_freq (observed : list (list Z)) : list (list A) :=
  map (fun row =>
         map (fun c => expected_cell (sumZ row) c (grand_total observed))
           (column_totals observed))
    observed.

(** Modelled from the spec: Yates' correction for continuity, the
    observed count moved towards the expected one by 0.5 and by no
    more than their difference. *)
Definition yates (o e : A) : A :=
  let diff := minus ar e o in
  let direction := direction ar diff in
  let magnitude :=
    smaller ar (over ar (number ar 1) (number ar 2)) (magnitude ar diff) in
  plus ar o (times ar magnitude direction).

(** Modelled from the spec: one term of Pearson's statistic,
    [(f_obs - f_exp)**2 / f_exp]. *)
Definition term (o e : A) : A :=
  over ar (times ar (minus ar o e) (minus ar o e)) e.

(** Modelled from the spec: the terms of the cells of one row. *)
Definition row_terms (correction : bool) (column_sums : list Z) (n : Z)
    (row : list Z) : list A :=
  map (fun oc =>
         let e := expected_cell (sumZ row) (snd oc) n in
         let o := number ar (fst oc) in
         term (if correction then yates o e else o) e)
    (combine row column_sums).

(** Modelled from the spec: the statistic, zero when there is no
    degree of freedom, else the sum of the terms of all cells, row
    after row, after Yates' correction when there is one degree of
    freedom ([correction=True], the default that the program keeps). *)
Definition statistic (observed : list (list Z)) : A :=
  if (dof observed =? 0)%Z then number ar 0
  else
    total ar
      (concat
         (map (row_terms (dof observed =? 1)%Z (column_totals observed)
                 (grand_total observed))
            observed)).

(** The effect size of [cat_on_cat_effect_size] from a statistic, in
    the arithmetic [ar]: in binary64 it is [cramers_v_value]. *)
Definition cramers_v (chi2 : A) (ct : contingency) : A :=
  let n := values_sum ct in
  let '(r, k) := shape ct in
  let denom := cramers_denom r k in
  let phi2 := over ar chi2 (number ar n) in
  root ar (over ar phi2 (number ar denom)).

End Statistic.

(** Modelled from the spec: the libraries with the chi-square test as
    documented, which returns the statistic computed in binary64, the
    degrees of freedom and the expected frequencies; the p-value is
    the one given. *)
Definition libraries (p_value : float) : Libraries :=
  let L := Fixture.libraries 0 p_value in
  {| py_float := py_float;
     to_numeric_str := to_numeric_str;
     series_mean := series_mean;
     series_var := series_var;
     chi2_contingency := fun observed =>
       Ok (statistic binary64 observed, p_value, dof observed,
           expected_freq binary64 observed);
     ttest_ind := ttest_ind;
     anova := anova;
     pearsonr := pearsonr |}.

(** 26 answers X and 44 answers Y in group A, 5 answers Z in group
    B: each answer occurs in one group only. *)
Definition answer_pairs : list (cell * cell) :=
  repeat (Str "A", Str "X") 26 ++ repeat (Str "A", Str "Y") 44
  ++ repeat (Str "B", Str "Z") 5.


End Pearson.

(** The sum of a list of real numbers. *)
Definition sumR (xs : list R) : R := fold_right Rplus 0%R xs.




(** ** Cleaning for the correlation analyzer *)

(** The frame object on which [correlation_effect_size] works after its
    first four statements: both columns coerced, the rows with a missing
    value in either dropped. *)
Definition clean_num_num `{Libraries} (f : frame) (col1 col2 : string)
  : res frame :=
  match coerce_column f col1 with
  | Raise e => Raise e
  | Ok f1 =>
      match coerce_column f1 col2 with
      | Raise e => Raise e
      | Ok f2 => frame_dropna f2 [col1; col2]
      end
  end.

(** The row of a frame after [df[col] = pd.to_numeric(df[col], ...)]. *)
Definition coerced_row `{Libraries} (col : string) (row : gmap string cell)
  : gmap string cell :=
  <[col := to_numeric_cell (row_cell col row)]> row.

(** ** Plot Functions

    A figure is kept as the sequence of the calls made on it and on its
    axes.  What the plotting libraries do inside a call, which includes
    the errors they raise for data they cannot draw, is outside the
    program; [df[col]] is the program's own and raises [KeyError]. *)

Inductive drawing : Type :=
| BarChart (contingency_table : contingency) (stacked : bool)
| Heatmap (contingency_table : contingency)
| BoxPlot (data : frame) (column by_column : string)
| ViolinPlot (x y : string) (data : frame)
| StripPlot (x y : string) (data : frame)
| Scatter (xs ys : list cell)
| Hexbin (xs ys : list cell)
| RegPlot (x y : string) (data : frame) (scatter : bool)
    (color : option string)
| SetTitle (label : string)
| SetXLabel (label : string)
| SetYLabel (label : string)
| SupTitle (label : string)
| TightLayout.

Definition figure : Type := list drawing.

Definition show_cramers_v_plot (contingency_table : contingency)
    (cat_col1 cat_col2 plot_type : string) : figure :=
  (if String.eqb plot_type "Stacked Bar Chart"
   then [BarChart contingency_table true]
   else if String.eqb plot_type "Grouped Bar Chart"
   then [BarChart contingency_table false]
   else if String.eqb plot_type "Heatmap"
   then [Heatmap contingency_table]
   else [])
  ++ [ SetTitle (cat_col1 ++ " vs " ++ cat_col2)%string;
       SetXLabel cat_col1;
       SetYLabel (if negb (String.eqb plot_type "Heatmap")
                  then "Count" else cat_col2);
       TightLayout ].

Definition show_cohens_d_plot (df : frame) (cat_col num_col plot_type : string)
  : figure :=
  (if String.eqb plot_type "Box Plot"
   then [BoxPlot df num_col cat_col]
   else if String.eqb plot_type "Violin Plot"
   then [ViolinPlot cat_col num_col df]
   else if String.eqb plot_type "Strip Plot"
   then [StripPlot cat_col num_col df]
   else [])
  ++ [ SetTitle (plot_type ++ " of " ++ num_col ++ " by " ++ cat_col)%string;
       SetXLabel cat_col;
       SetYLabel num_col;
       SupTitle "";
       TightLayout ].

Definition show_pearsons_r_plot (df : frame) (col1 col2 plot_type : string)
    (add_regression : bool) : res figure :=
  match
    (if String.eqb plot_type "Scatter Plot" then
       match frame_getitem df col1 with
       | Raise e => Raise e
       | Ok xs =>
           match frame_getitem df col2 with
           | Raise e => Raise e
           | Ok ys =>
               Ok (Scatter xs ys
                   :: (if add_regression
                       then [RegPlot col1 col2 df false (Some "red")]
                       else []))
           end
       end
     else if String.eqb plot_type "Hexbin Plot" then
       match frame_getitem df col1 with
       | Raise e => Raise e
       | Ok xs =>
           match frame_getitem df col2 with
           | Raise e => Raise e
           | Ok ys => Ok [Hexbin xs ys]
           end
       end
     else if String.eqb plot_type "Regression Plot" then
       Ok [RegPlot col1 col2 df true None]
     else Ok [])
  with
  | Raise e => Raise e
  | Ok drawn =>
      Ok (drawn
          ++ [ SetTitle
                 (plot_type ++ " of " ++ col1 ++ " vs " ++ col2)%string;
               SetXLabel col1;
               SetYLabel col2;
               TightLayout ])
  end.

(** The calls that draw data, as against titles, labels and layout. *)
Definition is_chart (d : drawing) : bool :=
  match d with
  | BarChart _ _ | Heatmap _ | BoxPlot _ _ _ | ViolinPlot _ _ _
  | StripPlot _ _ _ | Scatter _ _ | Hexbin _ _ | RegPlot _ _ _ _ _ => true
  | SetTitle _ | SetXLabel _ | SetYLabel _ | SupTitle _ | TightLayout => false
  end.

Definition charts (fig : figure) : list drawing := List.filter is_chart fig.

(** ** Main Application Window *)

(** [pd.read_csv] and [pd.read_excel]: the table of a file, or the text
    [str(e)] of the exception raised.  Column labels are taken as
    strings. *)
Inductive loaded : Type :=
| Table (f : frame)
| ReadError (message : string).

Class Files : Type := {
  read_csv : string -> loaded;
  read_excel : string -> loaded
}.

(** A stand-in for the readers, used to run the model on examples: a
    disk that holds CSV files only. *)
Definition csv_disk (files : list (string * frame)) : Files :=
  {| read_csv := fun path =>
       match List.find (fun file => String.eqb (fst file) path) files with
       | Some file => Table (snd file)
       | None => ReadError "No such file or directory"
       end;
     read_excel := fun _ => ReadError "File is not a zip file" |}.

(** [s.endswith(suffix)]. *)
Definition endswith (s suffix : string) : bool :=
  let n := String.length s in
  let m := String.length suffix in
  (m <=? n)%nat && String.eqb (substring (n - m) m s) suffix.

Module EffectSizeCalculator.

Inductive theme : Type := Light | Dark.

(** A combo box that cannot be edited: its items and the index of the
    current one, none when the box is empty. *)
Record combo : Type := Combo {
  items : list string;
  currentIndex : option nat
}.

Definition currentText (c : combo) : string :=
  match currentIndex c with
  | Some i => default "" (items c !! i)
  | None => ""
  end.

Definition clear (c : combo) : combo :=
  {| items := []; currentIndex := None |}.

(** [addItems]: the first item added to an empty box becomes the
    current one. *)
Definition addItems (texts : list string) (c : combo) : combo :=
  {| items := items c ++ texts;
     currentIndex :=
       match currentIndex c with
       | Some i => Some i
       | None => if bool_decide (items c ++ texts = []) then None else Some 0%nat
       end |}.

(** The user picks the item at an index. *)
Definition setCurrentIndex (i : nat) (c : combo) : combo :=
  {| items := items c; currentIndex := Some i |}.

Record checkbox : Type := Checkbox {
  isChecked : bool;
  isVisible : bool
}.

Record progress : Type := Progress {
  bar_visible : bool;
  bar_value : option Z
}.

(** The preview table: the header labels and the items, row by row. *)
Record table_widget : Type := TableWidget {
  header_labels : list string;
  table_items : list (list cell)
}.

(** The widgets that the program enables and disables. *)
Inductive widget : Type :=
| mode_toggle_button | file_browse_button | file_path_entry_widget
| col1_menu_widget | col2_menu_widget | preview_button
| effect_type_menu_widget | alpha_entry_widget | plot_type_menu_widget
| regression_checkbox_widget | calculate_button | plot_button | save_button.

#[export] Instance widget_eq_dec : EqDecision widget.
Proof. solve_decision. Defined.

Record state : Type := State {
  dark_mode : bool;  (* self.dark_mode *)
  file_loaded : bool;  (* self.file_loaded *)
  data_previewed : bool;  (* self.data_previewed *)
  df : option nat;  (* self.df, once a file is loaded *)
  plot_data : option (nat * string * string * string);  (* self.plot_data, once a calculation succeeded *)
  style : option theme;  (* the style sheet, the palette of the combo boxes and the label of the mode button *)
  file_path_entry : string;  (* its text *)
  col1_menu : combo;
  col2_menu : combo;
  data_table : table_widget;
  effect_type_menu : combo;
  alpha_entry : string;  (* its text *)
  plot_type_menu : combo;
  regression_checkbox : checkbox;
  progress_bar : progress;
  progress_label : string;  (* its text *)
  result_label : text;  (* its text *)
  enabled : widget -> bool  (* isEnabled() of each widget *)
}.

(** Assignment to one attribute or widget of the window. *)

Definition set_dark_mode (v : bool) (s : state) : state :=
  State v (file_loaded s) (data_previewed s) (df s) (plot_data s) (style s)
    (file_path_entry s) (col1_menu s) (col2_menu s) (data_table s)
    (effect_type_menu s) (alpha_entry s) (plot_type_menu s)
    (regression_checkbox s) (progress_bar s) (progress_label s)
    (result_label s) (enabled s).

Definition set_file_loaded (v : bool) (s : state) : state :=
  State (dark_mode s) v (data_previewed s) (df s) (plot_data s) (style s)
    (file_path_entry s) (col1_menu s) (col2_menu s) (data_table s)
    (effect_type_menu s) (alpha_entry s) (plot_type_menu s)
    (regression_checkbox s) (progress_bar s) (progress_label s)
    (result_label s) (enabled s).

Definition set_data_previewed (v : bool) (s : state) : state :=
  State (dark_mode s) (file_loaded s) v (df s) (plot_data s) (style s)
    (file_path_entry s) (col1_menu s) (col2_menu s) (data_table s)
    (effect_type_menu s) (alpha_entry s) (plot_type_menu s)
    (regression_checkbox s) (progress_bar s) (progress_label s)
    (result_label s) (enabled s).

Definition set_df (v : option nat) (s : state) : state :=
  State (dark_mode s) (file_loaded s) (data_previewed s) v (plot_data s)
    (style s) (file_path_entry s) (col1_menu s) (col2_menu s) (data_table s)
    (effect_type_menu s) (alpha_entry s) (plot_type_menu s)
    (regression_checkbox s) (progress_bar s) (progress_label s)
    (result_label s) (enabled s).

Definition set_plot_data (v : option (nat * string * string * string)) (s : state) : state :=
  State (dark_mode s) (file_loaded s) (data_previewed s) (df s) v (style s)
    (file_path_entry s) (col1_menu s) (col2_menu s) (data_table s)
    (effect_type_menu s) (alpha_entry s) (plot_type_menu s)
    (regression_checkbox s) (progress_bar s) (progress_label s)
    (result_label s) (enabled s).

Definition set_style (v : option theme) (s : state) : state :=
  State (dark_mode s) (file_loaded s) (data_previewed s) (df s)
    (plot_data s) v (file_path_entry s) (col1_menu s) (col2_menu s)
    (data_table s) (effect_type_menu s) (alpha_entry s) (plot_type_menu s)
    (regression_checkbox s) (progress_bar s) (progress_label s)
    (result_label s) (enabled s).

Definition set_file_path_entry (v : string) (s : state) : state :=
  State (dark_mode s) (file_loaded s) (data_previewed s) (df s)
    (plot_data s) (style s) v (col1_menu s) (col2_menu s) (data_table s)
    (effect_type_menu s) (alpha_entry s) (plot_type_menu s)
    (regression_checkbox s) (progress_bar s) (progress_label s)
    (result_label s) (enabled s).

Definition set_col1_menu (v : combo) (s : state) : state :=
  State (dark_mode s) (file_loaded s) (data_previewed s) (df s)
    (plot_data s) (style s) (file_path_entry s) v (col2_menu s)
    (data_table s) (effect_type_menu s) (alpha_entry s) (plot_type_menu s)
    (regression_checkbox s) (progress_bar s) (progress_label s)
    (result_label s) (enabled s).

Definition set_col2_menu (v : combo) (s : state) : state :=
  State (dark_mode s) (file_loaded s) (data_previewed s) (df s)
    (plot_data s) (style s) (file_path_entry s) (col1_menu s) v
    (data_table s) (effect_type_menu s) (alpha_entry s) (plot_type_menu s)
    (regression_checkbox s) (progress_bar s) (progress_label s)
    (result_label s) (enabled s).

Definition set_data_table (v : table_widget) (s : state) : state :=
  State (dark_mode s) (file_loaded s) (data_previewed s) (df s)
    (plot_data s) (style s) (file_path_entry s) (col1_menu s) (col2_menu s)
    v (effect_type_menu s) (alpha_entry s) (plot_type_menu s)
    (regression_checkbox s) (progress_bar s) (progress_label s)
    (result_label s) (enabled s).

Definition set_effect_type_menu (v : combo) (s : state) : state :=
  State (dark_mode s) (file_loaded s) (data_previewed s) (df s)
    (plot_data s) (style s) (file_path_entry s) (col1_menu s) (col2_menu s)
    (data_table s) v (alpha_entry s) (plot_type_menu s)
    (regression_checkbox s) (progress_bar s) (progress_label s)
    (result_label s) (enabled s).

Definition set_alpha_entry (v : string) (s : state) : state :=
  State (dark_mode s) (file_loaded s) (data_previewed s) (df s)
    (plot_data s) (style s) (file_path_entry s) (col1_menu s) (col2_menu s)
    (data_table s) (effect_type_menu s) v (plot_type_menu s)
    (regression_checkbox s) (progress_bar s) (progress_label s)
    (result_label s) (enabled s).

Definition set_plot_type_menu (v : combo) (s : state) : state :=
  State (dark_mode s) (file_loaded s) (data_previewed s) (df s)
    (plot_data s) (style s) (file_path_entry s) (col1_menu s) (col2_menu s)
    (data_table s) (effect_type_menu s) (alpha_entry s) v
    (regression_checkbox s) (progress_bar s) (progress_label s)
    (result_label s) (enabled s).

Definition set_regression_checkbox (v : checkbox) (s : state) : state :=
  State (dark_mode s) (file_loaded s) (data_previewed s) (df s)
    (plot_data s) (style s) (file_path_entry s) (col1_menu s) (col2_menu s)
    (data_table s) (effect_type_menu s) (alpha_entry s) (plot_type_menu s) v
    (progress_bar s) (progress_label s) (result_label s) (enabled s).

Definition set_progress_bar (v : progress) (s : state) : state :=
  State (dark_mode s) (file_loaded s) (data_previewed s) (df s)
    (plot_data s) (style s) (file_path_entry s) (col1_menu s) (col2_menu s)
    (data_table s) (effect_type_menu s) (alpha_entry s) (plot_type_menu s)
    (regression_checkbox s) v (progress_label s) (result_label s)
    (enabled s).

Definition set_progress_label (v : string) (s : state) : state :=
  State (dark_mode s) (file_loaded s) (data_previewed s) (df s)
    (plot_data s) (style s) (file_path_entry s) (col1_menu s) (col2_menu s)
    (data_table s) (effect_type_menu s) (alpha_entry s) (plot_type_menu s)
    (regression_checkbox s) (progress_bar s) v (result_label s) (enabled s).

Definition set_result_label (v : text) (s : state) : state :=
  State (dark_mode s) (file_loaded s) (data_previewed s) (df s)
    (plot_data s) (style s) (file_path_entry s) (col1_menu s) (col2_menu s)
    (data_table s) (effect_type_menu s) (alpha_entry s) (plot_type_menu s)
    (regression_checkbox s) (progress_bar s) (progress_label s) v
    (enabled s).

Definition set_enabled (v : widget -> bool) (s : state) : state :=
  State (dark_mode s) (file_loaded s) (data_previewed s) (df s)
    (plot_data s) (style s) (file_path_entry s) (col1_menu s) (col2_menu s)
    (data_table s) (effect_type_menu s) (alpha_entry s) (plot_type_menu s)
    (regression_checkbox s) (progress_bar s) (progress_label s)
    (result_label s) v.

Definition setEnabled (w : widget) (b : bool) (s : state) : state :=
  set_enabled (fun w' => if decide (w' = w) then b else enabled s w') s.

Definition setVisible_progress_bar (b : bool) (s : state) : state :=
  set_progress_bar
    {| bar_visible := b; bar_value := bar_value (progress_bar s) |} s.

Definition setValue_progress_bar (v : Z) (s : state) : state :=
  set_progress_bar
    {| bar_visible := bar_visible (progress_bar s); bar_value := Some v |} s.

Definition setVisible_regression_checkbox (b : bool) (s : state) : state :=
  set_regression_checkbox
    {| isChecked := isChecked (regression_checkbox s); isVisible := b |} s.

(** What a method shows or writes besides changing the window. *)
Inductive output : Type :=
| Warning (msg : string)
| Critical (msg : string)
| CriticalError (e : exn)          (* the critical box with [str(e)] *)
| Information (msg : string)
| PlotWindow (fig : figure)
| SaveFig (file_name : string) (fig : figure).

Definition effect_types : list string :=
  [ "Categorical on Categorical";
    "Categorical on Numerical";
    "Numerical Correlation" ].

Definition apply_modern_style (s : state) : state :=
  if dark_mode s then set_style (Some Dark) s else set_style (Some Light) s.

Definition toggle_dark_mode (s : state) : state :=
  apply_modern_style (set_dark_mode (negb (dark_mode s)) s).

Definition update_plot_options (s : state) : state :=
  let effect_type := currentText (effect_type_menu s) in
  let s := set_plot_type_menu (clear (plot_type_menu s)) s in
  if String.eqb effect_type "Categorical on Categorical" then
    let s :=
      set_plot_type_menu
        (addItems ["Stacked Bar Chart"; "Grouped Bar Chart"; "Heatmap"]
           (plot_type_menu s)) s in
    setVisible_regression_checkbox false s
  else if String.eqb effect_type "Categorical on Numerical" then
    let s :=
      set_plot_type_menu
        (addItems ["Box Plot"; "Violin Plot"; "Strip Plot"]
           (plot_type_menu s)) s in
    setVisible_regression_checkbox false s
  else if String.eqb effect_type "Numerical Correlation" then
    let s :=
      set_plot_type_menu
        (addItems ["Scatter Plot"; "Hexbin Plot"; "Regression Plot"]
           (plot_type_menu s)) s in
    setVisible_regression_checkbox true s
  else s.

(** The window when [init_ui] returns, before the first
    [apply_modern_style]. *)
Definition init_ui : state :=
  update_plot_options
    {| dark_mode := false;
       file_loaded := false;
       data_previewed := false;
       df := None;
       plot_data := None;
       style := None;
       file_path_entry := "";
       col1_menu := {| items := []; currentIndex := None |};
       col2_menu := {| items := []; currentIndex := None |};
       data_table := {| header_labels := []; table_items := [] |};
       effect_type_menu :=
         addItems effect_types {| items := []; currentIndex := None |};
       alpha_entry := "0.05";
       plot_type_menu := {| items := []; currentIndex := None |};
       regression_checkbox := {| isChecked := false; isVisible := false |};
       progress_bar := {| bar_visible := false; bar_value := None |};
       progress_label := "";
       result_label := [];
       enabled := fun w =>
         match w with
         | mode_toggle_button | file_browse_button => true
         | _ => false
         end |}.

(** The window when [__init__] returns. *)
Definition init : state := apply_modern_style init_ui.

Section Methods.

Context `{Libraries} `{Files}.

(** [load_file], with the path the file dialog returns (empty when the
    dialog is cancelled). *)
Definition load_file (file_path : string) (s : state) (st : list frame)
  : state * list frame * list output :=
  if String.eqb file_path "" then (s, st, [])
  else
    let s := set_file_path_entry file_path s in
    let s := setVisible_progress_bar true s in
    let s := setValue_progress_bar 0 s in
    let s := set_progress_label "Loading file..." s in
    match (if endswith file_path ".csv"
           then read_csv file_path else read_excel file_path) with
    | Table f =>
        let s := set_df (Some (List.length st)) s in
        let s := setValue_progress_bar 100 s in
        let s := setVisible_progress_bar false s in
        let s := set_progress_label "File loaded successfully!" s in
        let s := set_file_loaded true s in
        let s := set_col1_menu (clear (col1_menu s)) s in
        let s := set_col2_menu (clear (col2_menu s)) s in
        let s := set_col1_menu (addItems (columns f) (col1_menu s)) s in
        let s := set_col2_menu (addItems (columns f) (col2_menu s)) s in
        let s := setEnabled preview_button true s in
        let s := setEnabled col1_menu_widget true s in
        let s := setEnabled col2_menu_widget true s in
        let s := setEnabled effect_type_menu_widget true s in
        let s := setEnabled alpha_entry_widget true s in
        let s := setEnabled plot_type_menu_widget true s in
        let s := setEnabled regression_checkbox_widget true s in
        (s, st ++ [f], [])
    | ReadError message =>
        let s := setVisible_progress_bar false s in
        let s := set_progress_label "" s in
        (s, st,
         [Critical ("Could not load file:" ++ String "010"%char message)])
    end.

Definition preview_data (s : state) (st : list frame) : state :=
  match df s with
  | None => s
  | Some l =>
      let f := at_loc st l in
      let cols := columns f in
      let rows_to_show := Nat.min 10 (List.length (rows f)) in
      let s :=
        set_data_table
          {| header_labels := cols;
             table_items :=
               map (fun row => map (fun col => row_cell col row) cols)
                 (take rows_to_show (rows f)) |} s in
      let s := set_data_previewed true s in
      setEnabled calculate_button true s
  end.

(** What [calculate_effect_size] reads from the window. *)
Definition inputs (s : state) : window :=
  Window (df s) (alpha_entry s) (currentText (effect_type_menu s))
    (currentText (col1_menu s)) (currentText (col2_menu s)).

Definition calculate_effect_size (s : state) (st : list frame)
  : state * list frame * list output :=
  match df s with
  | None => (s, st, [Warning "Please load a dataset first."])
  | Some l =>
      let s := setVisible_progress_bar true s in
      let s := setValue_progress_bar 0 s in
      let s := set_progress_label "Calculating..." s in
      match py_float (alpha_entry s) with
      | None =>
          let s := setVisible_progress_bar false s in
          let s := set_progress_label "" s in
          (s, st, [Critical "Significance (Œ±) must be a numeric value."])
      | Some alpha =>
          let effect_type := currentText (effect_type_menu s) in
          let col1 := currentText (col1_menu s) in
          let col2 := currentText (col2_menu s) in
          if String.eqb col1 col2 then
            let s := setVisible_progress_bar false s in
            let s := set_progress_label "" s in
            (s, st, [Critical "Please select two different columns."])
          else
            let '(outcome, st) :=
              run_analyzer (select_analyzer effect_type l col1 col2 alpha)
                st in
            let '(s, shown) :=
              match outcome with
              | Ok result_text =>
                  let s := set_result_label result_text s in
                  let s :=
                    set_plot_data (Some (l, col1, col2, effect_type)) s in
                  let s := setEnabled plot_button true s in
                  let s := setEnabled save_button true s in
                  (s, [])
              | Raise e => (s, [CriticalError e])
              end in
            let s := setValue_progress_bar 100 s in
            let s := setVisible_progress_bar false s in
            let s := set_progress_label "Calculation complete." s in
            (s, st, shown)
      end
  end.

(** The figure that [show_plot] and [save_plot] build, inside their
    [try]. *)
Definition build_figure (data : nat * string * string * string)
    (plot_type : string) (regression_checked : bool) (st : list frame)
  : res figure :=
  let '(l, col1, col2, effect_type) := data in
  let df := at_loc st l in
  if String.eqb effect_type "Categorical on Categorical" then
    match frame_getitem df col1 with
    | Raise e => Raise e
    | Ok xs =>
        match frame_getitem df col2 with
        | Raise e => Raise e
        | Ok ys =>
            let contingency_table := crosstab xs ys in
            Ok (show_cramers_v_plot contingency_table col1 col2 plot_type)
        end
    end
  else if String.eqb effect_type "Categorical on Numerical" then
    Ok (show_cohens_d_plot df col1 col2 plot_type)
  else
    let add_regression := regression_checked in
    show_pearsons_r_plot df col1 col2 plot_type add_regression.

Definition show_plot (s : state) (st : list frame) : list output :=
  match plot_data s with
  | None => []
  | Some data =>
      let plot_type := currentText (plot_type_menu s) in
      match build_figure data plot_type
              (isChecked (regression_checkbox s)) st with
      | Ok fig => [PlotWindow fig]
      | Raise e => [CriticalError e]
      end
  end.

(** [save_plot], with the name the save dialog returns (empty when the
    dialog is cancelled). *)
Definition save_plot (file_name : string) (s : state) (st : list frame)
  : list output :=
  match plot_data s with
  | None => []
  | Some data =>
      let plot_type := currentText (plot_type_menu s) in
      match build_figure data plot_type
              (isChecked (regression_checkbox s)) st with
      | Ok fig =>
          if String.eqb file_name "" then []
          else [SaveFig file_name fig;
                Information "Plot saved successfully!"]
      | Raise e => [CriticalError e]
      end
  end.

Definition update_plot (s : state) (st : list frame) : list output :=
  if enabled s plot_button then show_plot s st else [].

(** ** What the user does

    A click on a button, a choice in a combo box, an edit of the alpha
    entry, a click on the check box.  A dialog that a method opens is
    answered with the event's argument. *)
Inductive event : Type :=
| ClickModeToggle
| ClickBrowse (file_path : string)
| ClickPreview
| ClickCalculate
| ClickPlot
| ClickSave (file_name : string)
| SelectCol1 (i : nat)
| SelectCol2 (i : nat)
| SelectEffectType (i : nat)
| SelectPlotType (i : nat)
| EditAlpha (new_text : string)
| ClickRegression.

(** An event is possible when its widget is enabled (and shown), and a
    choice names an item of the box. *)
Definition possible (e : event) (s : state) : bool :=
  match e with
  | ClickModeToggle => enabled s mode_toggle_button
  | ClickBrowse _ => enabled s file_browse_button
  | ClickPreview => enabled s preview_button
  | ClickCalculate => enabled s calculate_button
  | ClickPlot => enabled s plot_button
  | ClickSave _ => enabled s save_button
  | SelectCol1 i =>
      enabled s col1_menu_widget
      && bool_decide (i < List.length (items (col1_menu s)))%nat
  | SelectCol2 i =>
      enabled s col2_menu_widget
      && bool_decide (i < List.length (items (col2_menu s)))%nat
  | SelectEffectType i =>
      enabled s effect_type_menu_widget
      && bool_decide (i < List.length (items (effect_type_menu s)))%nat
  | SelectPlotType i =>
      enabled s plot_type_menu_widget
      && bool_decide (i < List.length (items (plot_type_menu s)))%nat
  | EditAlpha _ => enabled s alpha_entry_widget
  | ClickRegression =>
      enabled s regression_checkbox_widget
      && isVisible (regression_checkbox s)
  end.

(** The slot connected to the event's signal. *)
Definition handle (e : event) (s : state) (st : list frame)
  : state * list frame * list output :=
  match e with
  | ClickModeToggle => (toggle_dark_mode s, st, [])
  | ClickBrowse file_path => load_file file_path s st
  | ClickPreview => (preview_data s st, st, [])
  | ClickCalculate => calculate_effect_size s st
  | ClickPlot => (s, st, show_plot s st)
  | ClickSave file_name => (s, st, save_plot file_name s st)
  | SelectCol1 i => (set_col1_menu (setCurrentIndex i (col1_menu s)) s, st, [])
  | SelectCol2 i => (set_col2_menu (setCurrentIndex i (col2_menu s)) s, st, [])
  | SelectEffectType i =>
      let s' :=
        set_effect_type_menu (setCurrentIndex i (effect_type_menu s)) s in
      (* currentTextChanged *)
      if String.eqb (currentText (effect_type_menu s'))
           (currentText (effect_type_menu s))
      then (s', st, [])
      else (update_plot_options s', st, [])
  | SelectPlotType i =>
      (set_plot_type_menu (setCurrentIndex i (plot_type_menu s)) s, st, [])
  | EditAlpha new_text => (set_alpha_entry new_text s, st, [])
  | ClickRegression =>
      let s' :=
        set_regression_checkbox
          {| isChecked := negb (isChecked (regression_checkbox s));
             isVisible := isVisible (regression_checkbox s) |} s in
      (* stateChanged *)
      (s', st, update_plot s' st)
  end.

(** The windows and stores that the user can bring about. *)
Inductive reachable : state -> list frame -> Prop :=
| reachable_init : reachable init []
| reachable_step (e : event) (s : state) (st : list frame) :
    reachable s st ->
    possible e s = true ->
    reachable (handle e s st).1.1 (handle e s st).1.2.

(** The window and the store after a sequence of events. *)
Fixpoint after (events : list event) (s : state) (st : list frame)
  : state * list frame :=
  match events with
  | [] => (s, st)
  | e :: events' =>
      let '(s', st', _) := handle e s st in after events' s' st'
  end.

(** Each event of a sequence is possible when its turn comes. *)
Fixpoint possible_all (events : list event) (s : state) (st : list frame)
  : bool :=
  match events with
  | [] => true
  | e :: events' =>
      possible e s
      && let '(s', st', _) := handle e s st in possible_all events' s' st'
  end.

End Methods.

(** The plot types by effect type. *)
Definition plot_types (effect_type : string) : list string :=
  if String.eqb effect_type "Categorical on Categorical"
  then ["Stacked Bar Chart"; "Grouped Bar Chart"; "Heatmap"]
  else if String.eqb effect_type "Categorical on Numerical"
  then ["Box Plot"; "Violin Plot"; "Strip Plot"]
  else if String.eqb effect_type "Numerical Correlation"
  then ["Scatter Plot"; "Hexbin Plot"; "Regression Plot"]
  else [].

(** A combo box with items has one of them as the current item. *)
Definition selected (c : combo) : Prop :=
  match currentIndex c with
  | Some i => (i < List.length (items c))%nat
  | None => items c = []
  end.

(** The widgets that [load_file] enables. *)
Definition analysis_widgets : list widget :=
  [ preview_button; col1_menu_widget; col2_menu_widget;
    effect_type_menu_widget; alpha_entry_widget; plot_type_menu_widget;
    regression_checkbox_widget ].

(** How the parts of the window hang together. *)
Record consistent (s : state) (st : list frame) : Prop := Consistent {
  df_in_store : forall l, df s = Some l -> (l < List.length st)%nat;
  plot_data_in_store :
    forall l col1 col2 effect_type,
      plot_data s = Some (l, col1, col2, effect_type) ->
      (l < List.length st)%nat
      /\ has_column (at_loc st l) col1 = true
      /\ has_column (at_loc st l) col2 = true
      /\ col1 <> col2
      /\ In effect_type effect_types;
  file_loaded_df : file_loaded s = true <-> is_Some (df s);
  analysis_enabled :
    forall w, In w analysis_widgets -> enabled s w = file_loaded s;
  calculate_enabled : enabled s calculate_button = data_previewed s;
  previewed_loaded : data_previewed s = true -> file_loaded s = true;
  plot_enabled : enabled s plot_button = true <-> is_Some (plot_data s);
  save_enabled : enabled s save_button = enabled s plot_button;
  plotted_previewed : is_Some (plot_data s) -> data_previewed s = true;
  fixed_enabled :
    enabled s mode_toggle_button = true
    /\ enabled s file_browse_button = true
    /\ enabled s file_path_entry_widget = false;
  effect_type_items : items (effect_type_menu s) = effect_types;
  effect_type_selected : selected (effect_type_menu s);
  plot_type_items :
    items (plot_type_menu s)
    = plot_types (currentText (effect_type_menu s));
  plot_type_selected : selected (plot_type_menu s);
  regression_shown :
    isVisible (regression_checkbox s)
    = String.eqb (currentText (effect_type_menu s)) "Numerical Correlation";
  column_items :
    items (col1_menu s) = items (col2_menu s)
    /\ items (col1_menu s)
       = match df s with
         | Some l => columns (at_loc st l)
         | None => []
         end;
  column_selected : selected (col1_menu s) /\ selected (col2_menu s);
  style_applied : style s = Some (if dark_mode s then Dark else Light)
}.

End EffectSizeCalculator.

(** * Properties *)

(** ** Order facts of binary64 *)

Section FloatOrder.

Lemma SFleb_ltb_trans (a b c : spec_float) :
  SFleb a b = true -> SFltb b c = true -> SFltb a c = true.
Proof.
  unfold SFleb, SFltb.
  destruct a as [sa| sa| |sa ma ea], b as [sb| sb| |sb mb eb],
           c as [sc| sc| |sc mc ec]; simpl;
    repeat match goal with s : bool |- _ => destruct s end;
    simpl; try discriminate; try reflexivity.
  all: change (PosDef.Pos.compare_cont Eq) with Pos.compare.
  all: destruct (Z.compare_spec ea eb), (Z.compare_spec eb ec),
         (Z.compare_spec ea ec); subst; try lia; try discriminate;
       try reflexivity.
  all: destruct (Pos.compare_spec ma mb), (Pos.compare_spec mb mc),
         (Pos.compare_spec ma mc); subst; simpl; try lia;
       try discriminate; try reflexivity.
Qed.

Lemma leb_ltb_trans (x y z : float) :
  (x <=? y) = true -> (y <? z) = true -> (x <? z) = true.
Proof.
  rewrite FloatAxioms.leb_spec, !FloatAxioms.ltb_spec. apply SFleb_ltb_trans.
Qed.

Lemma ltb_not_leb (x y : float) : (x <? y) = true -> (y <=? x) = false.
Proof.
  rewrite FloatAxioms.ltb_spec, FloatAxioms.leb_spec. unfold SFltb, SFleb.
  destruct (Prim2SF x) as [sa| sa| |sa ma ea],
           (Prim2SF y) as [sb| sb| |sb mb eb]; simpl;
    repeat match goal with s : bool |- _ => destruct s end;
    simpl; try discriminate; try reflexivity.
  all: change (PosDef.Pos.compare_cont Eq) with Pos.compare.
  all: destruct (Z.compare_spec ea eb), (Z.compare_spec eb ea);
       subst; try lia; try discriminate; try reflexivity.
  all: destruct (Pos.compare_spec ma mb), (Pos.compare_spec mb ma);
       subst; simpl; try lia; try discriminate; try reflexivity.
Qed.

Lemma eqb_leb (x y : float) : (x =? y) = true -> (x <=? y) = true.
Proof.
  rewrite FloatAxioms.eqb_spec, FloatAxioms.leb_spec. unfold SFeqb, SFleb.
  destruct (SFcompare _ _) as [[ | | ]|]; congruence.
Qed.

(** A finite value is below [infinity] in magnitude. *)
Lemma finite_abs_ltb_infinity (x : float) :
  is_finite x = true -> (abs x <? infinity) = true.
Proof.
  unfold is_finite, is_nan, is_infinity.
  rewrite FloatAxioms.ltb_spec, !FloatAxioms.eqb_spec, abs_spec.
  change (Prim2SF infinity) with (S754_infinity false).
  destruct (Prim2SF x) as [s| s| |s m e]; simpl; try reflexivity.
  - destruct s; discriminate.
  - discriminate.
Qed.

(** Conversely, what is below [infinity] in magnitude is finite. *)
Lemma abs_ltb_infinity_finite (x : float) :
  (abs x <? infinity) = true -> is_finite x = true.
Proof.
  unfold is_finite, is_nan, is_infinity.
  rewrite FloatAxioms.ltb_spec, !FloatAxioms.eqb_spec, abs_spec.
  change (Prim2SF infinity) with (S754_infinity false).
  destruct (Prim2SF x) as [s| s| |s m e]; simpl; try reflexivity;
    try discriminate.
  unfold SFeqb. simpl. destruct s; simpl.
  all: rewrite Z.compare_refl; change (PosDef.Pos.compare_cont Eq) with Pos.compare;
    rewrite Pos.compare_refl; reflexivity.
Qed.

End FloatOrder.

(** ** The interpreter *)

Section Interpreter.

Lemma interpretations_kind (k : effect_kind) :
  exists bands : list band,
    interpretations !! kind_key k = Some bands
    /\ Forall2 same_band (documented_bands k) bands
    /\ increasing (map fst bands) = true
    /\ NoDup (map snd bands)
    /\ (exists label, last bands = Some (infinity, label)).
Proof.
  destruct k; eexists; (split; [ vm_compute; reflexivity | ]).
  all: split; [ repeat constructor | ].
  all: split; [ vm_compute; reflexivity | ].
  all: split; [ | eexists; reflexivity ].
  all: apply (bool_decide_unpack _); vm_compute; reflexivity.
Qed.

Lemma interpret_recognized (value : float) (effect_type : string)
    (k : effect_kind) (bands : list band) :
  names_kind effect_type k ->
  interpretations !! kind_key k = Some bands ->
  interpret_effect_size value effect_type = Ok (for_bands value bands).
Proof.
  unfold names_kind, interpret_effect_size. intros -> ->. reflexivity.
Qed.

(** The loop returns exactly the first band above the magnitude. *)
Lemma for_bands_first (value : float) (bands : list band)
    (label : string) :
  for_bands value bands = Some label
  <-> first_band_above (abs value) bands label.
Proof.
  induction bands as [|[threshold interpretation] rest IH]; simpl.
  - split; [discriminate|]. intros (i & bound & Hi & _). discriminate.
  - destruct (abs value <? threshold) eqn:Hlt.
    + split.
      * intros [= <-]. exists 0%nat, threshold.
        repeat split; auto. intros j b Hj. lia.
      * intros (i & bound & Hi & Hb & Hfirst).
        destruct i as [|i].
        -- simpl in Hi. congruence.
        -- specialize (Hfirst 0%nat (threshold, interpretation)
                         ltac:(lia) eq_refl).
           simpl in Hfirst. congruence.
    + rewrite IH. split.
      * intros (i & bound & Hi & Hb & Hfirst).
        exists (S i), bound. repeat split; auto.
        intros [|j] b Hj Hjb.
        -- simpl in Hjb. injection Hjb as <-. exact Hlt.
        -- apply (Hfirst j b); [lia | exact Hjb].
      * intros (i & bound & Hi & Hb & Hfirst).
        destruct i as [|i].
        -- simpl in Hi. injection Hi as -> ->. congruence.
        -- exists i, bound. repeat split; auto.
           intros j b Hj Hjb. apply (Hfirst (S j) b); [lia | exact Hjb].
Qed.

(** A list that ends with the bound [infinity] gives every finite
    value a label. *)
Lemma for_bands_total (value : float) (bands : list band)
    (label : string) :
  last bands = Some (infinity, label) ->
  is_finite value = true ->
  exists l, for_bands value bands = Some l.
Proof.
  intros Hlast Hfin.
  induction bands as [|[threshold interpretation] rest IH];
    [discriminate|].
  simpl. destruct (abs value <? threshold) eqn:Hlt; [eauto|].
  destruct rest as [|b rest'].
  - simpl in Hlast. injection Hlast as -> ->.
    rewrite finite_abs_ltb_infinity in Hlt by exact Hfin. discriminate.
  - apply IH. exact Hlast.
Qed.

Lemma for_bands_index (value : float) (bands : list band)
    (label : string) :
  NoDup (map snd bands) ->
  for_bands value bands = Some label ->
  rank_of bands label = Some (band_index value bands).
Proof.
  induction bands as [|[threshold interpretation] rest IH]; simpl;
    [discriminate|].
  intros Hnd. apply NoDup_cons in Hnd as [Hnotin Hnd].
  destruct (abs value <? threshold).
  - intros [= ->]. rewrite String.eqb_refl. reflexivity.
  - intros Hrest. destruct (String.eqb_spec interpretation label) as [->|_].
    + exfalso. apply Hnotin.
      apply for_bands_first in Hrest as (i & bound & Hi & _).
      apply list_elem_of_In, in_map_iff. exists (bound, label).
      split; [reflexivity|].
      apply list_elem_of_In, list_elem_of_lookup. eauto.
    + rewrite (IH Hnd Hrest). reflexivity.
Qed.

Lemma band_index_mono (x y : float) (bands : list band) :
  (abs x <=? abs y) = true ->
  (band_index x bands <= band_index y bands)%nat.
Proof.
  intros Hle.
  induction bands as [|[threshold interpretation] rest IH]; simpl;
    [lia|].
  destruct (abs y <? threshold) eqn:Hy.
  - rewrite (leb_ltb_trans _ _ _ Hle Hy). lia.
  - destruct (abs x <? threshold); lia.
Qed.

Lemma leb_finite (x y : float) :
  (abs x <=? abs y) = true -> is_finite y = true -> is_finite x = true.
Proof.
  intros Hle Hfin. apply abs_ltb_infinity_finite.
  apply (leb_ltb_trans _ _ _ Hle), finite_abs_ltb_infinity, Hfin.
Qed.

End Interpreter.

(** C3.  For a kind string that names one of the four recognized kinds,
    [interpret_effect_size] looks up that kind's band list, which is the
    documented table (same bounds in the same, strictly increasing
    order, each label starting with the documented band name); the
    label it returns is the label of the first band whose bound
    strictly exceeds [abs(value)]; it never raises, and every real
    (finite) value gets a label. *)
Theorem interpret_first_band_total
    (value : float) (effect_type : string) (k : effect_kind) :
  names_kind effect_type k ->
  exists bands : list band,
    interpretations !! kind_key k = Some bands
    /\ Forall2 same_band (documented_bands k) bands
    /\ increasing (map fst bands) = true
    /\ interpret_effect_size value effect_type = Ok (for_bands value bands)
    /\ (forall label : string,
          interpret_effect_size value effect_type = Ok (Some label)
          <-> first_band_above (abs value) bands label)
    /\ (is_finite value = true ->
        exists label : string,
          interpret_effect_size value effect_type = Ok (Some label)).
Proof.
  intros Hk.
  destruct (interpretations_kind k)
    as (bands & Hlook & Hdoc & Hinc & _ & label & Hlast).
  exists bands. repeat split; auto.
  - apply (interpret_recognized _ _ k); assumption.
  - rewrite (interpret_recognized value _ k bands Hk Hlook).
    intros [= E]. apply for_bands_first, E.
  - rewrite (interpret_recognized value _ k bands Hk Hlook).
    intros E. apply for_bands_first in E. congruence.
  - intros Hfin. rewrite (interpret_recognized value _ k bands Hk Hlook).
    destruct (for_bands_total value bands label Hlast Hfin) as [l ->].
    eauto.
Qed.

Lemma interpret_first_band_total_witness :
  names_kind "Pearson's r" PearsonsR
  /\ exists bands : list band,
       interpretations !! kind_key PearsonsR = Some bands
       /\ Forall2 same_band (documented_bands PearsonsR) bands
       /\ increasing (map fst bands) = true
       /\ interpret_effect_size (-0.95) "Pearson's r"
          = Ok (for_bands (-0.95) bands)
       /\ (forall label : string,
             interpret_effect_size (-0.95) "Pearson's r" = Ok (Some label)
             <-> first_band_above (abs (-0.95)) bands label)
       /\ (is_finite (-0.95) = true ->
           exists label : string,
             interpret_effect_size (-0.95) "Pearson's r" = Ok (Some label)).
Proof.
  split; [reflexivity|].
  exact (interpret_first_band_total (-0.95) "Pearson's r" PearsonsR eq_refl).
Defined.

(** C6.  For each of the four kinds and all values with
    [abs(x) <= abs(y)]: whenever both get a label, the position in the
    band list of the label of [y] is at least that of the label of [x];
    and both do get a label when [y] is a real (finite) value. *)
Theorem interpret_monotonic
    (x y : float) (effect_type : string) (k : effect_kind) :
  names_kind effect_type k ->
  (abs x <=? abs y) = true ->
  exists bands : list band,
    interpretations !! kind_key k = Some bands
    /\ (forall lx ly : string,
          interpret_effect_size x effect_type = Ok (Some lx) ->
          interpret_effect_size y effect_type = Ok (Some ly) ->
          exists i j : nat,
            rank_of bands lx = Some i
            /\ rank_of bands ly = Some j
            /\ (i <= j)%nat)
    /\ (is_finite y = true ->
        exists lx ly : string,
          interpret_effect_size x effect_type = Ok (Some lx)
          /\ interpret_effect_size y effect_type = Ok (Some ly)).
Proof.
  intros Hk Hle.
  destruct (interpretations_kind k)
    as (bands & Hlook & _ & _ & Hnd & label & Hlast).
  exists bands. split; [exact Hlook|].
  rewrite !(interpret_recognized _ _ k bands Hk Hlook). split.
  - intros lx ly [= Hx] [= Hy].
    exists (band_index x bands), (band_index y bands).
    auto using for_bands_index, band_index_mono.
  - intros Hfy. pose proof (leb_finite x y Hle Hfy) as Hfx.
    destruct (for_bands_total x bands label Hlast Hfx) as [lx ->].
    destruct (for_bands_total y bands label Hlast Hfy) as [ly ->].
    eauto.
Qed.

Lemma interpret_monotonic_witness :
  names_kind "Cohen's d" CohensD
  /\ (abs 0.15 <=? abs (-0.6)) = true
  /\ exists bands : list band,
       interpretations !! kind_key CohensD = Some bands
       /\ (forall lx ly : string,
             interpret_effect_size 0.15 "Cohen's d" = Ok (Some lx) ->
             interpret_effect_size (-0.6) "Cohen's d" = Ok (Some ly) ->
             exists i j : nat,
               rank_of bands lx = Some i
               /\ rank_of bands ly = Some j
               /\ (i <= j)%nat)
       /\ (is_finite (-0.6) = true ->
           exists lx ly : string,
             interpret_effect_size 0.15 "Cohen's d" = Ok (Some lx)
             /\ interpret_effect_size (-0.6) "Cohen's d" = Ok (Some ly)).
Proof.
  split; [reflexivity|]. split; [reflexivity|].
  exact (interpret_monotonic 0.15 (-0.6) "Cohen's d" CohensD
           eq_refl eq_refl).
Defined.

(** C8.  For a kind string that, after lower-casing, is none of the four
    keys, [interpret_effect_size] raises (the [KeyError] of the
    dictionary lookup) and returns no label, whatever the value. *)
Theorem interpret_unknown_kind (value : float) (effect_type : string) :
  (forall k : effect_kind, ~ names_kind effect_type k) ->
  interpret_effect_size value effect_type
  = Raise (KeyError (PyStr.lower effect_type)).
Proof.
  intros Hnone. unfold interpret_effect_size.
  assert (interpretations !! PyStr.lower effect_type = None) as ->;
    [|reflexivity].
  unfold interpretations. cbn [list_to_map foldr uncurry fst snd].
  rewrite !lookup_insert_ne, lookup_empty; [reflexivity|..].
  - intros E. apply (Hnone CramersV). symmetry. exact E.
  - intros E. apply (Hnone PearsonsR). symmetry. exact E.
  - intros E. apply (Hnone EtaSquared). symmetry. exact E.
  - intros E. apply (Hnone CohensD). symmetry. exact E.
Qed.

Lemma odds_ratio_unrecognized (k : effect_kind) :
  ~ names_kind "Odds Ratio" k.
Proof. destruct k; discriminate. Qed.

Lemma interpret_unknown_kind_witness :
  (forall k : effect_kind, ~ names_kind "Odds Ratio" k)
  /\ interpret_effect_size 0.4 "Odds Ratio"
     = Raise (KeyError (PyStr.lower "Odds Ratio")).
Proof.
  split; [exact odds_ratio_unrecognized|].
  exact (interpret_unknown_kind 0.4 "Odds Ratio" odds_ratio_unrecognized).
Defined.

(** ** The store *)

Section Store.

Lemma lookup_fresh (st : store) (f : frame) :
  (st ++ [f]) !! List.length st = Some f.
Proof.
  rewrite lookup_app_r by reflexivity.
  replace (List.length st - List.length st)%nat with 0%nat by lia.
  reflexivity.
Qed.

Lemma insert_fresh (st : store) (f g : frame) :
  <[List.length st := g]> (st ++ [f]) = st ++ [g].
Proof.
  rewrite insert_app_r_alt by reflexivity.
  replace (List.length st - List.length st)%nat with 0%nat by lia.
  reflexivity.
Qed.

Lemma lookup_second (st : store) (f g : frame) :
  (st ++ [f; g]) !! S (List.length st) = Some g.
Proof.
  rewrite lookup_app_r by lia.
  replace (S (List.length st) - List.length st)%nat with 1%nat by lia.
  reflexivity.
Qed.

Lemma bind_Ok {A B : Type} (m : M A) (k : A -> M B) (st st' : store)
    (b : B) :
  bind m k st = (Ok b, st') ->
  exists (a : A) (st1 : store), m st = (Ok a, st1) /\ k a st1 = (Ok b, st').
Proof.
  unfold bind. destruct (m st) as [[a|e] st1]; [eauto|discriminate].
Qed.

(** One equation per frame operation, for running a [do] block one
    statement at a time. *)

Lemma run_ret {A B : Type} (a : A) (k : A -> M B) (st : store) :
  bind (ret a) k st = k a st.
Proof. reflexivity. Qed.

Lemma run_assoc {A B C : Type} (m : M A) (k1 : A -> M B)
    (k2 : B -> M C) (st : store) :
  bind (bind m k1) k2 st = bind m (fun a => bind (k1 a) k2) st.
Proof. unfold bind. destruct (m st) as [[a|e] st1]; reflexivity. Qed.

Lemma run_lift {A B : Type} (r : res A) (k : A -> M B) (st : store) :
  bind (lift r) k st
  = match r with Ok a => k a st | Raise e => (Raise e, st) end.
Proof. destruct r; reflexivity. Qed.

Lemma run_raise {A B : Type} (e : exn) (k : A -> M B) (st : store) :
  bind (raise e) k st = (Raise e, st).
Proof. reflexivity. Qed.

Lemma run_deref {B : Type} (l : loc) (k : frame -> M B) (st : store) :
  bind (deref l) k st = k (at_loc st l) st.
Proof. reflexivity. Qed.

Lemma run_copy {B : Type} (l : loc) (k : loc -> M B) (st : store) :
  bind (df_copy l) k st = k (List.length st) (st ++ [at_loc st l]).
Proof. reflexivity. Qed.

Lemma run_getitem {B : Type} (l : loc) (col : string)
    (k : list cell -> M B) (st : store) :
  bind (df_getitem l col) k st
  = match frame_getitem (at_loc st l) col with
    | Ok series => k series st
    | Raise e => (Raise e, st)
    end.
Proof.
  unfold df_getitem, deref, bind, lift, at_loc.
  destruct (frame_getitem _ _); reflexivity.
Qed.

Lemma run_setitem {B : Type} (l : loc) (col : string)
    (series : list cell) (k : unit -> M B) (st : store) :
  bind (df_setitem l col series) k st
  = k tt (<[l := frame_setitem (at_loc st l) col series]> st).
Proof. reflexivity. Qed.

Lemma run_dropna {B : Type} (l : loc) (subset : list string)
    (k : loc -> M B) (st : store) :
  bind (df_dropna l subset) k st
  = match frame_dropna (at_loc st l) subset with
    | Ok f => k (List.length st) (st ++ [f])
    | Raise e => (Raise e, st)
    end.
Proof.
  unfold df_dropna, deref, alloc, bind, lift, at_loc.
  destruct (frame_dropna _ _); reflexivity.
Qed.

Lemma run_len {B : Type} (l : loc) (k : Z -> M B) (st : store) :
  bind (df_len l) k st
  = k (Z.of_nat (List.length (rows (at_loc st l)))) st.
Proof. reflexivity. Qed.

Lemma at_loc_fresh (st : store) (f : frame) :
  at_loc (st ++ [f]) (List.length st) = f.
Proof. unfold at_loc. rewrite lookup_fresh. reflexivity. Qed.

Lemma at_loc_second (st : store) (f g : frame) :
  at_loc (st ++ [f; g]) (S (List.length st)) = g.
Proof. unfold at_loc. rewrite lookup_second. reflexivity. Qed.

Lemma length_snoc (st : store) (f : frame) :
  List.length (st ++ [f]) = S (List.length st).
Proof. rewrite length_app. simpl. lia. Qed.

Lemma snoc_snoc (st : store) (f g : frame) :
  (st ++ [f]) ++ [g] = st ++ [f; g].
Proof. rewrite <- app_assoc. reflexivity. Qed.

End Store.

(** Runs the first statement of a [do] block. *)
Ltac run_step :=
  cbv beta zeta;
  lazymatch goal with
  | |- bind (bind ?m ?k1) ?k2 ?st = _ => rewrite (run_assoc m k1 k2 st)
  | |- bind (ret ?a) ?k ?st = _ => rewrite (run_ret a k st)
  | |- bind (lift ?r) ?k ?st = _ => rewrite (run_lift r k st)
  | |- bind (raise ?e) ?k ?st = _ => rewrite (run_raise e k st)
  | |- bind (deref ?l) ?k ?st = _ => rewrite (run_deref l k st)
  | |- bind (df_copy ?l) ?k ?st = _ => rewrite (run_copy l k st)
  | |- bind (df_getitem ?l ?c) ?k ?st = _ =>
      rewrite (run_getitem l c k st)
  | |- bind (df_setitem ?l ?c ?v) ?k ?st = _ =>
      rewrite (run_setitem l c v k st)
  | |- bind (df_dropna ?l ?s) ?k ?st = _ => rewrite (run_dropna l s k st)
  | |- bind (df_len ?l) ?k ?st = _ => rewrite (run_len l k st)
  end;
  cbv beta zeta.

(** ** The analyzers, statement by statement *)

Section Runs.

Context `{Libraries}.

Lemma cat_on_cat_run (l : loc) (cat_col1 cat_col2 : string)
    (alpha : float) (st : store) :
  cat_on_cat_effect_size l cat_col1 cat_col2 alpha st =
  let f := at_loc st l in
  match frame_getitem f cat_col1 with
  | Raise e => (Raise e, st)
  | Ok xs =>
      match frame_getitem f cat_col2 with
      | Raise e => (Raise e, st)
      | Ok ys =>
          let ct := crosstab xs ys in
          match chi2_contingency (values ct) with
          | Raise e => (Raise e, st)
          | Ok (chi2, p_value, dof, expected) =>
              let v := cramers_v_value chi2 ct in
              if p_value <=? alpha then
                match interpret_effect_size v "Cram√©r's V" with
                | Raise e => (Raise e, st)
                | Ok interpretation =>
                    (Ok (significant "Cram√©r's V" v interpretation
                           p_value, ct, cat_col1, cat_col2), st)
                end
              else
                (Ok (not_significant p_value alpha, ct, cat_col1,
                     cat_col2), st)
          end
      end
  end.
Proof.
  unfold cat_on_cat_effect_size.
  run_step. destruct (frame_getitem _ cat_col1); [|reflexivity].
  run_step. destruct (frame_getitem _ cat_col2); [|reflexivity].
  run_step.
  destruct (chi2_contingency _) as [[[[chi2 p] dof] expected]|];
    [|reflexivity].
  destruct (p <=? alpha); [|reflexivity].
  run_step. run_step.
  destruct (interpret_effect_size _ _); reflexivity.
Qed.

Lemma cat_on_num_run (l : loc) (cat_col num_col : string)
    (alpha : float) (st : store) :
  cat_on_num_effect_size l cat_col num_col alpha st =
  let f := at_loc st l in
  match coerce_column f num_col with
  | Raise e => (Raise e, st ++ [f])
  | Ok f1 =>
      match frame_dropna f1 [cat_col; num_col] with
      | Raise e => (Raise e, st ++ [f1])
      | Ok f2 =>
          match frame_getitem f2 cat_col with
          | Raise e => (Raise e, st ++ [f1; f2])
          | Ok cats =>
              if (nunique cats <? 2)%Z then
                (Raise (ValueError
                   "Categorical column must have at least 2 categories for comparison."),
                 st ++ [f1; f2])
              else
                match (if (nunique cats =? 2)%Z
                       then two_groups f2 cat_col num_col alpha
                       else many_groups f2 cat_col num_col alpha) with
                | Raise e => (Raise e, st ++ [f1; f2])
                | Ok result_text =>
                    (Ok (result_text, S (List.length st), cat_col,
                         num_col), st ++ [f1; f2])
                end
          end
      end
  end.
Proof.
  unfold cat_on_num_effect_size, coerce_column.
  run_step. run_step. rewrite at_loc_fresh.
  destruct (frame_getitem _ num_col); [|reflexivity].
  run_step. rewrite at_loc_fresh, insert_fresh.
  run_step. rewrite at_loc_fresh.
  destruct (frame_dropna _ _); [|reflexivity].
  rewrite length_snoc, snoc_snoc. run_step. rewrite at_loc_second.
  destruct (frame_getitem _ cat_col); [|reflexivity].
  cbv beta zeta. destruct (nunique _ <? 2)%Z; [reflexivity|].
  run_step. rewrite at_loc_second. run_step.
  destruct (nunique _ =? 2)%Z;
    [destruct (two_groups _ _ _ _) | destruct (many_groups _ _ _ _)];
    reflexivity.
Qed.

Lemma correlation_run (l : loc) (col1 col2 : string) (alpha : float)
    (st : store) :
  correlation_effect_size l col1 col2 alpha st =
  let f := at_loc st l in
  match coerce_column f col1 with
  | Raise e => (Raise e, st ++ [f])
  | Ok f1 =>
      match coerce_column f1 col2 with
      | Raise e => (Raise e, st ++ [f1])
      | Ok f2 =>
          match frame_dropna f2 [col1; col2] with
          | Raise e => (Raise e, st ++ [f2])
          | Ok f3 =>
              if (Z.of_nat (List.length (rows f3)) <? 2)%Z then
                (Raise (ValueError
                   "Not enough valid numeric data for correlation."),
                 st ++ [f2; f3])
              else
                match frame_getitem f3 col1 with
                | Raise e => (Raise e, st ++ [f2; f3])
                | Ok xs =>
                    match frame_getitem f3 col2 with
                    | Raise e => (Raise e, st ++ [f2; f3])
                    | Ok ys =>
                        let '(r, p_value) :=
                          pearsonr (map float_of_cell xs)
                            (map float_of_cell ys) in
                        if p_value <=? alpha then
                          match interpret_effect_size r "Pearson's r" with
                          | Raise e => (Raise e, st ++ [f2; f3])
                          | Ok interpretation =>
                              (Ok (significant "Pearson's r" r
                                     interpretation p_value,
                                   S (List.length st), col1, col2),
                               st ++ [f2; f3])
                          end
                        else
                          (Ok (not_significant p_value alpha,
                               S (List.length st), col1, col2),
                           st ++ [f2; f3])
                    end
                end
          end
      end
  end.
Proof.
  unfold correlation_effect_size, coerce_column.
  run_step. run_step. rewrite at_loc_fresh.
  destruct (frame_getitem _ col1); [|reflexivity].
  run_step. rewrite at_loc_fresh, insert_fresh.
  run_step. rewrite at_loc_fresh.
  destruct (frame_getitem _ col2); [|reflexivity].
  run_step. rewrite at_loc_fresh, insert_fresh.
  run_step. rewrite at_loc_fresh.
  destruct (frame_dropna _ _); [|reflexivity].
  rewrite length_snoc, snoc_snoc. run_step. rewrite at_loc_second.
  destruct (_ <? 2)%Z; [reflexivity|].
  run_step. rewrite at_loc_second.
  destruct (frame_getitem _ col1); [|reflexivity].
  run_step. rewrite at_loc_second.
  destruct (frame_getitem _ col2); [|reflexivity].
  cbv beta zeta. destruct (pearsonr _ _) as [r p].
  destruct (p <=? alpha); [|reflexivity].
  run_step. run_step.
  destruct (interpret_effect_size _ _); reflexivity.
Qed.

End Runs.

Lemma at_loc_app (st created : list frame) (l : loc) :
  (l < List.length st)%nat -> at_loc (st ++ created) l = at_loc st l.
Proof.
  intros Hl. unfold at_loc. rewrite lookup_app_l by exact Hl. reflexivity.
Qed.

(** C9.  Whatever the store, the table and the columns, and whether the
    call returns or raises, each analyzer leaves every frame object that
    existed before the call as it was: the store after the call is the
    store before it followed by the frame objects the call created (the
    copy that is coerced, and the frame [dropna] returns).  In
    particular the caller's table, the frame at [l], is unchanged. *)
Theorem analyzers_keep_caller_table `{Libraries}
    (l : loc) (col1 col2 : string) (alpha : float) (st : store) :
  let after_cat_on_cat :=
    snd (cat_on_cat_effect_size l col1 col2 alpha st) in
  let after_cat_on_num :=
    snd (cat_on_num_effect_size l col1 col2 alpha st) in
  let after_correlation :=
    snd (correlation_effect_size l col1 col2 alpha st) in
  after_cat_on_cat = st
  /\ (exists created : list frame, after_cat_on_num = st ++ created)
  /\ (exists created : list frame, after_correlation = st ++ created)
  /\ ((l < List.length st)%nat ->
      at_loc after_cat_on_cat l = at_loc st l
      /\ at_loc after_cat_on_num l = at_loc st l
      /\ at_loc after_correlation l = at_loc st l).
Proof.
  cbv zeta.
  assert (snd (cat_on_cat_effect_size l col1 col2 alpha st) = st) as Hcc.
  { rewrite cat_on_cat_run. cbv zeta.
    repeat match goal with
           | |- context [match ?x with _ => _ end] => destruct x
           end; reflexivity. }
  assert (exists created : list frame,
            snd (cat_on_num_effect_size l col1 col2 alpha st)
            = st ++ created) as [created1 Hcn].
  { rewrite cat_on_num_run. cbv zeta.
    repeat match goal with
           | |- context [match ?x with _ => _ end] => destruct x
           end; eexists; reflexivity. }
  assert (exists created : list frame,
            snd (correlation_effect_size l col1 col2 alpha st)
            = st ++ created) as [created2 Hco].
  { rewrite correlation_run. cbv zeta.
    repeat match goal with
           | |- context [match ?x with _ => _ end] => destruct x
           end; eexists; reflexivity. }
  rewrite Hcc, Hcn, Hco. repeat split; eauto using at_loc_app.
Qed.

Lemma analyzers_keep_caller_table_witness :
  let L := Fixture.libraries 1 0.01 in
  let st := [Fixture.measurements] in
  (0 < List.length st)%nat
  /\ at_loc (snd (cat_on_cat_effect_size 0 "x" "y" 0.05 st)) 0
     = Fixture.measurements
  /\ at_loc (snd (cat_on_num_effect_size 0 "x" "y" 0.05 st)) 0
     = Fixture.measurements
  /\ at_loc (snd (correlation_effect_size 0 "x" "y" 0.05 st)) 0
     = Fixture.measurements.
Proof.
  cbv zeta. split; [simpl; lia|].
  exact (proj2 (proj2 (proj2 (analyzers_keep_caller_table
                                (H := Fixture.libraries 1 0.01)
                                0 "x" "y" 0.05 [Fixture.measurements])))
           ltac:(simpl; lia)).
Defined.

(** ** The output policy *)

Section Policy.

Context `{Libraries}.

Lemma passed_kind_names (k : effect_kind) : names_kind (passed_kind k) k.
Proof. destruct k; reflexivity. Qed.

Lemma interpret_passed (k : effect_kind) (v : float) :
  exists interpretation : option string,
    interpret_effect_size v (passed_kind k) = Ok interpretation
    /\ (is_finite v = true -> exists label, interpretation = Some label).
Proof.
  destruct (interpretations_kind k)
    as (bands & Hlook & _ & _ & _ & label & Hlast).
  exists (for_bands v bands). split.
  - apply (interpret_recognized _ _ k); [apply passed_kind_names | exact Hlook].
  - intros Hfin. apply (for_bands_total v bands label Hlast Hfin).
Qed.

(** A magnitude that is infinite or a NaN is below no bound. *)
Lemma abs_ltb_not_finite (x threshold : float) :
  is_finite x = false -> (abs x <? threshold) = false.
Proof.
  intros Hnf. destruct (abs x <? threshold) eqn:Hlt; [|reflexivity].
  rewrite <- Hnf. symmetry. apply abs_ltb_infinity_finite.
  revert Hlt. rewrite !FloatAxioms.ltb_spec.
  change (Prim2SF infinity) with (S754_infinity false).
  unfold SFltb.
  destruct (Prim2SF (abs x)) as [sa|[|]| |sa ma ea]; simpl;
    try reflexivity; try (destruct sa; reflexivity).
  - destruct (Prim2SF threshold) as [sb|[|]| |[|] mb eb]; discriminate.
  - discriminate.
Qed.

Lemma for_bands_not_finite (value : float) (bands : list band) :
  is_finite value = false -> for_bands value bands = None.
Proof.
  intros Hnf. induction bands as [|[threshold interpretation] rest IH];
    simpl; [reflexivity|].
  rewrite (abs_ltb_not_finite value threshold Hnf). exact IH.
Qed.

(** For an effect size that is infinite or a NaN the interpreter returns
    no label. *)
Lemma interpret_not_finite (k : effect_kind) (v : float) :
  is_finite v = false -> interpret_effect_size v (passed_kind k) = Ok None.
Proof.
  intros Hnf.
  destruct (interpretations_kind k) as (bands & Hlook & _).
  rewrite (interpret_recognized v (passed_kind k) k bands
             (passed_kind_names k) Hlook).
  rewrite (for_bands_not_finite v bands Hnf). reflexivity.
Qed.

Lemma reported_intro (k : effect_kind) (v p alpha : float) (t : text) :
  (if p <=? alpha
   then match interpret_effect_size v (passed_kind k) with
        | Raise e => Raise e
        | Ok interpretation =>
            Ok (significant (display_name k) v interpretation p)
        end
   else Ok (not_significant p alpha)) = Ok t ->
  reported k v p alpha t.
Proof.
  unfold reported. destruct (interpret_passed k v) as (i & Hi & _).
  rewrite Hi. destruct (p <=? alpha); intros [= <-]; eauto.
Qed.

Lemma two_groups_reported (f : frame) (cat_col num_col : string)
    (alpha : float) (t : text) :
  two_groups f cat_col num_col alpha = Ok t ->
  exists v p : float, test_outcome CohensD v p /\ reported CohensD v p alpha t.
Proof.
  unfold two_groups.
  destruct (frame_getitem f cat_col) as [cats|]; [|discriminate].
  cbv zeta.
  destruct (ttest_ind _ _) as [t_stat p] eqn:Ettest.
  destruct (pooled_std_value _ _ =? 0) eqn:Epooled; [discriminate|].
  intros Hres. eexists _, p. split.
  - eapply ttest_outcome; eassumption.
  - apply (reported_intro CohensD). exact Hres.
Qed.

Lemma many_groups_reported (f : frame) (cat_col num_col : string)
    (alpha : float) (t : text) :
  many_groups f cat_col num_col alpha = Ok t ->
  exists v p : float,
    test_outcome EtaSquared v p /\ reported EtaSquared v p alpha t.
Proof.
  unfold many_groups. cbv zeta.
  destruct (p_unc _) as [p|] eqn:Ep; [|discriminate].
  destruct (np2 _) as [eta_squared|] eqn:Eeta; [|discriminate].
  intros Hres. exists eta_squared, p. split.
  - eapply anova_outcome; eassumption.
  - apply reported_intro. exact Hres.
Qed.

Lemma cat_on_cat_reported (l : loc) (col1 col2 : string) (alpha : float)
    (st st' : store) (t : text) (ct : contingency) (a b : string) :
  cat_on_cat_effect_size l col1 col2 alpha st = (Ok (t, ct, a, b), st') ->
  exists v p : float, test_outcome CramersV v p /\ reported CramersV v p alpha t.
Proof.
  rewrite cat_on_cat_run. cbv zeta.
  destruct (frame_getitem _ col1) as [xs|]; [|discriminate].
  destruct (frame_getitem _ col2) as [ys|]; [|discriminate].
  destruct (chi2_contingency _) as [[[[chi2 p] dof] expected]|] eqn:Echi;
    [|discriminate].
  intros Hres. exists (cramers_v_value chi2 (crosstab xs ys)), p. split.
  - eapply chi2_outcome. exact Echi.
  - apply reported_intro. change (passed_kind CramersV) with "Cram√©r's V".
    change (display_name CramersV) with "Cram√©r's V".
    destruct (p <=? alpha).
    + destruct (interpret_effect_size _ _); [|discriminate].
      injection Hres as <- _ _ _ _. reflexivity.
    + injection Hres as <- _ _ _ _. reflexivity.
Qed.

Lemma cat_on_num_reported (l : loc) (col1 col2 : string) (alpha : float)
    (st st' : store) (t : text) (l' : loc) (a b : string) :
  cat_on_num_effect_size l col1 col2 alpha st = (Ok (t, l', a, b), st') ->
  exists (k : effect_kind) (v p : float),
    test_outcome k v p /\ reported k v p alpha t.
Proof.
  rewrite cat_on_num_run. cbv zeta.
  destruct (coerce_column _ _); [|discriminate].
  destruct (frame_dropna _ _) as [f2|]; [|discriminate].
  destruct (frame_getitem _ _); [|discriminate].
  destruct (_ <? 2)%Z; [discriminate|].
  destruct (_ =? 2)%Z.
  - destruct (two_groups _ _ _ _) as [t'|] eqn:E; [|discriminate].
    intros [= <- _ _ _ _]. exists CohensD. eapply two_groups_reported, E.
  - destruct (many_groups _ _ _ _) as [t'|] eqn:E; [|discriminate].
    intros [= <- _ _ _ _]. exists EtaSquared. eapply many_groups_reported, E.
Qed.

Lemma correlation_reported (l : loc) (col1 col2 : string) (alpha : float)
    (st st' : store) (t : text) (l' : loc) (a b : string) :
  correlation_effect_size l col1 col2 alpha st = (Ok (t, l', a, b), st') ->
  exists v p : float,
    test_outcome PearsonsR v p /\ reported PearsonsR v p alpha t.
Proof.
  rewrite correlation_run. cbv zeta.
  destruct (coerce_column _ col1); [|discriminate].
  destruct (coerce_column _ col2); [|discriminate].
  destruct (frame_dropna _ _) as [f3|]; [|discriminate].
  destruct (_ <? 2)%Z; [discriminate|].
  destruct (frame_getitem _ col1); [|discriminate].
  destruct (frame_getitem _ col2); [|discriminate].
  destruct (pearsonr _ _) as [r p] eqn:Er.
  intros Hres. exists r, p. split.
  - eapply pearson_outcome. exact Er.
  - apply reported_intro. change (passed_kind PearsonsR) with "Pearson's r".
    change (display_name PearsonsR) with "Pearson's r".
    destruct (p <=? alpha).
    + destruct (interpret_effect_size _ _); [|discriminate].
      injection Hres as <- _ _ _ _. reflexivity.
    + injection Hres as <- _ _ _ _. reflexivity.
Qed.

Lemma run_analyzer_reported (c : analyzer_call) (st st' : store) (t : text) :
  run_analyzer c st = (Ok t, st') ->
  exists (k : effect_kind) (v p : float),
    test_outcome k v p /\ reported k v p (call_alpha c) t.
Proof.
  destruct c as [l c1 c2 alpha|l c1 c2 alpha|l c1 c2 alpha]; simpl;
    intros Hrun; apply bind_Ok in Hrun as ([[[t' x] a] b] & st1 & Hcall & Hret);
    injection Hret as <- <-.
  - exists CramersV. eapply cat_on_cat_reported, Hcall.
  - eapply cat_on_num_reported, Hcall.
  - exists PearsonsR. eapply correlation_reported, Hcall.
Qed.

End Policy.

(** C1, as stated, fails: a significant result can come without an
    interpretation label.  With the scores 0 and 1e-100 in group A and
    1e300 twice in group B the pooled standard deviation is 5e-101 and
    Cohen's d overflows to minus infinity; the t-test, whose statistic
    overflows in the same way, gives the p-value 0, and the result text
    reads "Cohen's d: -inf (None) (p = 0.000)". *)
Lemma significant_without_label :
  let L := Fixture.libraries neg_infinity 0 in
  let scores :=
    Fixture.table "Group" "Score"
      [ (Str "A", Num 0); (Str "A", Num 1e-100);
        (Str "B", Num 1e300); (Str "B", Num 1e300) ] in
  let result_text := significant "Cohen's d" neg_infinity None 0 in
  ttest_ind [0; 1e-100] [1e300; 1e300] = (neg_infinity, 0)
  /\ (0 <=? 0.05) = true
  /\ fst (cat_on_num_effect_size 0 "Group" "Score" 0.05 [scores])
     = Ok (result_text, 2%nat, "Group", "Score")
  /\ surfaced_floats result_text = [neg_infinity; 0]
  /\ surfaced_labels result_text = [None].
Proof. vm_compute. repeat split. Qed.

(** C1, amended.  Whenever an analyzer (any of the three, with any
    alpha) returns, its result text is decided by the test
    [p_value <= alpha] on the p-value the library computed.  When
    [p_value <= alpha] holds, the boundary [p_value = alpha] included,
    the text carries the effect size, the interpretation
    [interpret_effect_size] gives it and the p-value; the interpretation
    is a label when the effect size is a finite number and is missing
    when it is infinite or a NaN.  When [p_value > alpha] it is the "not
    statistically significant" text, which carries the p-value and alpha
    and nothing else. *)
Theorem significance_policy `{Libraries}
    (c : analyzer_call) (st st' : store) (result_text : text) :
  run_analyzer c st = (Ok result_text, st') ->
  exists (k : effect_kind) (effect_size p_value : float)
         (interpretation : option string),
    test_outcome k effect_size p_value
    /\ interpret_effect_size effect_size (passed_kind k) = Ok interpretation
    /\ (is_finite effect_size = true ->
        exists label : string, interpretation = Some label)
    /\ (is_finite effect_size = false -> interpretation = None)
    /\ result_text
       = (if p_value <=? call_alpha c
          then significant (display_name k) effect_size interpretation
                 p_value
          else not_significant p_value (call_alpha c))
    /\ ((p_value <=? call_alpha c) = true ->
        result_text
        = significant (display_name k) effect_size interpretation p_value
        /\ surfaced_floats result_text = [effect_size; p_value]
        /\ surfaced_labels result_text = [interpretation])
    /\ ((p_value =? call_alpha c) = true ->
        result_text
        = significant (display_name k) effect_size interpretation p_value)
    /\ ((call_alpha c <? p_value) = true ->
        result_text = not_significant p_value (call_alpha c)
        /\ surfaced_floats result_text = [p_value; call_alpha c]
        /\ surfaced_labels result_text = []).
Proof.
  intros Hrun.
  destruct (run_analyzer_reported c st st' result_text Hrun)
    as (k & v & p & Hout & i & Hi & Htext).
  exists k, v, p, i.
  destruct (interpret_passed k v) as (i' & Hi' & Hlabel).
  assert (i' = i) as -> by congruence.
  split; [exact Hout|]. split; [exact Hi'|]. split; [exact Hlabel|].
  split.
  { intros Hnf. rewrite (interpret_not_finite k v Hnf) in Hi'. congruence. }
  split; [exact Htext|]. split; [|split].
  - intros Hle. rewrite Hle in Htext. subst result_text. repeat split.
  - intros Heq. rewrite (eqb_leb _ _ Heq) in Htext. exact Htext.
  - intros Hlt. rewrite (ltb_not_leb _ _ Hlt) in Htext. subst result_text.
    repeat split.
Qed.

Lemma significance_policy_witness :
  let L := Fixture.libraries 1 0.05 in
  let c := CallCorrelation 0 "x" "y" 0.05 in
  let st := [Fixture.measurements] in
  let result_text :=
    significant "Pearson's r" 1 (Some "perfect correlation") 0.05 in
  run_analyzer c st = (Ok result_text, snd (run_analyzer c st))
  /\ exists (k : effect_kind) (effect_size p_value : float)
            (interpretation : option string),
       test_outcome k effect_size p_value
       /\ interpret_effect_size effect_size (passed_kind k)
          = Ok interpretation
       /\ (is_finite effect_size = true ->
           exists label : string, interpretation = Some label)
       /\ (is_finite effect_size = false -> interpretation = None)
       /\ result_text
          = (if p_value <=? call_alpha c
             then significant (display_name k) effect_size interpretation
                    p_value
             else not_significant p_value (call_alpha c))
       /\ ((p_value <=? call_alpha c) = true ->
           result_text
           = significant (display_name k) effect_size interpretation
               p_value
           /\ surfaced_floats result_text = [effect_size; p_value]
           /\ surfaced_labels result_text = [interpretation])
       /\ ((p_value =? call_alpha c) = true ->
           result_text
           = significant (display_name k) effect_size interpretation
               p_value)
       /\ ((call_alpha c <? p_value) = true ->
           result_text = not_significant p_value (call_alpha c)
           /\ surfaced_floats result_text = [p_value; call_alpha c]
           /\ surfaced_labels result_text = []).
Proof.
  cbv zeta.
  assert (run_analyzer (H := Fixture.libraries 1 0.05)
            (CallCorrelation 0 "x" "y" 0.05) [Fixture.measurements]
          = (Ok (significant "Pearson's r" 1 (Some "perfect correlation")
                   0.05),
             snd (run_analyzer (H := Fixture.libraries 1 0.05)
                    (CallCorrelation 0 "x" "y" 0.05)
                    [Fixture.measurements]))) as Hrun.
  { apply (injective_projections _ _); [vm_compute; reflexivity|reflexivity]. }
  split; [exact Hrun|].
  exact (significance_policy (H := Fixture.libraries 1 0.05) _ _ _ _ Hrun).
Defined.

(** ** Counting in the cross-tabulation *)

Section Counting.

Lemma SFeqb_sym (a b : spec_float) : SFeqb a b = SFeqb b a.
Proof.
  unfold SFeqb.
  destruct a as [sa|sa| |sa ma ea], b as [sb|sb| |sb mb eb]; simpl;
    try reflexivity; try (destruct sa, sb; reflexivity);
    try (destruct sa; reflexivity); try (destruct sb; reflexivity).
  change (PosDef.Pos.compare_cont Eq) with Pos.compare.
  rewrite (Z.compare_antisym ea eb), (Pos.compare_antisym ma mb).
  destruct sa, sb; try reflexivity;
    destruct (ea ?= eb)%Z; simpl; try reflexivity;
    destruct (ma ?= mb)%positive; reflexivity.
Qed.

Lemma SFeqb_trans (a b c : spec_float) :
  SFeqb a b = true -> SFeqb b c = true -> SFeqb a c = true.
Proof.
  unfold SFeqb.
  destruct a as [sa|sa| |sa ma ea], b as [sb|sb| |sb mb eb],
           c as [sc|sc| |sc mc ec]; simpl;
    repeat match goal with s : bool |- _ => destruct s end;
    simpl; try discriminate; try reflexivity.
  all: change (PosDef.Pos.compare_cont Eq) with Pos.compare.
  all: destruct (Z.compare_spec ea eb), (Z.compare_spec eb ec),
         (Z.compare_spec ea ec); subst; try lia; try discriminate;
       try reflexivity.
  all: destruct (Pos.compare_spec ma mb), (Pos.compare_spec mb mc),
         (Pos.compare_spec ma mc); subst; simpl; try lia;
       try discriminate; try reflexivity.
Qed.

Lemma cell_eqb_sym (a b : cell) : cell_eqb a b = cell_eqb b a.
Proof.
  destruct a, b; simpl; try reflexivity.
  - apply String.eqb_sym.
  - rewrite !FloatAxioms.eqb_spec. apply SFeqb_sym.
Qed.

Lemma cell_eqb_trans (a b c : cell) :
  cell_eqb a b = true -> cell_eqb b c = true -> cell_eqb a c = true.
Proof.
  destruct a, b, c; simpl; try discriminate.
  - intros ->%String.eqb_eq ->%String.eqb_eq. apply String.eqb_refl.
  - rewrite !FloatAxioms.eqb_spec. apply SFeqb_trans.
Qed.

Lemma cell_eqb_refl (a : cell) : notna a = true -> cell_eqb a a = true.
Proof.
  destruct a; simpl; try discriminate.
  - intros _. apply String.eqb_refl.
  - unfold notna, isna, is_nan. rewrite negb_involutive. tauto.
Qed.

Lemma existsb_trans (x c : cell) (seen : list cell) :
  cell_eqb x c = true ->
  existsb (cell_eqb c) seen = existsb (cell_eqb x) seen.
Proof.
  intros Hxc. induction seen as [|s seen IH]; simpl; [reflexivity|].
  rewrite IH. f_equal.
  destruct (cell_eqb c s) eqn:Ecs.
  - symmetry. exact (cell_eqb_trans _ _ _ Hxc Ecs).
  - destruct (cell_eqb x s) eqn:Exs; [|reflexivity].
    rewrite cell_eqb_sym in Hxc.
    rewrite (cell_eqb_trans _ _ _ Hxc Exs) in Ecs. discriminate.
Qed.

Lemma occurrences_cons (x c : cell) (l : list cell) :
  occurrences x (c :: l)
  = ((if cell_eqb x c then 1 else 0) + occurrences x l)%Z.
Proof.
  unfold occurrences. simpl. destruct (cell_eqb x c); simpl; lia.
Qed.

Lemma occurrences_insert_sorted (x c : cell) (l : list cell) :
  occurrences x (insert_sorted c l) = occurrences x (c :: l).
Proof.
  induction l as [|d l IH]; simpl; [reflexivity|].
  destruct (cell_ltb d c); [|reflexivity].
  rewrite (occurrences_cons x d (insert_sorted c l)), IH.
  rewrite !occurrences_cons. lia.
Qed.

Lemma occurrences_sort (x : cell) (l : list cell) :
  occurrences x (sort_cells l) = occurrences x l.
Proof.
  induction l as [|c l IH]; simpl; [reflexivity|].
  rewrite occurrences_insert_sorted, !occurrences_cons, IH. reflexivity.
Qed.

Lemma occurrences_unique_from (x : cell) (seen values : list cell) :
  occurrences x (unique_from seen values)
  = if existsb (cell_eqb x) seen then 0%Z
    else if existsb (cell_eqb x) values then 1%Z else 0%Z.
Proof.
  revert seen. induction values as [|c values IH]; intros seen; simpl.
  - destruct (existsb _ seen); reflexivity.
  - destruct (existsb (cell_eqb c) seen) eqn:Ecs.
    + rewrite IH. destruct (existsb (cell_eqb x) seen) eqn:Exs;
        [reflexivity|].
      destruct (cell_eqb x c) eqn:Exc; [|reflexivity].
      rewrite (existsb_trans x c seen Exc) in Ecs. congruence.
    + rewrite occurrences_cons, IH. simpl.
      destruct (cell_eqb x c) eqn:Exc; simpl.
      * rewrite <- (existsb_trans x c seen Exc), Ecs. reflexivity.
      * destruct (existsb (cell_eqb x) seen); reflexivity.
Qed.

(** A value of the list is equal to exactly one of its sorted distinct
    values. *)
Lemma occurrences_labels (x : cell) (values : list cell) :
  In x values -> notna x = true ->
  occurrences x (sort_cells (unique values)) = 1%Z.
Proof.
  intros Hin Hx. rewrite occurrences_sort. unfold unique.
  rewrite occurrences_unique_from. simpl.
  assert (existsb (cell_eqb x) values = true) as ->; [|reflexivity].
  apply existsb_exists. exists x. split; [exact Hin|].
  apply cell_eqb_refl, Hx.
Qed.

Lemma sumZ_add {A : Type} (f g : A -> Z) (l : list A) :
  sumZ (map (fun a => f a + g a)%Z l)
  = (sumZ (map f l) + sumZ (map g l))%Z.
Proof.
  induction l as [|a l IH]; simpl; [reflexivity|]. rewrite IH. lia.
Qed.

Lemma sumZ_zero {A : Type} (l : list A) :
  sumZ (map (fun _ => 0%Z) l) = 0%Z.
Proof. induction l as [|a l IH]; simpl; [reflexivity|]. exact IH. Qed.

Lemma sumZ_indicator (x : cell) (scale : Z) (l : list cell) :
  sumZ (map (fun a => if cell_eqb x a then scale else 0%Z) l)
  = (occurrences x l * scale)%Z.
Proof.
  induction l as [|a l IH]; simpl; [reflexivity|].
  rewrite occurrences_cons, IH. destruct (cell_eqb x a); lia.
Qed.

Lemma count_pairs_cons (p : cell * cell) (pairs : list (cell * cell))
    (a b : cell) :
  count_pairs (p :: pairs) a b
  = ((if cell_eqb (fst p) a
      then if cell_eqb (snd p) b then 1 else 0
      else 0) + count_pairs pairs a b)%Z.
Proof.
  unfold count_pairs. simpl.
  destruct (cell_eqb (fst p) a), (cell_eqb (snd p) b); simpl; lia.
Qed.

(** Every observation is counted in exactly one cell of the table. *)
Lemma sum_counts (rows_ cols_ : list cell) (pairs : list (cell * cell)) :
  (forall p, In p pairs ->
     occurrences (fst p) rows_ = 1%Z /\ occurrences (snd p) cols_ = 1%Z) ->
  sumZ (map (fun a => sumZ (map (count_pairs pairs a) cols_)) rows_)
  = Z.of_nat (List.length pairs).
Proof.
  induction pairs as [|p pairs IH]; intros Hone.
  - rewrite (map_ext _ (fun _ => 0%Z)); [apply sumZ_zero|].
    intros a. exact (sumZ_zero cols_).
  - rewrite (map_ext _
      (fun a =>
         (if cell_eqb (fst p) a then occurrences (snd p) cols_ * 1 else 0)
         + sumZ (map (count_pairs pairs a) cols_))%Z).
    + rewrite sumZ_add, sumZ_indicator, IH by (intros; apply Hone; simpl; auto).
      destruct (Hone p ltac:(simpl; auto)) as [-> ->].
      simpl List.length. lia.
    + intros a.
      rewrite (map_ext _ (fun b =>
        (if cell_eqb (fst p) a
         then if cell_eqb (snd p) b then 1 else 0
         else 0) + count_pairs pairs a b)%Z)
        by (intros; apply count_pairs_cons).
      rewrite sumZ_add. f_equal.
      destruct (cell_eqb (fst p) a).
      * apply sumZ_indicator.
      * apply sumZ_zero.
Qed.

(** The counts of a cross-tabulation add up to the number of complete
    observations. *)
Lemma crosstab_total (xs ys : list cell) :
  values_sum (crosstab xs ys)
  = Z.of_nat (List.length (complete_pairs xs ys)).
Proof.
  unfold values_sum, crosstab. simpl values. rewrite map_map.
  apply sum_counts. intros p Hp.
  assert (notna (fst p) = true /\ notna (snd p) = true) as [Hfst Hsnd].
  { unfold complete_pairs in Hp. apply filter_In in Hp as [_ Hp].
    apply andb_true_iff in Hp. exact Hp. }
  split; apply occurrences_labels; try assumption;
    apply in_map; exact Hp.
Qed.

End Counting.

(** ** Cramér's V *)

Section Cramer.

Context `{Libraries}.

Lemma length_insert_sorted (c : cell) (l : list cell) :
  List.length (insert_sorted c l) = S (List.length l).
Proof.
  induction l as [|d l IH]; simpl; [reflexivity|].
  destruct (cell_ltb d c); simpl; [rewrite IH|]; reflexivity.
Qed.

Lemma length_sort_cells (l : list cell) :
  List.length (sort_cells l) = List.length l.
Proof.
  induction l as [|c l IH]; simpl; [reflexivity|].
  rewrite length_insert_sorted, IH. reflexivity.
Qed.

Lemma cramers_denom_spec (r k : Z) :
  cramers_denom r k = spec_denom r k /\ (1 <= spec_denom r k)%Z.
Proof.
  unfold cramers_denom, spec_denom. cbv zeta.
  rewrite (Z.min_comm (k - 1) (r - 1)).
  destruct (Z.gtb_spec (Z.min (r - 1) (k - 1)) 0),
           (Z.leb_spec (Z.min (r - 1) (k - 1)) 0); lia.
Qed.

End Cramer.

(** C2.  When the categorical-categorical analyzer returns, its table is
    the cross-tabulation of the two columns, with [r] rows and [k]
    columns for the [r] distinct values of column A and the [k] distinct
    values of column B; with [chi2] the statistic of the chi-square test
    on that table and [n] the sum of its counts (the number of
    observations with both values present), the analyzer's [denom] is
    [min(r-1, k-1)] replaced by 1 when that minimum is <= 0 (so it is at
    least 1), [phi2 = chi2 / n], and the effect size is
    [sqrt(phi2 / denom)]: the value the result text shows when the test
    is significant. *)
Theorem cramers_v_as_specified `{Libraries}
    (l : loc) (cat_col1 cat_col2 : string) (alpha : float)
    (st st' : store) (result_text : text) (ct : contingency)
    (a b : string) :
  cat_on_cat_effect_size l cat_col1 cat_col2 alpha st
  = (Ok (result_text, ct, a, b), st') ->
  exists (xs ys : list cell) (chi2 p_value : float) (dof : Z)
         (expected : list (list float)),
    frame_getitem (at_loc st l) cat_col1 = Ok xs
    /\ frame_getitem (at_loc st l) cat_col2 = Ok ys
    /\ ct = crosstab xs ys
    /\ chi2_contingency (values ct) = Ok (chi2, p_value, dof, expected)
    /\ let observed := complete_pairs xs ys in
       let r := Z.of_nat (List.length (unique (map fst observed))) in
       let k := Z.of_nat (List.length (unique (map snd observed))) in
       let n := values_sum ct in
       let denom := spec_denom r k in
       let phi2 := chi2 / float_of_Z n in
       let v := PrimFloat.sqrt (phi2 / float_of_Z denom) in
       shape ct = (r, k)
       /\ n = Z.of_nat (List.length observed)
       /\ cramers_denom r k = denom
       /\ (1 <= denom)%Z
       /\ cramers_v_value chi2 ct = v
       /\ reported CramersV v p_value alpha result_text.
Proof.
  rewrite cat_on_cat_run. cbv zeta.
  destruct (frame_getitem _ cat_col1) as [xs|]; [|discriminate].
  destruct (frame_getitem _ cat_col2) as [ys|]; [|discriminate].
  destruct (chi2_contingency _) as [[[[chi2 p] dof] expected]|] eqn:Echi;
    [|discriminate].
  intros Hres. exists xs, ys, chi2, p, dof, expected.
  assert (ct = crosstab xs ys) as ->.
  { destruct (p <=? alpha); [destruct (interpret_effect_size _ _)|];
      congruence. }
  assert (shape (crosstab xs ys)
          = (Z.of_nat (List.length
                         (unique (map fst (complete_pairs xs ys)))),
             Z.of_nat (List.length
                         (unique (map snd (complete_pairs xs ys))))))
    as Hshape.
  { unfold shape, crosstab. simpl. rewrite !length_sort_cells.
    reflexivity. }
  repeat split; auto; try apply cramers_denom_spec.
  - apply crosstab_total.
  - unfold cramers_v_value. rewrite Hshape.
    rewrite (proj1 (cramers_denom_spec _ _)). reflexivity.
  - apply reported_intro.
    replace (PrimFloat.sqrt _) with (cramers_v_value chi2 (crosstab xs ys)).
    + destruct (p <=? alpha).
      * change (passed_kind CramersV) with "Cram√©r's V".
        destruct (interpret_effect_size _ _); [|discriminate].
        injection Hres as <- _. reflexivity.
      * injection Hres as <- _. reflexivity.
    + unfold cramers_v_value. rewrite Hshape.
      rewrite (proj1 (cramers_denom_spec _ _)). reflexivity.
Qed.

Lemma cramers_v_as_specified_witness :
  let L := Fixture.libraries 2.5 0.01 in
  let run :=
    cat_on_cat_effect_size 0 "Group" "Outcome" 0.05 [Fixture.outcomes] in
  let result_text :=
    significant "Cram√©r's V" (PrimFloat.sqrt (2.5 / 6 / 1))
      (Some "very large effect size") 0.01 in
  let ct :=
    {| index := [Str "A"; Str "B"];
       labels := [Str "No"; Str "Yes"];
       values := [[1%Z; 2%Z]; [2%Z; 1%Z]] |} in
  run = (Ok (result_text, ct, "Group", "Outcome"), snd run)
  /\ exists (xs ys : list cell) (chi2 p_value : float) (dof : Z)
            (expected : list (list float)),
       frame_getitem (at_loc [Fixture.outcomes] 0) "Group" = Ok xs
       /\ frame_getitem (at_loc [Fixture.outcomes] 0) "Outcome" = Ok ys
       /\ ct = crosstab xs ys
       /\ chi2_contingency (values ct) = Ok (chi2, p_value, dof, expected)
       /\ let observed := complete_pairs xs ys in
          let r := Z.of_nat (List.length (unique (map fst observed))) in
          let k := Z.of_nat (List.length (unique (map snd observed))) in
          let n := values_sum ct in
          let denom := spec_denom r k in
          let phi2 := chi2 / float_of_Z n in
          let v := PrimFloat.sqrt (phi2 / float_of_Z denom) in
          shape ct = (r, k)
          /\ n = Z.of_nat (List.length observed)
          /\ cramers_denom r k = denom
          /\ (1 <= denom)%Z
          /\ cramers_v_value chi2 ct = v
          /\ reported CramersV v p_value 0.05 result_text.
Proof.
  cbv zeta.
  match goal with
  | |- ?run = (?a, _) /\ _ =>
      assert (run = (a, snd run)) as Hrun
        by (apply (injective_projections _ _);
            [vm_compute; reflexivity|reflexivity])
  end.
  split; [exact Hrun|].
  exact (cramers_v_as_specified (H := Fixture.libraries 2.5 0.01)
           _ _ _ _ _ _ _ _ _ _ Hrun).
Defined.

(** ** Pearson's statistic in exact arithmetic *)

Section ExactStatistic.

Import Pearson.



Lemma IZR_sumZ (l : list Z) : IZR (sumZ l) = sumR (map IZR l).
Proof.
  induction l as [|z l IH]; simpl; [reflexivity|].
  rewrite plus_IZR, IH. reflexivity.
Qed.

(** *** One cell *)







(** *** The marginal sums *)













(** *** One row and the whole table *)





Section Rows.

Variables (correction : bool) (n : Z).
Hypothesis Hn : (0 < n)%Z.




End Rows.



End ExactStatistic.

(** *** The cross-tabulation is a valid table *)

Section CrosstabValid.

Import Pearson.
















End CrosstabValid.

(** *** The square root in binary64 *)


(** *** Cramér's V *)




(** On the table of [Pearson.answers] the statistic is 75 in exact
    arithmetic: n * denom, the largest value a table of 75
    observations in 2 rows allows. *)
Lemma exact_statistic_answers :
  Pearson.statistic exact [[26; 44; 0]; [0; 0; 5]]%Z = 75%R.
Proof.
  unfold Pearson.statistic.
  change (Pearson.dof [[26; 44; 0]; [0; 0; 5]]%Z) with 2%Z.
  change (Pearson.column_totals [[26; 44; 0]; [0; 0; 5]]%Z)
    with [26; 44; 5]%Z.
  change (Pearson.grand_total [[26; 44; 0]; [0; 0; 5]]%Z) with 75%Z.
  cbn -[IZR Rdiv Rmult Rminus Rplus].
  unfold Pearson.term, Pearson.expected_cell.
  cbn -[IZR Rdiv Rmult Rminus Rplus].
  change (26 + (44 + (0 + 0)))%Z with 70%Z.
  change (0 + (0 + (5 + 0)))%Z with 5%Z.
  lra.
Qed.

(** In binary64 the six terms of that table add up to more than 75 in
    whatever order they are added, and Cramér's V is above 1 in every
    order: the excess comes from the rounding of the terms, not from
    the order of the sum. *)
Lemma cramers_v_above_one_in_any_order :
  let observed := [[26; 44; 0]; [0; 0; 5]]%Z in
  let ct :=
    crosstab (map fst Pearson.answer_pairs) (map snd Pearson.answer_pairs) in
  let terms :=
    concat (map (Pearson.row_terms binary64 false
                   (Pearson.column_totals observed)
                   (Pearson.grand_total observed))
              observed) in
  values ct = observed
  /\ List.length (permutations terms) = 720%nat
  /\ forallb (fun order =>
                1 <? cramers_v_value (fold_left PrimFloat.add order 0) ct)
       (permutations terms) = true.
Proof. vm_compute. repeat split. Qed.


(** ** The significance threshold at dispatch *)

(** C7, as stated, fails: the text "2" is read as the alpha 2.0, which is
    outside (0, 1), and the correlation analyzer is called with it. *)
Lemma out_of_range_alpha_dispatched :
  ~ (forall (L : Libraries) (w : window) (call : analyzer_call),
       dispatch w = inr call ->
       in_open_unit_interval (call_alpha call) = true).
Proof.
  intros Hclaim.
  specialize (Hclaim (Fixture.libraries 1 0.01)
                (Window (Some 0%nat) "2" "Numerical Correlation" "x" "y")
                (CallCorrelation 0 "x" "y" 2) eq_refl).
  vm_compute in Hclaim. discriminate.
Qed.

Section AlphaOnlyCompared.

Context `{Libraries}.

Lemma same_outcome_intro (k : effect_kind) (v p alpha alpha' : float)
    (i : option string) :
  test_outcome k v p ->
  interpret_effect_size v (passed_kind k) = Ok i ->
  same_outcome alpha alpha'
    (if p <=? alpha then significant (display_name k) v i p
     else not_significant p alpha)
    (if p <=? alpha' then significant (display_name k) v i p
     else not_significant p alpha').
Proof.
  intros Hout Hi. exists k, v, p. split; [exact Hout|].
  split; exists i; (split; [exact Hi|reflexivity]).
Qed.

Lemma cat_on_cat_alpha (l : loc) (col1 col2 : string)
    (alpha alpha' : float) (st : store) :
  snd (cat_on_cat_effect_size l col1 col2 alpha' st)
  = snd (cat_on_cat_effect_size l col1 col2 alpha st)
  /\ match fst (cat_on_cat_effect_size l col1 col2 alpha st),
           fst (cat_on_cat_effect_size l col1 col2 alpha' st) with
     | Raise e, Raise e' => e = e'
     | Ok (t, ct, a, b), Ok (t', ct', a', b') =>
         ct' = ct /\ a' = a /\ b' = b /\ same_outcome alpha alpha' t t'
     | _, _ => False
     end.
Proof.
  rewrite !cat_on_cat_run. cbv zeta.
  destruct (frame_getitem _ col1) as [xs|]; [|simpl; auto].
  destruct (frame_getitem _ col2) as [ys|]; [|simpl; auto].
  destruct (chi2_contingency _) as [[[[chi2 p] dof] expected]|] eqn:Echi;
    [|simpl; auto].
  pose proof (chi2_outcome _ _ _ _ _ Echi) as Hout.
  destruct (interpret_passed CramersV (cramers_v_value chi2 (crosstab xs ys)))
    as (i & Hi & _).
  pose proof (same_outcome_intro CramersV _ p alpha alpha' i Hout Hi) as Hsame.
  simpl in Hi, Hsame. rewrite Hi.
  destruct (p <=? alpha), (p <=? alpha'); simpl; auto.
Qed.

Lemma two_groups_alpha (f : frame) (cat_col num_col : string)
    (alpha alpha' : float) :
  match two_groups f cat_col num_col alpha,
        two_groups f cat_col num_col alpha' with
  | Raise e, Raise e' => e = e'
  | Ok t, Ok t' => same_outcome alpha alpha' t t'
  | _, _ => False
  end.
Proof.
  unfold two_groups.
  destruct (frame_getitem f cat_col) as [cats|]; [|reflexivity].
  cbv zeta. destruct (ttest_ind _ _) as [t_stat p] eqn:Ettest.
  destruct (pooled_std_value _ _ =? 0) eqn:Epooled; [reflexivity|].
  pose proof (ttest_outcome _ _ _ _ Ettest Epooled) as Hout.
  destruct (interpret_passed CohensD
              (cohen_d
                 (group_values f cat_col (nth 0 (unique cats) NoneCell)
                    num_col)
                 (group_values f cat_col (nth 1 (unique cats) NoneCell)
                    num_col)
                 (pooled_std_value
                    (group_values f cat_col (nth 0 (unique cats) NoneCell)
                       num_col)
                    (group_values f cat_col (nth 1 (unique cats) NoneCell)
                       num_col)))) as (i & Hi & _).
  pose proof (same_outcome_intro CohensD _ p alpha alpha' i Hout Hi) as Hsame.
  simpl in Hi, Hsame. rewrite Hi.
  destruct (p <=? alpha), (p <=? alpha'); exact Hsame.
Qed.

Lemma many_groups_alpha (f : frame) (cat_col num_col : string)
    (alpha alpha' : float) :
  match many_groups f cat_col num_col alpha,
        many_groups f cat_col num_col alpha' with
  | Raise e, Raise e' => e = e'
  | Ok t, Ok t' => same_outcome alpha alpha' t t'
  | _, _ => False
  end.
Proof.
  unfold many_groups. cbv zeta.
  destruct (p_unc _) as [p|] eqn:Ep; [|reflexivity].
  destruct (np2 _) as [eta_squared|] eqn:Eeta; [|reflexivity].
  pose proof (anova_outcome _ _ _ Ep Eeta) as Hout.
  destruct (interpret_passed EtaSquared eta_squared) as (i & Hi & _).
  pose proof (same_outcome_intro EtaSquared _ p alpha alpha' i Hout Hi)
    as Hsame.
  simpl in Hi, Hsame. rewrite Hi.
  destruct (p <=? alpha), (p <=? alpha'); exact Hsame.
Qed.

Lemma cat_on_num_alpha (l : loc) (col1 col2 : string)
    (alpha alpha' : float) (st : store) :
  snd (cat_on_num_effect_size l col1 col2 alpha' st)
  = snd (cat_on_num_effect_size l col1 col2 alpha st)
  /\ match fst (cat_on_num_effect_size l col1 col2 alpha st),
           fst (cat_on_num_effect_size l col1 col2 alpha' st) with
     | Raise e, Raise e' => e = e'
     | Ok (t, l1, a, b), Ok (t', l1', a', b') =>
         l1' = l1 /\ a' = a /\ b' = b /\ same_outcome alpha alpha' t t'
     | _, _ => False
     end.
Proof.
  rewrite !cat_on_num_run. cbv zeta.
  destruct (coerce_column _ col2) as [f1|]; [|simpl; auto].
  destruct (frame_dropna _ _) as [f2|]; [|simpl; auto].
  destruct (frame_getitem f2 col1) as [cats|]; [|simpl; auto].
  destruct (_ <? 2)%Z; [simpl; auto|].
  destruct (_ =? 2)%Z.
  - pose proof (two_groups_alpha f2 col1 col2 alpha alpha') as Hboth.
    destruct (two_groups f2 col1 col2 alpha),
             (two_groups f2 col1 col2 alpha'); simpl; auto.
  - pose proof (many_groups_alpha f2 col1 col2 alpha alpha') as Hboth.
    destruct (many_groups f2 col1 col2 alpha),
             (many_groups f2 col1 col2 alpha'); simpl; auto.
Qed.

Lemma correlation_alpha (l : loc) (col1 col2 : string)
    (alpha alpha' : float) (st : store) :
  snd (correlation_effect_size l col1 col2 alpha' st)
  = snd (correlation_effect_size l col1 col2 alpha st)
  /\ match fst (correlation_effect_size l col1 col2 alpha st),
           fst (correlation_effect_size l col1 col2 alpha' st) with
     | Raise e, Raise e' => e = e'
     | Ok (t, l1, a, b), Ok (t', l1', a', b') =>
         l1' = l1 /\ a' = a /\ b' = b /\ same_outcome alpha alpha' t t'
     | _, _ => False
     end.
Proof.
  rewrite !correlation_run. cbv zeta.
  destruct (coerce_column _ col1) as [f1|]; [|simpl; auto].
  destruct (coerce_column f1 col2) as [f2|]; [|simpl; auto].
  destruct (frame_dropna _ _) as [f3|]; [|simpl; auto].
  destruct (_ <? 2)%Z; [simpl; auto|].
  destruct (frame_getitem f3 col1) as [xs|]; [|simpl; auto].
  destruct (frame_getitem f3 col2) as [ys|]; [|simpl; auto].
  destruct (pearsonr _ _) as [r p] eqn:Er.
  pose proof (pearson_outcome _ _ _ _ Er) as Hout.
  destruct (interpret_passed PearsonsR r) as (i & Hi & _).
  pose proof (same_outcome_intro PearsonsR _ p alpha alpha' i Hout Hi)
    as Hsame.
  simpl in Hi, Hsame. rewrite Hi.
  destruct (p <=? alpha), (p <=? alpha'); simpl; auto.
Qed.

Lemma select_with_alpha (effect_type : string) (l : loc)
    (col1 col2 : string) (alpha alpha' : float) :
  with_alpha alpha' (select_analyzer effect_type l col1 col2 alpha)
  = select_analyzer effect_type l col1 col2 alpha'.
Proof.
  unfold select_analyzer.
  destruct (String.eqb _ "Categorical on Categorical");
    [|destruct (String.eqb _ "Categorical on Numerical")]; reflexivity.
Qed.

(** Alpha enters an analyzer only in the comparison with the p-value:
    whether the call returns or raises, what it raises and the store it
    leaves are the same for every alpha. *)
Lemma run_analyzer_alpha (c : analyzer_call) (alpha' : float) (st : store) :
  snd (run_analyzer (with_alpha alpha' c) st) = snd (run_analyzer c st)
  /\ match fst (run_analyzer c st),
           fst (run_analyzer (with_alpha alpha' c) st) with
     | Raise e, Raise e' => e = e'
     | Ok t, Ok t' => same_outcome (call_alpha c) alpha' t t'
     | _, _ => False
     end.
Proof.
  destruct c as [l c1 c2 alpha|l c1 c2 alpha|l c1 c2 alpha];
    unfold run_analyzer, with_alpha, call_alpha, bind.
  - destruct (cat_on_cat_alpha l c1 c2 alpha alpha' st) as [Hst Hres].
    destruct (cat_on_cat_effect_size l c1 c2 alpha st)
      as [[[[[t x] a] b]|e] st1],
      (cat_on_cat_effect_size l c1 c2 alpha' st)
      as [[[[[t' x'] a'] b']|e'] st1']; simpl in *; tauto.
  - destruct (cat_on_num_alpha l c1 c2 alpha alpha' st) as [Hst Hres].
    destruct (cat_on_num_effect_size l c1 c2 alpha st)
      as [[[[[t x] a] b]|e] st1],
      (cat_on_num_effect_size l c1 c2 alpha' st)
      as [[[[[t' x'] a'] b']|e'] st1']; simpl in *; tauto.
  - destruct (correlation_alpha l c1 c2 alpha alpha' st) as [Hst Hres].
    destruct (correlation_effect_size l c1 c2 alpha st)
      as [[[[[t x] a] b]|e] st1],
      (correlation_effect_size l c1 c2 alpha' st)
      as [[[[[t' x'] a'] b']|e'] st1']; simpl in *; tauto.
Qed.

End AlphaOnlyCompared.

(** C7, amended.  With a dataset loaded, the alpha entry is rejected
    before dispatch exactly when its text is not a number.  A text that
    reads as a number, inside (0, 1) or not, is passed unchanged as the
    alpha of the analyzer the effect type selects, once the two selected
    columns differ, and what the window shows is the outcome of that
    call.  The analyzers do not check the range of alpha either: for
    every other alpha the same call returns or raises in the same way,
    with the same exception and the same store, and a returned text
    reports the same test outcome, alpha deciding only between its two
    forms. *)
Theorem numeric_alpha_dispatched `{Libraries} (w : window) (table : loc) :
  df w = Some table ->
  (py_float (alpha_entry w) = None ->
   dispatch w
   = inl (CriticalBox "Significance (Œ±) must be a numeric value."))
  /\ (forall alpha : float,
        py_float (alpha_entry w) = Some alpha ->
        String.eqb (col1_menu w) (col2_menu w) = false ->
        let call :=
          select_analyzer (effect_type_menu w) table (col1_menu w)
            (col2_menu w) alpha in
        dispatch w = inr call
        /\ call_alpha call = alpha
        /\ (forall st : store,
              calculate_effect_size w st
              = match run_analyzer call st with
                | (Ok result_text, st') =>
                    (Ok (ResultLabel result_text), st')
                | (Raise e, st') => (Ok (ExceptionBox e), st')
                end)
        /\ (forall (alpha' : float) (st : store),
              let call' :=
                select_analyzer (effect_type_menu w) table (col1_menu w)
                  (col2_menu w) alpha' in
              snd (run_analyzer call' st) = snd (run_analyzer call st)
              /\ match fst (run_analyzer call st),
                       fst (run_analyzer call' st) with
                 | Raise e, Raise e' => e = e'
                 | Ok t, Ok t' => same_outcome alpha alpha' t t'
                 | _, _ => False
                 end)).
Proof.
  intros Hdf. unfold calculate_effect_size, dispatch. rewrite Hdf. split.
  - intros ->. reflexivity.
  - intros alpha -> ->. cbv zeta.
    assert (call_alpha
              (select_analyzer (effect_type_menu w) table (col1_menu w)
                 (col2_menu w) alpha) = alpha) as Halpha.
    { unfold select_analyzer.
      destruct (String.eqb _ "Categorical on Categorical");
        [|destruct (String.eqb _ "Categorical on Numerical")]; reflexivity. }
    split; [reflexivity|]. split; [exact Halpha|].
    split; [reflexivity|].
    intros alpha' st.
    rewrite <- (select_with_alpha (effect_type_menu w) table (col1_menu w)
                  (col2_menu w) alpha alpha').
    pose proof (run_analyzer_alpha
                  (select_analyzer (effect_type_menu w) table (col1_menu w)
                     (col2_menu w) alpha) alpha' st) as Hsame.
    rewrite Halpha in Hsame. exact Hsame.
Qed.

Lemma numeric_alpha_dispatched_witness :
  let L := Fixture.libraries 1 0.01 in
  let w := Window (Some 0%nat) "2" "Numerical Correlation" "x" "y" in
  df w = Some 0%nat
  /\ py_float (alpha_entry w) = Some 2
  /\ in_open_unit_interval 2 = false
  /\ dispatch w = inr (CallCorrelation 0 "x" "y" 2).
Proof.
  cbv zeta. split; [reflexivity|]. split; [reflexivity|].
  split; [reflexivity|].
  exact (proj1 (proj2 (numeric_alpha_dispatched
                         (H := Fixture.libraries 1 0.01)
                         (Window (Some 0%nat) "2" "Numerical Correlation"
                            "x" "y") 0%nat eq_refl)
                 2 eq_refl eq_refl)).
Defined.

(** ** Sign symmetry of binary64 arithmetic *)

Section FloatSign.

Lemma binary_round_aux_opp (s : bool) (m e : Z) (l : location) :
  SFopp (binary_round_aux prec emax s m e l)
  = binary_round_aux prec emax (negb s) m e l.
Proof.
  unfold binary_round_aux.
  destruct (shr_fexp prec emax m e l) as [mrs' e'].
  destruct (shr_fexp prec emax _ e' loc_Exact) as [mrs'' e''].
  destruct (shr_m mrs''); simpl; try reflexivity.
  destruct (Z.leb e'' _); reflexivity.
Qed.

Lemma binary_normalize_opp (m e : Z) :
  m <> 0%Z ->
  binary_normalize prec emax (- m) e false
  = SFopp (binary_normalize prec emax m e false).
Proof.
  intros Hm. destruct m as [|p|p]; [congruence| |]; simpl;
    unfold binary_round;
    destruct (shl_align _ _ _) as [mz ez];
    rewrite binary_round_aux_opp; reflexivity.
Qed.

Lemma SFadd_comm (x y : spec_float) :
  SFadd prec emax x y = SFadd prec emax y x.
Proof.
  destruct x as [sx|sx| |sx mx ex], y as [sy|sy| |sy my ey]; simpl;
    try reflexivity; try (destruct sx, sy; reflexivity).
  rewrite (Z.min_comm ey ex), Z.add_comm. reflexivity.
Qed.

Lemma SFsub_swap (x y : spec_float) :
  (forall s, SFsub prec emax x y <> S754_zero s) ->
  SFsub prec emax y x = SFopp (SFsub prec emax x y).
Proof.
  intros Hnz.
  destruct x as [sx|sx| |sx mx ex], y as [sy|sy| |sy my ey]; simpl in *;
    try reflexivity; try (destruct sx, sy; reflexivity).
  - exfalso. destruct sx, sy; eapply Hnz; reflexivity.
  - rewrite (Z.min_comm ey ex).
    set (X := cond_Zopp sx _) in *. set (Y := cond_Zopp sy _) in *.
    replace (Y - X)%Z with (- (X - Y))%Z by lia.
    apply binary_normalize_opp. intros Hz. rewrite Hz in Hnz.
    apply (Hnz false). reflexivity.
Qed.

Lemma SFdiv_opp (u s : spec_float) :
  SFdiv prec emax (SFopp u) s = SFopp (SFdiv prec emax u s).
Proof.
  destruct u as [su|su| |su mu eu], s as [ss|ss| |ss ms es]; simpl;
    try reflexivity; try (destruct su, ss; reflexivity).
  destruct (SFdiv_core_binary prec emax _ _ _ _) as [[mz ez] lz].
  rewrite binary_round_aux_opp. destruct su, ss; reflexivity.
Qed.

Lemma add_comm (x y : float) : x + y = y + x.
Proof.
  apply Prim2SF_inj. rewrite !add_spec. apply SFadd_comm.
Qed.

Lemma sub_swap (x y : float) :
  (x - y =? 0) = false -> y - x = - (x - y).
Proof.
  intros Hnz. apply Prim2SF_inj. rewrite opp_spec, !sub_spec.
  apply SFsub_swap. intros s Hs.
  rewrite FloatAxioms.eqb_spec, sub_spec in Hnz.
  unfold SF64sub in Hnz. rewrite Hs in Hnz. discriminate.
Qed.

Lemma div_opp (u s : float) : - u / s = - (u / s).
Proof.
  apply Prim2SF_inj. rewrite opp_spec, !div_spec, opp_spec.
  apply SFdiv_opp.
Qed.

End FloatSign.

(** ** Row order and the sign of Cohen's d *)

Section RowOrder.

Context `{Libraries}.

Lemma unique_from_fresh (seen values : list cell) (x : cell) :
  In x (unique_from seen values) -> existsb (cell_eqb x) seen = false.
Proof.
  revert seen. induction values as [|c values IH]; intros seen; simpl;
    [tauto|].
  destruct (existsb (cell_eqb c) seen) eqn:Eseen; [apply IH|].
  intros [<-|Hin]; [exact Eseen|].
  apply IH in Hin. simpl in Hin. apply orb_false_iff in Hin. tauto.
Qed.

Lemma filter_all {A : Type} (f : A -> bool) (l : list A) :
  forallb f l = true -> List.filter f l = l.
Proof.
  induction l as [|a l IH]; simpl; [reflexivity|].
  intros [-> Hl]%andb_true_iff. rewrite (IH Hl). reflexivity.
Qed.

Lemma getitem_rows (f : frame) (col : string) (series : list cell) :
  frame_getitem f col = Ok series -> series = map (row_cell col) (rows f).
Proof.
  unfold frame_getitem. destruct (has_column f col); congruence.
Qed.

(** What [dropna] returns, when it returns. *)
Lemma dropna_returns (f f' : frame) (subset : list string) :
  frame_dropna f subset = Ok f' ->
  (forall col, In col subset -> has_column f col = true)
  /\ f' = {| columns := columns f;
             rows := List.filter (complete_on subset) (rows f) |}.
Proof.
  unfold frame_dropna.
  destruct (List.filter _ subset) as [|c missing] eqn:Efilter;
    [|discriminate].
  intros [= <-]. split; [|reflexivity]. intros col Hcol.
  destruct (has_column f col) eqn:Ecol; [reflexivity|]. exfalso.
  assert (In col (List.filter (fun col => negb (has_column f col)) subset))
    as Hin by (apply filter_In; rewrite Ecol; auto).
  rewrite Efilter in Hin. destruct Hin.
Qed.

(** After [dropna] no value of a column of the subset is missing. *)
Lemma dropna_notna (f f' : frame) (subset : list string) (col : string)
    (series : list cell) :
  frame_dropna f subset = Ok f' ->
  In col subset ->
  frame_getitem f' col = Ok series ->
  forallb notna series = true.
Proof.
  intros [_ ->]%dropna_returns Hcol Hget.
  apply getitem_rows in Hget as ->. simpl.
  apply forallb_forall. intros c (row & <- & Hrow)%in_map_iff.
  apply filter_In in Hrow as [_ Hcomplete].
  unfold complete_on in Hcomplete.
  rewrite forallb_forall in Hcomplete. apply Hcomplete, Hcol.
Qed.

(** Group 1 is the group of the first row of the cleaned table, group 2
    the group of the one other category. *)
Lemma first_row_category (f cleaned : frame) (cat_col num_col : string)
    (cats : list cell) (r0 : gmap string cell)
    (rest : list (gmap string cell)) :
  clean_cat_num f cat_col num_col = Ok cleaned ->
  frame_getitem cleaned cat_col = Ok cats ->
  nunique cats = 2%Z ->
  rows cleaned = r0 :: rest ->
  exists other : cell,
    unique cats = [row_cell cat_col r0; other]
    /\ cell_eqb other (row_cell cat_col r0) = false.
Proof.
  unfold clean_cat_num. destruct (coerce_column f num_col) as [f1|];
    [|discriminate].
  intros Hdrop Hget Hn Hrows.
  pose proof (dropna_notna _ _ _ cat_col cats Hdrop ltac:(simpl; auto) Hget)
    as Hnotna.
  unfold nunique in Hn. rewrite (filter_all _ _ Hnotna) in Hn.
  apply getitem_rows in Hget. rewrite Hrows in Hget. simpl in Hget.
  subst cats. unfold unique in *. simpl in *.
  destruct (unique_from [row_cell cat_col r0] _) as [|other [|x l]] eqn:Eu;
    simpl in Hn; try lia.
  exists other. split; [reflexivity|].
  pose proof (unique_from_fresh [row_cell cat_col r0]
                (map (row_cell cat_col) rest) other) as Hfresh.
  rewrite Eu in Hfresh. specialize (Hfresh ltac:(simpl; auto)).
  simpl in Hfresh. apply orb_false_iff in Hfresh. tauto.
Qed.

Lemma block_row_num (cat_col num_col : string) (c : cell) (x : float) :
  row_cell num_col (block_row cat_col num_col c x) = Num x.
Proof.
  unfold row_cell, block_row. rewrite lookup_insert_eq. reflexivity.
Qed.

Lemma block_row_cat (cat_col num_col : string) (c : cell) (x : float) :
  cat_col <> num_col ->
  row_cell cat_col (block_row cat_col num_col c x) = c.
Proof.
  intros Hne. unfold row_cell, block_row.
  rewrite lookup_insert_ne by congruence.
  rewrite lookup_singleton_eq. reflexivity.
Qed.

Lemma blocks_has_cat (cat_col num_col : string) (a b : cell)
    (xs ys : list float) :
  has_column (two_blocks cat_col num_col a xs b ys) cat_col = true.
Proof.
  apply bool_decide_eq_true_2. simpl. apply list_elem_of_In. simpl. auto.
Qed.

Lemma blocks_has_num (cat_col num_col : string) (a b : cell)
    (xs ys : list float) :
  has_column (two_blocks cat_col num_col a xs b ys) num_col = true.
Proof.
  apply bool_decide_eq_true_2. simpl. apply list_elem_of_In. simpl. auto.
Qed.

Lemma zip_with_self {A B : Type} (f : A -> B -> A) (g : A -> B)
    (l : list A) :
  zip_with f l (map g l) = map (fun a => f a (g a)) l.
Proof.
  induction l as [|a l IH]; simpl; [reflexivity|]. rewrite IH. reflexivity.
Qed.

Lemma map_fixed {A : Type} (f : A -> A) (l : list A) :
  (forall a, In a l -> f a = a) -> map f l = l.
Proof.
  induction l as [|a l IH]; simpl; intros Hf; [reflexivity|].
  rewrite Hf, IH by auto. reflexivity.
Qed.

Lemma in_blocks (cat_col num_col : string) (a b : cell)
    (xs ys : list float) (row : gmap string cell) :
  In row (rows (two_blocks cat_col num_col a xs b ys)) ->
  exists (c : cell) (x : float),
    row = block_row cat_col num_col c x
    /\ (c = a /\ In x xs \/ c = b /\ In x ys).
Proof.
  simpl. rewrite in_app_iff, !in_map_iff.
  intros [(x & <- & Hx)|(x & <- & Hx)]; eauto 10.
Qed.

(** Coercing the numeric column of a table of numbers changes nothing. *)
Lemma coerce_blocks (cat_col num_col : string) (a b : cell)
    (xs ys : list float) :
  coerce_column (two_blocks cat_col num_col a xs b ys) num_col
  = Ok (two_blocks cat_col num_col a xs b ys).
Proof.
  unfold coerce_column, frame_getitem, frame_setitem.
  rewrite blocks_has_num. f_equal.
  unfold to_numeric. rewrite map_map, zip_with_self.
  rewrite map_fixed; [reflexivity|].
  intros row (c & x & -> & _)%in_blocks.
  rewrite block_row_num. simpl. unfold block_row.
  rewrite insert_insert_eq. reflexivity.
Qed.

(** Dropping the incomplete rows of a complete table changes nothing. *)
Lemma dropna_blocks (cat_col num_col : string) (sa sb : string)
    (xs ys : list float) :
  cat_col <> num_col ->
  all_numbers xs = true ->
  all_numbers ys = true ->
  frame_dropna (two_blocks cat_col num_col (Str sa) xs (Str sb) ys)
    [cat_col; num_col]
  = Ok (two_blocks cat_col num_col (Str sa) xs (Str sb) ys).
Proof.
  intros Hne Hxs Hys. unfold frame_dropna. simpl List.filter.
  rewrite blocks_has_cat, blocks_has_num. simpl.
  rewrite filter_all; [reflexivity|].
  apply forallb_forall. intros row Hrow.
  apply (in_blocks cat_col num_col (Str sa) (Str sb) xs ys) in Hrow
    as (c & x & -> & Hcx).
  unfold complete_on. simpl.
  rewrite block_row_num, (block_row_cat _ _ _ _ Hne).
  unfold all_numbers in *. rewrite forallb_forall in Hxs, Hys.
  destruct Hcx as [[-> Hx]|[-> Hx]]; simpl; unfold notna; simpl;
    rewrite ?Hxs, ?Hys by assumption; reflexivity.
Qed.

Lemma getitem_cat_blocks (cat_col num_col : string) (a b : cell)
    (xs ys : list float) :
  cat_col <> num_col ->
  frame_getitem (two_blocks cat_col num_col a xs b ys) cat_col
  = Ok (map (fun _ => a) xs ++ map (fun _ => b) ys).
Proof.
  intros Hne. unfold frame_getitem. rewrite blocks_has_cat. simpl.
  rewrite map_app, !map_map. f_equal. f_equal.
  - apply map_ext. intros x. apply block_row_cat, Hne.
  - apply map_ext. intros x. apply block_row_cat, Hne.
Qed.

Lemma unique_from_seen (seen : list cell) (c : cell) (xs : list float)
    (l : list cell) :
  existsb (cell_eqb c) seen = true ->
  unique_from seen (map (fun _ => c) xs ++ l) = unique_from seen l.
Proof.
  intros Hseen. induction xs as [|x xs IH]; simpl; [reflexivity|].
  rewrite Hseen. exact IH.
Qed.

Lemma unique_blocks (sa sb : string) (xs ys : list float) :
  sa <> sb -> xs <> [] -> ys <> [] ->
  unique (map (fun _ => Str sa) xs ++ map (fun _ => Str sb) ys)
  = [Str sa; Str sb].
Proof.
  intros Hne Hxs Hys. unfold unique.
  destruct xs as [|x xs]; [congruence|].
  destruct ys as [|y ys]; [congruence|].
  simpl. rewrite unique_from_seen by (simpl; rewrite String.eqb_refl; reflexivity).
  simpl. rewrite (proj2 (String.eqb_neq sb sa)) by congruence. simpl.
  f_equal. f_equal.
  rewrite <- (app_nil_r (map _ ys)).
  rewrite unique_from_seen by (simpl; rewrite String.eqb_refl; reflexivity).
  reflexivity.
Qed.

Lemma notna_blocks (sa sb : string) (xs ys : list float) :
  List.filter notna (map (fun _ => Str sa) xs ++ map (fun _ => Str sb) ys)
  = map (fun _ => Str sa) xs ++ map (fun _ => Str sb) ys.
Proof.
  apply filter_all, forallb_forall. intros c.
  rewrite in_app_iff, !in_map_iff. intros [(x & <- & _)|(x & <- & _)];
    reflexivity.
Qed.

Lemma group_values_blocks (cat_col num_col : string) (sa sb : string)
    (xs ys : list float) :
  cat_col <> num_col -> sa <> sb ->
  group_values (two_blocks cat_col num_col (Str sa) xs (Str sb) ys)
    cat_col (Str sa) num_col = xs
  /\ group_values (two_blocks cat_col num_col (Str sa) xs (Str sb) ys)
       cat_col (Str sb) num_col = ys.
Proof.
  intros Hne Hab. unfold group_values. simpl rows.
  rewrite !List.filter_app, !map_app.
  assert (forall (s t : string) (zs : list float),
            map (fun row => float_of_cell (row_cell num_col row))
              (List.filter
                 (fun row => cell_eqb (row_cell cat_col row) (Str t))
                 (map (block_row cat_col num_col (Str s)) zs))
            = if String.eqb s t then zs else []) as Hblock.
  { intros s t zs. induction zs as [|z zs IH]; simpl.
    - destruct (String.eqb s t); reflexivity.
    - rewrite (block_row_cat _ _ _ _ Hne). simpl.
      destruct (String.eqb s t); simpl; [|exact IH].
      rewrite block_row_num, IH. reflexivity. }
  rewrite !Hblock, !String.eqb_refl.
  rewrite (proj2 (String.eqb_neq sa sb)), (proj2 (String.eqb_neq sb sa))
    by congruence.
  rewrite app_nil_r. split; reflexivity.
Qed.

(** The two-group branch on a table of two blocks: group 1 is the
    block that comes first. *)
Lemma cat_on_num_blocks (cat_col num_col : string) (sa sb : string)
    (xs ys : list float) (alpha : float) :
  cat_col <> num_col -> sa <> sb -> xs <> [] -> ys <> [] ->
  all_numbers xs = true -> all_numbers ys = true ->
  fst (cat_on_num_effect_size 0 cat_col num_col alpha
         [two_blocks cat_col num_col (Str sa) xs (Str sb) ys])
  = match
      (let '(t_stat, p_value) := ttest_ind xs ys in
       let pooled_std := pooled_std_value xs ys in
       if pooled_std =? 0 then
         Raise (ValueError
           "Pooled standard deviation is zero; cannot compute Cohen's d.")
       else
         let cohen_d_value := cohen_d xs ys pooled_std in
         if p_value <=? alpha then
           match interpret_effect_size cohen_d_value "Cohen's d" with
           | Raise e => Raise e
           | Ok interpretation =>
               Ok (significant "Cohen's d" cohen_d_value interpretation
                     p_value)
           end
         else Ok (not_significant p_value alpha))
    with
    | Raise e => Raise e
    | Ok result_text => Ok (result_text, 2%nat, cat_col, num_col)
    end.
Proof.
  intros Hne Hab Hxs Hys Hnx Hny.
  rewrite cat_on_num_run. cbv zeta.
  change (at_loc [two_blocks cat_col num_col (Str sa) xs (Str sb) ys] 0)
    with (two_blocks cat_col num_col (Str sa) xs (Str sb) ys).
  rewrite coerce_blocks, (dropna_blocks _ _ _ _ _ _ Hne Hnx Hny).
  rewrite (getitem_cat_blocks _ _ _ _ _ _ Hne).
  unfold nunique. rewrite notna_blocks, (unique_blocks _ _ _ _ Hab Hxs Hys).
  simpl (Z.of_nat _ <? 2)%Z. simpl (Z.of_nat _ =? 2)%Z. cbv iota.
  unfold two_groups. rewrite (getitem_cat_blocks _ _ _ _ _ _ Hne).
  cbv zeta. rewrite (unique_blocks _ _ _ _ Hab Hxs Hys). simpl nth.
  destruct (group_values_blocks cat_col num_col sa sb xs ys Hne Hab)
    as [-> ->].
  destruct (ttest_ind xs ys) as [t_stat p].
  destruct (pooled_std_value xs ys =? 0); [reflexivity|].
  destruct (p <=? alpha); [|reflexivity].
  destruct (interpret_effect_size _ _); reflexivity.
Qed.

(** Exchanging the two groups negates Cohen's d when the means differ. *)
Lemma cohen_d_swap (xs ys : list float) :
  (series_mean xs - series_mean ys =? 0) = false ->
  pooled_std_value ys xs = pooled_std_value xs ys
  /\ cohen_d ys xs (pooled_std_value ys xs)
     = - cohen_d xs ys (pooled_std_value xs ys).
Proof.
  intros Hdiff.
  assert (pooled_std_value ys xs = pooled_std_value xs ys) as Hpooled.
  { unfold pooled_std_value. rewrite add_comm. reflexivity. }
  split; [exact Hpooled|].
  rewrite Hpooled. unfold cohen_d.
  rewrite (sub_swap _ _ Hdiff). apply div_opp.
Qed.

End RowOrder.

(** C10.  In the two-group branch of the categorical-numeric analyzer,
    group 1 is made of the rows whose category is the category of the
    first row of the cleaned table, and group 2 of the rows of the one
    other category; Cohen's d is computed from the groups in that
    order.  Consequently the sign of d follows the row order: a table of
    two blocks of rows (category [sa] with the scores [xs], category
    [sb] with the scores [ys]) and the same rows with the blocks
    exchanged are row-permutations of each other, and when both runs are
    significant and the two means differ, the two results show Cohen's d
    values that are negations of each other. *)
Theorem cohen_d_sign_follows_row_order `{Libraries} :
  (forall (f cleaned : frame) (cat_col num_col : string)
          (cats : list cell) (r0 : gmap string cell)
          (rest : list (gmap string cell)),
     clean_cat_num f cat_col num_col = Ok cleaned ->
     frame_getitem cleaned cat_col = Ok cats ->
     nunique cats = 2%Z ->
     rows cleaned = r0 :: rest ->
     exists other : cell,
       unique cats = [row_cell cat_col r0; other]
       /\ cell_eqb other (row_cell cat_col r0) = false
       /\ let group1 :=
            group_values cleaned cat_col (row_cell cat_col r0) num_col in
          let group2 := group_values cleaned cat_col other num_col in
          forall (alpha : float) (result_text : text),
            two_groups cleaned cat_col num_col alpha = Ok result_text ->
            reported CohensD
              (cohen_d group1 group2 (pooled_std_value group1 group2))
              (snd (ttest_ind group1 group2)) alpha result_text)
  /\ (forall (cat_col num_col sa sb : string) (xs ys : list float)
             (alpha : float),
        cat_col <> num_col -> sa <> sb -> xs <> [] -> ys <> [] ->
        all_numbers xs = true -> all_numbers ys = true ->
        let a_first := two_blocks cat_col num_col (Str sa) xs (Str sb) ys in
        let b_first := two_blocks cat_col num_col (Str sb) ys (Str sa) xs in
        let d := cohen_d xs ys (pooled_std_value xs ys) in
        Permutation (rows a_first) (rows b_first)
        /\ ((pooled_std_value xs ys =? 0) = false ->
            (series_mean xs - series_mean ys =? 0) = false ->
            (snd (ttest_ind xs ys) <=? alpha) = true ->
            (snd (ttest_ind ys xs) <=? alpha) = true ->
            exists i1 i2 : option string,
              fst (cat_on_num_effect_size 0 cat_col num_col alpha [a_first])
              = Ok (significant "Cohen's d" d i1 (snd (ttest_ind xs ys)),
                    2%nat, cat_col, num_col)
              /\ fst (cat_on_num_effect_size 0 cat_col num_col alpha
                        [b_first])
                 = Ok (significant "Cohen's d" (- d) i2
                         (snd (ttest_ind ys xs)),
                       2%nat, cat_col, num_col))).
Proof.
  split.
  - intros f cleaned cat_col num_col cats r0 rest Hclean Hget Hn Hrows.
    destruct (first_row_category f cleaned cat_col num_col cats r0 rest
                Hclean Hget Hn Hrows) as (other & Hunique & Hother).
    exists other. split; [exact Hunique|]. split; [exact Hother|].
    cbv zeta. intros alpha result_text. unfold two_groups.
    rewrite Hget. cbv zeta. rewrite Hunique. simpl nth.
    destruct (ttest_ind _ _) as [t_stat p]. simpl snd.
    destruct (pooled_std_value _ _ =? 0); [discriminate|].
    apply (reported_intro CohensD).
  - intros cat_col num_col sa sb xs ys alpha Hne Hab Hxs Hys Hnx Hny.
    cbv zeta. split.
    + simpl. apply Permutation_app_comm.
    + intros Hpooled Hdiff Hp1 Hp2.
      rewrite !cat_on_num_blocks by (assumption || congruence).
      destruct (cohen_d_swap xs ys Hdiff) as [Hpooled' Hswap].
      destruct (ttest_ind xs ys) as [t1 p1], (ttest_ind ys xs) as [t2 p2].
      simpl snd in *. cbv zeta. rewrite Hswap, Hpooled', Hpooled, Hp1, Hp2.
      destruct (interpret_passed CohensD
                  (cohen_d xs ys (pooled_std_value xs ys)))
        as (i1 & Hi1 & _).
      destruct (interpret_passed CohensD
                  (- cohen_d xs ys (pooled_std_value xs ys)))
        as (i2 & Hi2 & _).
      change (passed_kind CohensD) with "Cohen's d" in Hi1, Hi2.
      rewrite Hi1, Hi2. exists i1, i2. split; reflexivity.
Qed.

Lemma cohen_d_sign_follows_row_order_witness :
  let L := Fixture.libraries (-12.25) 0.00025 in
  let a_first :=
    two_blocks "Group" "Score" (Str "A") [1; 2; 3] (Str "B") [11; 12; 13] in
  let b_first :=
    two_blocks "Group" "Score" (Str "B") [11; 12; 13] (Str "A") [1; 2; 3] in
  Permutation (rows a_first) (rows b_first)
  /\ exists i1 i2 : option string,
       fst (cat_on_num_effect_size 0 "Group" "Score" 0.05 [a_first])
       = Ok (significant "Cohen's d" (-10) i1 0.00025, 2%nat, "Group",
             "Score")
       /\ fst (cat_on_num_effect_size 0 "Group" "Score" 0.05 [b_first])
          = Ok (significant "Cohen's d" 10 i2 0.00025, 2%nat, "Group",
                "Score").
Proof.
  cbv zeta.
  destruct (proj2 (cohen_d_sign_follows_row_order
                     (H := Fixture.libraries (-12.25) 0.00025))
              "Group" "Score" "A" "B" [1; 2; 3] [11; 12; 13] 0.05
              ltac:(discriminate) ltac:(discriminate) ltac:(discriminate)
              ltac:(discriminate) eq_refl eq_refl)
    as [Hperm Hsign].
  split; [exact Hperm|].
  exact (Hsign eq_refl eq_refl eq_refl eq_refl).
Defined.

(** ** The model on examples *)

(** A NaN or infinite effect size falls through every band: the loop
    ends and the function returns [None]. *)
Example interpret_nan_no_label :
  interpret_effect_size nan "Cohen's d" = Ok None
  /\ interpret_effect_size infinity "Pearson's r" = Ok None.
Proof. split; reflexivity. Qed.

(** A value equal to a bound belongs to the next band. *)
Example interpret_at_bound :
  interpret_effect_size 0.5 "Cohen's d" = Ok (Some "large effect size")
  /\ interpret_effect_size (-0.1) "CRAM√©R'S V"
     = Ok (Some "medium effect size").
Proof. split; reflexivity. Qed.

(** Identical constant groups: the zero-variance error. *)
Example constant_groups_raise :
  fst (cat_on_num_effect_size (H := Fixture.libraries 0 1)
         0 "Group" "Score" 0.05 [Fixture.constant_scores])
  = Raise (ValueError
      "Pooled standard deviation is zero; cannot compute Cohen's d.").
Proof. vm_compute. reflexivity. Qed.

(** One category only: the category-count error. *)
Example single_category_raises :
  fst (cat_on_num_effect_size (H := Fixture.libraries 0 1)
         0 "Group" "Score" 0.05
         [Fixture.table "Group" "Score"
            [(Str "A", Num 1); (Str "A", Num 2)]])
  = Raise (ValueError
      "Categorical column must have at least 2 categories for comparison.").
Proof. vm_compute. reflexivity. Qed.

(** One valid row after cleaning: the correlation analyzer refuses. *)
Example one_valid_row_raises :
  fst (correlation_effect_size (H := Fixture.libraries 1 0)
         0 "x" "y" 0.05
         [Fixture.table "x" "y"
            [(Num 1, Str "5"); (Num 2, Str "n/a"); (NoneCell, Num 3)]])
  = Raise (ValueError "Not enough valid numeric data for correlation.").
Proof. vm_compute. reflexivity. Qed.

(** A p-value above alpha: the text carries the p-value and alpha. *)
Example not_significant_text :
  fst (cat_on_cat_effect_size (H := Fixture.libraries 2.5 0.2)
         0 "Group" "Outcome" 0.05 [Fixture.outcomes])
  = Ok (not_significant 0.2 0.05,
        {| index := [Str "A"; Str "B"];
           labels := [Str "No"; Str "Yes"];
           values := [[1%Z; 2%Z]; [2%Z; 1%Z]] |},
        "Group", "Outcome").
Proof. vm_compute. reflexivity. Qed.

(** * Further properties of the engine *)

(** ** More binary64 facts *)

Section FloatEdges.

Lemma abs_opp (x : float) : abs (- x) = abs x.
Proof.
  apply Prim2SF_inj. rewrite !abs_spec, opp_spec.
  destruct (Prim2SF x); reflexivity.
Qed.




End FloatEdges.

(** ** Cleaning *)

Section Cleaning.

Context `{Libraries}.

Lemma to_numeric_cell_num (c : cell) : exists x, to_numeric_cell c = Num x.
Proof. destruct c; simpl; eauto. Qed.

Lemma has_column_columns (f g : frame) (col : string) :
  columns f = columns g -> has_column f col = has_column g col.
Proof. unfold has_column. intros ->. reflexivity. Qed.

(** What coercing a column does to a frame. *)
Lemma coerce_column_spec (f f1 : frame) (col : string) :
  coerce_column f col = Ok f1 ->
  has_column f col = true
  /\ columns f1 = columns f
  /\ rows f1 = map (coerced_row col) (rows f).
Proof.
  unfold coerce_column, frame_getitem.
  destruct (has_column f col) eqn:Ecol; [|discriminate].
  intros [= <-]. split; [reflexivity|]. unfold frame_setitem. simpl.
  rewrite Ecol. split; [reflexivity|].
  unfold to_numeric. rewrite map_map.
  apply (zip_with_self (fun row v => <[col := v]> row)
           (fun row => to_numeric_cell (row_cell col row))).
Qed.

(** What [dropna] does to a frame. *)
Lemma frame_dropna_spec (f f' : frame) (subset : list string) :
  frame_dropna f subset = Ok f' ->
  (forall col, In col subset -> has_column f col = true)
  /\ columns f' = columns f
  /\ rows f' = List.filter (complete_on subset) (rows f).
Proof.
  intros [Hcols ->]%dropna_returns. auto.
Qed.

Lemma row_cell_coerced_same (col : string) (row : gmap string cell) :
  exists x, row_cell col (coerced_row col row) = Num x.
Proof.
  unfold coerced_row, row_cell. rewrite lookup_insert_eq. simpl.
  apply to_numeric_cell_num.
Qed.

Lemma row_cell_coerced_other (col col' : string) (row : gmap string cell) :
  col <> col' -> row_cell col' (coerced_row col row) = row_cell col' row.
Proof.
  intros Hne. unfold coerced_row, row_cell.
  rewrite lookup_insert_ne by exact Hne. reflexivity.
Qed.

(** A row whose cell is already a number is left as it is. *)
Lemma coerced_row_fixed (col : string) (row : gmap string cell) (x : float) :
  row !! col = Some (Num x) -> coerced_row col row = row.
Proof.
  intros Hrow. unfold coerced_row, row_cell. rewrite Hrow. simpl.
  apply insert_id, Hrow.
Qed.

Lemma lookup_coerced_same (col : string) (row : gmap string cell) :
  exists x, coerced_row col row !! col = Some (Num x).
Proof.
  unfold coerced_row. rewrite lookup_insert_eq.
  destruct (to_numeric_cell_num (row_cell col row)) as [x ->]. eauto.
Qed.

Lemma lookup_coerced_twice (col col' : string) (row : gmap string cell) :
  exists x, coerced_row col' (coerced_row col row) !! col = Some (Num x).
Proof.
  destruct (decide (col' = col)) as [->|Hne].
  - apply lookup_coerced_same.
  - unfold coerced_row at 1. rewrite lookup_insert_ne by exact Hne.
    apply lookup_coerced_same.
Qed.

(** Coercing a column whose cells are all numbers changes nothing. *)
Lemma coerce_column_fixed (f : frame) (col : string) :
  has_column f col = true ->
  (forall row, In row (rows f) -> exists x, row !! col = Some (Num x)) ->
  coerce_column f col = Ok f.
Proof.
  intros Hcol Hrows. unfold coerce_column, frame_getitem. rewrite Hcol.
  f_equal. unfold frame_setitem. rewrite Hcol. destruct f as [cols rs].
  simpl in *. f_equal. unfold to_numeric. rewrite map_map.
  rewrite (zip_with_self (fun row v => <[col := v]> row)
             (fun row => to_numeric_cell (row_cell col row))).
  apply map_fixed. intros row Hrow. destruct (Hrows row Hrow) as [x Hx].
  exact (coerced_row_fixed col row x Hx).
Qed.

(** [dropna] on a frame with no missing value in the subset changes
    nothing. *)
Lemma frame_dropna_fixed (f : frame) (subset : list string) :
  (forall col, In col subset -> has_column f col = true) ->
  forallb (complete_on subset) (rows f) = true ->
  frame_dropna f subset = Ok f.
Proof.
  intros Hcols Hrows. unfold frame_dropna.
  destruct (List.filter _ subset) as [|col missing] eqn:Efilter.
  - rewrite (filter_all _ _ Hrows). destruct f; reflexivity.
  - assert (In col (List.filter (fun col => negb (has_column f col)) subset))
      as [Hin Hneg]%filter_In by (rewrite Efilter; left; reflexivity).
    rewrite (Hcols col Hin) in Hneg. discriminate.
Qed.

Lemma forallb_filter {A : Type} (p : A -> bool) (l : list A) :
  forallb p (List.filter p l) = true.
Proof.
  apply forallb_forall. intros a [_ Ha]%filter_In. exact Ha.
Qed.

(** The cleaned frame of [cat_on_num_effect_size]. *)
Lemma clean_cat_num_spec (f cleaned : frame) (cat_col num_col : string) :
  clean_cat_num f cat_col num_col = Ok cleaned ->
  has_column f cat_col = true /\ has_column f num_col = true
  /\ columns cleaned = columns f
  /\ rows cleaned
     = List.filter (complete_on [cat_col; num_col])
         (map (coerced_row num_col) (rows f)).
Proof.
  unfold clean_cat_num.
  destruct (coerce_column f num_col) as [f1|] eqn:E1; [|discriminate].
  apply coerce_column_spec in E1 as (Hnum & Hcols1 & Hrows1).
  intros (Hsub & Hcols & Hrows)%frame_dropna_spec.
  rewrite <- (has_column_columns f1 f cat_col Hcols1).
  rewrite (Hsub cat_col) by (simpl; auto).
  rewrite Hcols, Hcols1, Hrows, Hrows1. auto.
Qed.

(** The cleaned frame of [correlation_effect_size]. *)
Lemma clean_num_num_spec (f cleaned : frame) (col1 col2 : string) :
  clean_num_num f col1 col2 = Ok cleaned ->
  has_column f col1 = true /\ has_column f col2 = true
  /\ columns cleaned = columns f
  /\ rows cleaned
     = List.filter (complete_on [col1; col2])
         (map (fun row => coerced_row col2 (coerced_row col1 row)) (rows f)).
Proof.
  unfold clean_num_num.
  destruct (coerce_column f col1) as [f1|] eqn:E1; [|discriminate].
  apply coerce_column_spec in E1 as (H1 & Hcols1 & Hrows1).
  destruct (coerce_column f1 col2) as [f2|] eqn:E2; [|discriminate].
  apply coerce_column_spec in E2 as (H2 & Hcols2 & Hrows2).
  intros (Hsub & Hcols & Hrows)%frame_dropna_spec.
  rewrite (has_column_columns f1 f col2 Hcols1) in H2.
  rewrite Hcols, Hcols2, Hcols1, Hrows, Hrows2, Hrows1, map_map. auto.
Qed.

Lemma getitem_has_column (f : frame) (col : string) :
  has_column f col = true ->
  frame_getitem f col = Ok (map (row_cell col) (rows f)).
Proof. unfold frame_getitem. intros ->. reflexivity. Qed.

Lemma getitem_cleaned_cat (f cleaned : frame) (cat_col num_col : string) :
  clean_cat_num f cat_col num_col = Ok cleaned ->
  frame_getitem cleaned cat_col = Ok (map (row_cell cat_col) (rows cleaned)).
Proof.
  intros (Hcat & _ & Hcols & _)%clean_cat_num_spec.
  apply getitem_has_column.
  rewrite (has_column_columns cleaned f cat_col Hcols). exact Hcat.
Qed.

(** Every row of the cleaned frame is complete on both columns and
    holds a number that is not a NaN in the numeric column. *)
Lemma cleaned_cat_num_row (f cleaned : frame) (cat_col num_col : string)
    (row : gmap string cell) :
  clean_cat_num f cat_col num_col = Ok cleaned ->
  In row (rows cleaned) ->
  notna (row_cell cat_col row) = true
  /\ exists x, row !! num_col = Some (Num x) /\ is_nan x = false.
Proof.
  intros (_ & _ & _ & Hrows)%clean_cat_num_spec. rewrite Hrows.
  intros [(row0 & <- & _)%in_map_iff Hcomplete]%filter_In.
  unfold complete_on in Hcomplete. simpl in Hcomplete.
  apply andb_true_iff in Hcomplete as [Hcat Hnum%andb_true_iff].
  destruct Hnum as [Hnum _]. split; [exact Hcat|].
  destruct (lookup_coerced_same num_col row0) as [x Hx]. exists x.
  split; [exact Hx|]. unfold row_cell in Hnum. rewrite Hx in Hnum.
  simpl in Hnum. apply negb_true_iff in Hnum. exact Hnum.
Qed.

Lemma cleaned_num_num_row (f cleaned : frame) (col1 col2 : string)
    (row : gmap string cell) :
  clean_num_num f col1 col2 = Ok cleaned ->
  In row (rows cleaned) ->
  (exists x, row !! col1 = Some (Num x) /\ is_nan x = false)
  /\ (exists y, row !! col2 = Some (Num y) /\ is_nan y = false).
Proof.
  intros (_ & _ & _ & Hrows)%clean_num_num_spec. rewrite Hrows.
  intros [(row0 & <- & _)%in_map_iff Hcomplete]%filter_In.
  unfold complete_on in Hcomplete. simpl in Hcomplete.
  apply andb_true_iff in Hcomplete as [Hc1 Hc2%andb_true_iff].
  destruct Hc2 as [Hc2 _]. split.
  - destruct (lookup_coerced_twice col1 col2 row0) as [x Hx]. exists x.
    split; [exact Hx|]. unfold row_cell in Hc1. rewrite Hx in Hc1.
    simpl in Hc1. apply negb_true_iff in Hc1. exact Hc1.
  - destruct (lookup_coerced_same col2 (coerced_row col1 row0)) as [y Hy].
    exists y. split; [exact Hy|]. unfold row_cell in Hc2.
    rewrite Hy in Hc2. simpl in Hc2. apply negb_true_iff in Hc2. exact Hc2.
Qed.

(** Cleaning a cleaned frame changes nothing. *)
Lemma clean_cat_num_fixed (f cleaned : frame) (cat_col num_col : string) :
  clean_cat_num f cat_col num_col = Ok cleaned ->
  clean_cat_num cleaned cat_col num_col = Ok cleaned.
Proof.
  intros Hclean.
  pose proof (clean_cat_num_spec _ _ _ _ Hclean)
    as (Hcat & Hnum & Hcols & Hrows).
  unfold clean_cat_num. rewrite coerce_column_fixed.
  - apply frame_dropna_fixed.
    + intros col [<-|[<-|[]]];
        rewrite (has_column_columns cleaned f _ Hcols); assumption.
    + rewrite Hrows. apply forallb_filter.
  - rewrite (has_column_columns cleaned f _ Hcols). exact Hnum.
  - intros row Hrow.
    destruct (cleaned_cat_num_row _ _ _ _ row Hclean Hrow)
      as (_ & x & Hx & _).
    eauto.
Qed.

Lemma clean_num_num_fixed (f cleaned : frame) (col1 col2 : string) :
  clean_num_num f col1 col2 = Ok cleaned ->
  clean_num_num cleaned col1 col2 = Ok cleaned.
Proof.
  intros Hclean.
  pose proof (clean_num_num_spec _ _ _ _ Hclean)
    as (H1 & H2 & Hcols & Hrows).
  unfold clean_num_num. rewrite coerce_column_fixed.
  - rewrite coerce_column_fixed.
    + apply frame_dropna_fixed.
      * intros col [<-|[<-|[]]];
          rewrite (has_column_columns cleaned f _ Hcols); assumption.
      * rewrite Hrows. apply forallb_filter.
    + rewrite (has_column_columns cleaned f _ Hcols). exact H2.
    + intros row Hrow.
      destruct (cleaned_num_num_row _ _ _ _ row Hclean Hrow)
        as (_ & y & Hy & _).
      eauto.
  - rewrite (has_column_columns cleaned f _ Hcols). exact H1.
  - intros row Hrow.
    destruct (cleaned_num_num_row _ _ _ _ row Hclean Hrow)
      as ((x & Hx & _) & _).
    eauto.
Qed.

End Cleaning.

(** ** Edge behaviour of the analyzers *)

Section InterpretSign.

Lemma for_bands_opp (value : float) (bands : list band) :
  for_bands (- value) bands = for_bands value bands.
Proof.
  induction bands as [|[threshold interpretation] rest IH]; simpl;
    [reflexivity|].
  rewrite abs_opp, IH. reflexivity.
Qed.

End InterpretSign.

(** X1.  [interpret_effect_size] looks only at the magnitude of the
    value: a value and its negation get the same answer, for every kind
    string (the same label, the same missing label, or the same
    [KeyError]). *)
Theorem interpret_ignores_sign (value : float) (effect_type : string) :
  interpret_effect_size (- value) effect_type
  = interpret_effect_size value effect_type.
Proof.
  unfold interpret_effect_size.
  destruct (interpretations !! PyStr.lower effect_type); [|reflexivity].
  rewrite for_bands_opp. reflexivity.
Qed.



Section Runs2.

Context `{Libraries}.

(** The run of [cat_on_num_effect_size] once cleaning succeeds. *)
Lemma cat_on_num_cleaned_run (l : loc) (cat_col num_col : string)
    (alpha : float) (st : store) (cleaned : frame) :
  clean_cat_num (at_loc st l) cat_col num_col = Ok cleaned ->
  exists f1 : frame,
    coerce_column (at_loc st l) num_col = Ok f1
    /\ cat_on_num_effect_size l cat_col num_col alpha st
       = if (nunique (map (row_cell cat_col) (rows cleaned)) <? 2)%Z then
           (Raise (ValueError
              "Categorical column must have at least 2 categories for comparison."),
            st ++ [f1; cleaned])
         else
           match (if (nunique (map (row_cell cat_col) (rows cleaned)) =? 2)%Z
                  then two_groups cleaned cat_col num_col alpha
                  else many_groups cleaned cat_col num_col alpha) with
           | Raise e => (Raise e, st ++ [f1; cleaned])
           | Ok result_text =>
               (Ok (result_text, S (List.length st), cat_col, num_col),
                st ++ [f1; cleaned])
           end.
Proof.
  intros Hclean. pose proof (getitem_cleaned_cat _ _ _ _ Hclean) as Hget.
  rewrite cat_on_num_run. cbv zeta. unfold clean_cat_num in Hclean.
  destruct (coerce_column _ num_col) as [f1|]; [|discriminate].
  exists f1. split; [reflexivity|]. rewrite Hclean, Hget. reflexivity.
Qed.

(** The run of [correlation_effect_size] once cleaning succeeds. *)
Lemma correlation_cleaned_run (l : loc) (col1 col2 : string)
    (alpha : float) (st : store) (cleaned : frame) :
  clean_num_num (at_loc st l) col1 col2 = Ok cleaned ->
  exists f1 f2 : frame,
    coerce_column (at_loc st l) col1 = Ok f1
    /\ coerce_column f1 col2 = Ok f2
    /\ correlation_effect_size l col1 col2 alpha st
    = if (Z.of_nat (List.length (rows cleaned)) <? 2)%Z then
        (Raise (ValueError "Not enough valid numeric data for correlation."),
         st ++ [f2; cleaned])
      else
        let xs := map (fun row => float_of_cell (row_cell col1 row))
                    (rows cleaned) in
        let ys := map (fun row => float_of_cell (row_cell col2 row))
                    (rows cleaned) in
        let r := fst (pearsonr xs ys) in
        let p_value := snd (pearsonr xs ys) in
        match (if p_value <=? alpha then
                 match interpret_effect_size r "Pearson's r" with
                 | Raise e => Raise e
                 | Ok interpretation =>
                     Ok (significant "Pearson's r" r interpretation p_value)
                 end
               else Ok (not_significant p_value alpha)) with
        | Raise e => (Raise e, st ++ [f2; cleaned])
        | Ok result_text =>
            (Ok (result_text, S (List.length st), col1, col2),
             st ++ [f2; cleaned])
        end.
Proof.
  intros Hclean.
  pose proof (clean_num_num_spec _ _ _ _ Hclean) as (H1 & H2 & Hcols & _).
  rewrite correlation_run. cbv zeta. unfold clean_num_num in Hclean.
  destruct (coerce_column _ col1) as [f1|]; [|discriminate].
  destruct (coerce_column f1 col2) as [f2|] eqn:E2; [|discriminate].
  exists f1, f2. split; [reflexivity|]. split; [exact E2|].
  rewrite Hclean.
  destruct (_ <? 2)%Z; [reflexivity|].
  rewrite !getitem_has_column
    by (rewrite (has_column_columns cleaned _ _ Hcols); assumption).
  rewrite !map_map.
  destruct (pearsonr _ _) as [r p]. simpl.
  destruct (p <=? alpha); [|reflexivity].
  destruct (interpret_effect_size r _); reflexivity.
Qed.

Lemma two_groups_message (f : frame) (cat_col num_col : string)
    (alpha : float) (e : exn) :
  two_groups f cat_col num_col alpha = Raise e ->
  e <> ValueError
         "Categorical column must have at least 2 categories for comparison.".
Proof.
  unfold two_groups, frame_getitem.
  destruct (has_column f cat_col); [|intros [= <-]; discriminate].
  set (l := map (row_cell cat_col) (rows f)).
  cbv zeta. destruct (ttest_ind _ _) as [t_stat p].
  destruct (_ =? 0); [intros [= <-]; discriminate|].
  destruct (p <=? alpha); [|discriminate].
  destruct (interpret_passed CohensD
              (cohen_d
                 (group_values f cat_col (nth 0 (unique l) NoneCell) num_col)
                 (group_values f cat_col (nth 1 (unique l) NoneCell) num_col)
                 (pooled_std_value
                    (group_values f cat_col (nth 0 (unique l) NoneCell)
                       num_col)
                    (group_values f cat_col (nth 1 (unique l) NoneCell)
                       num_col)))) as (i & Hi & _).
  simpl in Hi. rewrite Hi. discriminate.
Qed.

Lemma many_groups_message (f : frame) (cat_col num_col : string)
    (alpha : float) (e : exn) :
  many_groups f cat_col num_col alpha = Raise e ->
  e <> ValueError
         "Categorical column must have at least 2 categories for comparison.".
Proof.
  unfold many_groups. cbv zeta.
  destruct (p_unc _) as [p|]; [|intros [= <-]; discriminate].
  destruct (np2 _) as [eta_squared|]; [|intros [= <-]; discriminate].
  destruct (p <=? alpha); [|discriminate].
  destruct (interpret_passed EtaSquared eta_squared) as (i & Hi & _).
  simpl in Hi. rewrite Hi. discriminate.
Qed.

End Runs2.

Section Categories.

Lemma unique_from_nil (seen values : list cell) :
  unique_from seen values = []
  <-> forall x, In x values -> existsb (cell_eqb x) seen = true.
Proof.
  revert seen. induction values as [|c values IH]; intros seen; simpl.
  - split; [intros _ x []|reflexivity].
  - destruct (existsb (cell_eqb c) seen) eqn:Ec.
    + rewrite IH. split.
      * intros Hall x [<-|Hx]; [exact Ec|exact (Hall x Hx)].
      * intros Hall x Hx. apply Hall. right. exact Hx.
    + split; [discriminate|].
      intros Hall. rewrite (Hall c) in Ec by (left; reflexivity).
      discriminate.
Qed.

Lemma unique_from_in (seen values : list cell) (x : cell) :
  In x (unique_from seen values) -> In x values.
Proof.
  revert seen. induction values as [|c values IH]; intros seen; simpl;
    [tauto|].
  destruct (existsb (cell_eqb c) seen).
  - intros Hx. right. exact (IH _ Hx).
  - intros [<-|Hx]; [left; reflexivity|right; exact (IH _ Hx)].
Qed.

(** Fewer than two distinct values: all the values are equal. *)
Lemma unique_below_two (values : list cell) :
  forallb notna values = true ->
  (List.length (unique values) < 2)%nat
  <-> forall a b, In a values -> In b values -> cell_eqb a b = true.
Proof.
  intros Hnotna. unfold unique. destruct values as [|c values]; simpl.
  - split; [intros _ a b []|lia].
  - simpl in Hnotna. apply andb_true_iff in Hnotna as [Hc Hvalues].
    pose proof (cell_eqb_refl c Hc) as Hcc.
    assert ((List.length (c :: unique_from [c] values) < 2)%nat
            <-> unique_from [c] values = []) as Hlen
      by (destruct (unique_from [c] values); simpl; split; intros Hx;
            try reflexivity; try lia; discriminate).
    etransitivity; [exact Hlen|].
    rewrite unique_from_nil. split.
    + intros Hall a b Ha Hb.
      assert (forall x, c = x \/ In x values -> cell_eqb x c = true) as Hto.
      { intros x [<-|Hx]; [exact Hcc|].
        specialize (Hall x Hx). simpl in Hall.
        rewrite orb_false_r in Hall. exact Hall. }
      apply (cell_eqb_trans a c b); [exact (Hto a Ha)|].
      rewrite cell_eqb_sym. exact (Hto b Hb).
    + intros Hall x Hx. simpl. rewrite orb_false_r.
      apply Hall; [right; exact Hx|left; reflexivity].
Qed.

End Categories.

Section Groups.

Context `{Libraries}.

Lemma cleaned_cats_notna (f cleaned : frame) (cat_col num_col : string) :
  clean_cat_num f cat_col num_col = Ok cleaned ->
  forallb notna (map (row_cell cat_col) (rows cleaned)) = true.
Proof.
  intros Hclean. apply forallb_forall.
  intros c (row & <- & Hrow)%in_map_iff.
  exact (proj1 (cleaned_cat_num_row _ _ _ _ row Hclean Hrow)).
Qed.

Lemma nunique_cleaned (f cleaned : frame) (cat_col num_col : string) :
  clean_cat_num f cat_col num_col = Ok cleaned ->
  nunique (map (row_cell cat_col) (rows cleaned))
  = Z.of_nat (List.length (unique (map (row_cell cat_col) (rows cleaned)))).
Proof.
  intros Hclean. unfold nunique.
  rewrite (filter_all _ _ (cleaned_cats_notna _ _ _ _ Hclean)). reflexivity.
Qed.

Lemma length_two_groups {A : Type} (p q : A -> bool) (l : list A) :
  (forall a, In a l -> xorb (p a) (q a) = true) ->
  (List.length (List.filter p l) + List.length (List.filter q l)
   = List.length l)%nat.
Proof.
  induction l as [|a l IH]; simpl; intros Hxor; [reflexivity|].
  pose proof (Hxor a (or_introl eq_refl)) as Ha.
  specialize (IH (fun b Hb => Hxor b (or_intror Hb))).
  destruct (p a), (q a); simpl in *; try discriminate; lia.
Qed.

(** In the cleaned frame the scores of a group are numbers. *)
Lemma group_values_numbers (f cleaned : frame) (cat_col num_col : string)
    (value : cell) :
  clean_cat_num f cat_col num_col = Ok cleaned ->
  all_numbers (group_values cleaned cat_col value num_col) = true.
Proof.
  intros Hclean. unfold all_numbers, group_values.
  apply forallb_forall. intros x (row & <- & [Hrow _]%filter_In)%in_map_iff.
  destruct (cleaned_cat_num_row _ _ _ _ row Hclean Hrow)
    as (_ & y & Hy & Hnan).
  unfold row_cell. rewrite Hy. simpl. rewrite Hnan. reflexivity.
Qed.

(** A distinct value of the categorical column has at least one row. *)
Lemma group_values_inhabited (f cleaned : frame) (cat_col num_col : string)
    (value : cell) :
  clean_cat_num f cat_col num_col = Ok cleaned ->
  In value (unique (map (row_cell cat_col) (rows cleaned))) ->
  group_values cleaned cat_col value num_col <> [].
Proof.
  intros Hclean (row & Hvalue & Hrow)%unique_from_in%in_map_iff.
  unfold group_values.
  assert (In row (List.filter
                    (fun row => cell_eqb (row_cell cat_col row) value)
                    (rows cleaned))) as Hin.
  { apply filter_In. split; [exact Hrow|]. rewrite Hvalue.
    apply cell_eqb_refl. subst value.
    exact (proj1 (cleaned_cat_num_row _ _ _ _ row Hclean Hrow)). }
  destruct (List.filter _ (rows cleaned)); [destruct Hin|discriminate].
Qed.


(** With exactly two categories every cleaned row is in exactly one of
    the two groups, and neither group is empty. *)
Lemma two_groups_split (f cleaned : frame) (cat_col num_col : string) :
  clean_cat_num f cat_col num_col = Ok cleaned ->
  nunique (map (row_cell cat_col) (rows cleaned)) = 2%Z ->
  let unique_vals := unique (map (row_cell cat_col) (rows cleaned)) in
  let group1 :=
    group_values cleaned cat_col (nth 0 unique_vals NoneCell) num_col in
  let group2 :=
    group_values cleaned cat_col (nth 1 unique_vals NoneCell) num_col in
  group1 <> [] /\ group2 <> []
  /\ all_numbers group1 = true /\ all_numbers group2 = true
  /\ (List.length group1 + List.length group2
      = List.length (rows cleaned))%nat
  /\ forall row, In row (rows cleaned) ->
       xorb (cell_eqb (row_cell cat_col row) (nth 0 unique_vals NoneCell))
            (cell_eqb (row_cell cat_col row) (nth 1 unique_vals NoneCell))
       = true.
Proof.
  intros Hclean Htwo unique_vals group1 group2.
  rewrite (nunique_cleaned _ _ _ _ Hclean) in Htwo. fold unique_vals in Htwo.
  apply (Nat2Z.inj _ 2) in Htwo.
  assert (forall row, In row (rows cleaned) ->
            xorb (cell_eqb (row_cell cat_col row) (nth 0 unique_vals NoneCell))
                 (cell_eqb (row_cell cat_col row) (nth 1 unique_vals NoneCell))
            = true) as Hxor.
  { intros row Hrow.
    pose proof (occurrences_unique_from (row_cell cat_col row) []
                  (map (row_cell cat_col) (rows cleaned))) as Hocc.
    fold (unique (map (row_cell cat_col) (rows cleaned))) in Hocc.
    fold unique_vals in Hocc. simpl in Hocc.
    assert (existsb (cell_eqb (row_cell cat_col row))
              (map (row_cell cat_col) (rows cleaned)) = true) as Hex.
    { apply existsb_exists. exists (row_cell cat_col row).
      split; [apply in_map, Hrow|].
      apply cell_eqb_refl.
      exact (proj1 (cleaned_cat_num_row _ _ _ _ row Hclean Hrow)). }
    rewrite Hex in Hocc. clearbody unique_vals.
    destruct unique_vals as [|u0 [|u1 [|u2 more]]]; try discriminate Htwo.
    rewrite !occurrences_cons in Hocc. simpl.
    unfold occurrences in Hocc. simpl in Hocc.
    destruct (cell_eqb (row_cell cat_col row) u0),
             (cell_eqb (row_cell cat_col row) u1);
      simpl; try reflexivity; lia. }
  assert (In (nth 0 unique_vals NoneCell) unique_vals
          /\ In (nth 1 unique_vals NoneCell) unique_vals) as [Hin0 Hin1].
  { clearbody unique_vals.
    destruct unique_vals as [|u0 [|u1 [|u2 more]]]; try discriminate Htwo.
    simpl. auto. }
  split; [exact (group_values_inhabited _ _ _ _ _ Hclean Hin0)|].
  split; [exact (group_values_inhabited _ _ _ _ _ Hclean Hin1)|].
  split; [exact (group_values_numbers _ _ _ _ _ Hclean)|].
  split; [exact (group_values_numbers _ _ _ _ _ Hclean)|].
  split; [|exact Hxor].
  unfold group1, group2, group_values. rewrite !length_map.
  exact (length_two_groups _ _ _ Hxor).
Qed.

End Groups.


(** ** Cohen's d *)


(** X3.  Once the cleaning of [cat_on_num_effect_size] succeeds, the
    call fails with "Categorical column must have at least 2 categories
    for comparison." exactly when the categorical column of the cleaned
    table has fewer than two distinct values, that is, exactly when all
    the rows that are left (possibly none) have the same category.  No
    other failure of the call carries this message. *)
Theorem too_few_categories `{Libraries}
    (l : loc) (cat_col num_col : string) (alpha : float) (st : store)
    (cleaned : frame) :
  clean_cat_num (at_loc st l) cat_col num_col = Ok cleaned ->
  let failure :=
    Raise (ValueError
      "Categorical column must have at least 2 categories for comparison.") in
  let cats := map (row_cell cat_col) (rows cleaned) in
  (fst (cat_on_num_effect_size l cat_col num_col alpha st) = failure
   <-> (nunique cats < 2)%Z)
  /\ ((nunique cats < 2)%Z
      <-> forall row row' : gmap string cell,
            In row (rows cleaned) -> In row' (rows cleaned) ->
            cell_eqb (row_cell cat_col row) (row_cell cat_col row') = true).
Proof.
  intros Hclean failure cats. split.
  - destruct (cat_on_num_cleaned_run l cat_col num_col alpha st cleaned Hclean)
      as (f1 & _ & ->).
    fold cats. destruct (Z.ltb_spec (nunique cats) 2) as [Hlt|Hge].
    + split; [intros _; exact Hlt|reflexivity].
    + split; [|lia]. intros Hfail. exfalso.
      destruct (nunique cats =? 2)%Z.
      * destruct (two_groups cleaned cat_col num_col alpha) as [t|e] eqn:E;
          [discriminate|].
        apply (two_groups_message _ _ _ _ _ E). simpl in Hfail.
        injection Hfail as ->. reflexivity.
      * destruct (many_groups cleaned cat_col num_col alpha) as [t|e] eqn:E;
          [discriminate|].
        apply (many_groups_message _ _ _ _ _ E). simpl in Hfail.
        injection Hfail as ->. reflexivity.
  - unfold cats. rewrite (nunique_cleaned _ _ _ _ Hclean).
    rewrite <- (Nat2Z.inj_lt _ 2).
    rewrite (unique_below_two _ (cleaned_cats_notna _ _ _ _ Hclean)).
    split.
    + intros Hall row row' Hrow Hrow'.
      apply Hall; apply in_map; assumption.
    + intros Hall a b (row & <- & Hrow)%in_map_iff
        (row' & <- & Hrow')%in_map_iff.
      exact (Hall row row' Hrow Hrow').
Qed.

Lemma too_few_categories_witness :
  let L := Fixture.libraries 1 0.01 in
  let st :=
    [Fixture.table "Group" "Score"
       [(Str "A", Num 1); (Str "A", Str "2"); (Str "B", Str "n/a")]] in
  let cleaned :=
    Fixture.returned empty_frame
      (clean_cat_num (at_loc st 0) "Group" "Score") in
  let failure :=
    Raise (ValueError
      "Categorical column must have at least 2 categories for comparison.") in
  clean_cat_num (at_loc st 0) "Group" "Score" = Ok cleaned
  /\ List.length (rows cleaned) = 2%nat
  /\ fst (cat_on_num_effect_size 0 "Group" "Score" 0.05 st) = failure.
Proof.
  cbv zeta.
  assert (clean_cat_num (H := Fixture.libraries 1 0.01)
            (at_loc
               [Fixture.table "Group" "Score"
                  [(Str "A", Num 1); (Str "A", Str "2");
                   (Str "B", Str "n/a")]] 0) "Group" "Score"
          = Ok (Fixture.returned empty_frame
                  (clean_cat_num (H := Fixture.libraries 1 0.01)
                     (at_loc
                        [Fixture.table "Group" "Score"
                           [(Str "A", Num 1); (Str "A", Str "2");
                            (Str "B", Str "n/a")]] 0) "Group" "Score")))
    as Hclean by reflexivity.
  split; [exact Hclean|]. split; [reflexivity|].
  apply (proj1 (too_few_categories (H := Fixture.libraries 1 0.01)
                  0 "Group" "Score" 0.05 _ _ Hclean)).
  vm_compute. reflexivity.
Defined.


(** X4.  In the branch of exactly two categories the two groups that
    are handed to [ttest_ind], [series.var] and [series.mean] are both
    non-empty, hold no NaN, and together are all the rows of the cleaned
    table: every cleaned row is in exactly one of them. *)
Theorem two_groups_split_cleaned_rows `{Libraries}
    (f cleaned : frame) (cat_col num_col : string) :
  clean_cat_num f cat_col num_col = Ok cleaned ->
  nunique (map (row_cell cat_col) (rows cleaned)) = 2%Z ->
  let unique_vals := unique (map (row_cell cat_col) (rows cleaned)) in
  let group1 :=
    group_values cleaned cat_col (nth 0 unique_vals NoneCell) num_col in
  let group2 :=
    group_values cleaned cat_col (nth 1 unique_vals NoneCell) num_col in
  group1 <> [] /\ group2 <> []
  /\ all_numbers group1 = true /\ all_numbers group2 = true
  /\ (List.length group1 + List.length group2
      = List.length (rows cleaned))%nat
  /\ forall row, In row (rows cleaned) ->
       xorb (cell_eqb (row_cell cat_col row) (nth 0 unique_vals NoneCell))
            (cell_eqb (row_cell cat_col row) (nth 1 unique_vals NoneCell))
       = true.
Proof.
  intros Hclean Htwo.
  exact (two_groups_split f cleaned cat_col num_col Hclean Htwo).
Qed.

Lemma two_groups_split_cleaned_rows_witness :
  let L := Fixture.libraries 1 0.01 in
  let f :=
    Fixture.table "Group" "Score"
      [(Str "B", Str "4"); (Str "A", Num 1); (Str "B", Str "n/a");
       (Str "A", Num 3); (NoneCell, Num 2)] in
  let cleaned :=
    Fixture.returned empty_frame (clean_cat_num f "Group" "Score") in
  clean_cat_num f "Group" "Score" = Ok cleaned
  /\ group_values cleaned "Group" (Str "B") "Score" = [4]
  /\ group_values cleaned "Group" (Str "A") "Score" = [1; 3]
  /\ List.length (rows cleaned) = 3%nat.
Proof.
  cbv zeta.
  assert (clean_cat_num (H := Fixture.libraries 1 0.01)
            (Fixture.table "Group" "Score"
               [(Str "B", Str "4"); (Str "A", Num 1); (Str "B", Str "n/a");
                (Str "A", Num 3); (NoneCell, Num 2)]) "Group" "Score"
          = Ok (Fixture.returned empty_frame
                  (clean_cat_num (H := Fixture.libraries 1 0.01)
                     (Fixture.table "Group" "Score"
                        [(Str "B", Str "4"); (Str "A", Num 1);
                         (Str "B", Str "n/a"); (Str "A", Num 3);
                         (NoneCell, Num 2)]) "Group" "Score")))
    as Hclean by reflexivity.
  split; [exact Hclean|].
  pose proof (two_groups_split_cleaned_rows (H := Fixture.libraries 1 0.01)
                _ _ "Group" "Score" Hclean ltac:(vm_compute; reflexivity))
    as (_ & _ & _ & _ & Hlen & _).
  split; [vm_compute; reflexivity|]. split; [vm_compute; reflexivity|].
  rewrite <- Hlen. vm_compute. reflexivity.
Defined.



(** X6.  A column name that the table does not have makes each analyzer
    fail with a [KeyError] and no result.  For [cat_on_cat_effect_size]
    and [correlation_effect_size] the key is the first of the two names
    that is missing; [cat_on_num_effect_size] reads its numeric column
    first, so a missing numeric column is the key even when the
    categorical column is missing too, and a missing categorical column
    is found by [dropna], whose [KeyError] holds the list of the
    missing names. *)
Theorem missing_column_is_key_error `{Libraries}
    (l : loc) (col1 col2 : string) (alpha : float) (st : store) :
  has_column (at_loc st l) col1 = false
  \/ has_column (at_loc st l) col2 = false ->
  let key := if has_column (at_loc st l) col1 then col2 else col1 in
  fst (cat_on_cat_effect_size l col1 col2 alpha st) = Raise (KeyError key)
  /\ fst (correlation_effect_size l col1 col2 alpha st)
     = Raise (KeyError key)
  /\ (has_column (at_loc st l) col2 = true ->
      fst (cat_on_num_effect_size l col1 col2 alpha st)
      = Raise (KeyErrorList [col1]))
  /\ (has_column (at_loc st l) col2 = false ->
      fst (cat_on_num_effect_size l col1 col2 alpha st)
      = Raise (KeyError col2)).
Proof.
  intros Hmissing. cbv zeta.
  rewrite cat_on_cat_run, correlation_run, cat_on_num_run. cbv zeta.
  set (f := at_loc st l) in *.
  assert (forall col, has_column f col = false ->
            coerce_column f col = Raise (KeyError col)) as Hcoerce.
  { intros col Hcol. unfold coerce_column, frame_getitem.
    rewrite Hcol. reflexivity. }
  split; [|split; [|split]].
  - unfold frame_getitem.
    destruct (has_column f col1) eqn:E1; [|reflexivity].
    destruct Hmissing as [?| ->]; [discriminate|reflexivity].
  - destruct (has_column f col1) eqn:E1.
    + destruct Hmissing as [?|E2]; [discriminate|].
      destruct (coerce_column f col1) as [f1|] eqn:Ec;
        [|unfold coerce_column, frame_getitem in Ec; rewrite E1 in Ec;
          discriminate].
      apply coerce_column_spec in Ec as (_ & Hcols & _).
      unfold coerce_column at 1, frame_getitem.
      rewrite (has_column_columns f1 f col2 Hcols), E2. reflexivity.
    + rewrite (Hcoerce col1 E1). reflexivity.
  - intros E2.
    destruct Hmissing as [E1|E2']; [|rewrite E2 in E2'; discriminate].
    destruct (coerce_column f col2) as [f1|] eqn:Ec;
      [|unfold coerce_column, frame_getitem in Ec; rewrite E2 in Ec;
        discriminate].
    apply coerce_column_spec in Ec as (_ & Hcols & _).
    unfold frame_dropna. simpl.
    rewrite (has_column_columns f1 f col1 Hcols), E1.
    rewrite (has_column_columns f1 f col2 Hcols), E2. reflexivity.
  - intros E2. rewrite (Hcoerce col2 E2). reflexivity.
Qed.

Lemma missing_column_is_key_error_witness :
  let L := Fixture.libraries 1 0.01 in
  let st := [Fixture.measurements] in
  has_column (at_loc st 0) "x" = true
  /\ has_column (at_loc st 0) "z" = false
  /\ fst (cat_on_cat_effect_size 0 "x" "z" 0.05 st) = Raise (KeyError "z")
  /\ fst (correlation_effect_size 0 "x" "z" 0.05 st) = Raise (KeyError "z")
  /\ fst (cat_on_num_effect_size 0 "x" "z" 0.05 st) = Raise (KeyError "z")
  /\ fst (cat_on_num_effect_size 0 "z" "y" 0.05 st)
     = Raise (KeyErrorList ["z"]).
Proof.
  cbv zeta. split; [reflexivity|]. split; [reflexivity|].
  pose proof (missing_column_is_key_error (H := Fixture.libraries 1 0.01)
                0 "x" "z" 0.05 [Fixture.measurements]
                (or_intror eq_refl)) as (Hcc & Hcorr & _ & Hcn).
  pose proof (missing_column_is_key_error (H := Fixture.libraries 1 0.01)
                0 "z" "y" 0.05 [Fixture.measurements]
                (or_introl eq_refl)) as (_ & _ & Hlist & _).
  split; [exact Hcc|]. split; [exact Hcorr|].
  split; [exact (Hcn eq_refl)|exact (Hlist eq_refl)].
Defined.

(** X7.  The table an analyzer returns is already clean: calling the
    same analyzer again on the returned table and columns gives the same
    result text, and the table it returns this time is equal to the one
    it was given. *)
Theorem cleaned_table_is_a_fixed_point `{Libraries}
    (analyzer : loc -> string -> string -> float ->
                M (text * loc * string * string))
    (l l' : loc) (col1 col2 a b : string) (alpha : float)
    (st st' : store) (result_text : text) :
  analyzer = cat_on_num_effect_size \/ analyzer = correlation_effect_size ->
  analyzer l col1 col2 alpha st = (Ok (result_text, l', a, b), st') ->
  analyzer l' a b alpha st'
  = (Ok (result_text, S (List.length st'), a, b),
     st' ++ [at_loc st' l'; at_loc st' l']).
Proof.
  intros [-> | ->] Hrun.
  - destruct (clean_cat_num (at_loc st l) col1 col2) as [cleaned|] eqn:Hclean.
    + destruct (cat_on_num_cleaned_run l col1 col2 alpha st cleaned Hclean)
        as (f1 & _ & Hfirst).
      rewrite Hfirst in Hrun.
      destruct (_ <? 2)%Z eqn:Elt; [discriminate|].
      destruct (if (_ =? 2)%Z then _ else _) as [t|] eqn:Ebranch;
        [|discriminate].
      injection Hrun as <- <- <- <- <-.
      rewrite at_loc_second.
      pose proof (clean_cat_num_fixed _ _ _ _ Hclean) as Hfixed.
      rewrite <- (at_loc_second st f1 cleaned) in Hfixed at 1.
      destruct (cat_on_num_cleaned_run (S (List.length st)) col1 col2 alpha
                  (st ++ [f1; cleaned]) cleaned Hfixed)
        as (f1' & Hcoerce & ->).
      rewrite at_loc_second in Hcoerce.
      rewrite coerce_column_fixed in Hcoerce.
      * injection Hcoerce as <-. rewrite Elt, Ebranch. reflexivity.
      * pose proof (clean_cat_num_spec _ _ _ _ Hclean)
          as (_ & Hnum & Hcols & _).
        rewrite (has_column_columns cleaned _ _ Hcols). exact Hnum.
      * intros row Hrow.
        destruct (cleaned_cat_num_row _ _ _ _ row Hclean Hrow)
          as (_ & x & Hx & _).
        eauto.
    + exfalso. rewrite cat_on_num_run in Hrun. cbv zeta in Hrun.
      unfold clean_cat_num in Hclean.
      destruct (coerce_column _ col2); [|discriminate].
      rewrite Hclean in Hrun. discriminate.
  - destruct (clean_num_num (at_loc st l) col1 col2) as [cleaned|] eqn:Hclean.
    + destruct (correlation_cleaned_run l col1 col2 alpha st cleaned Hclean)
        as (f1 & f2 & _ & _ & Hfirst).
      rewrite Hfirst in Hrun.
      destruct (_ <? 2)%Z eqn:Elt; [discriminate|].
      cbv zeta in Hrun.
      destruct (if _ <=? alpha then _ else _) as [t|] eqn:Ebranch;
        [|discriminate].
      injection Hrun as <- <- <- <- <-.
      rewrite at_loc_second.
      pose proof (clean_num_num_fixed _ _ _ _ Hclean) as Hfixed.
      rewrite <- (at_loc_second st f2 cleaned) in Hfixed at 1.
      destruct (correlation_cleaned_run (S (List.length st)) col1 col2 alpha
                  (st ++ [f2; cleaned]) cleaned Hfixed)
        as (f1' & f2' & Hcoerce1 & Hcoerce2 & ->).
      rewrite at_loc_second in Hcoerce1.
      pose proof (clean_num_num_spec _ _ _ _ Hclean)
        as (H1 & H2 & Hcols & _).
      rewrite coerce_column_fixed in Hcoerce1.
      * injection Hcoerce1 as <-.
        rewrite coerce_column_fixed in Hcoerce2.
        -- injection Hcoerce2 as <-. rewrite Elt. cbv zeta.
           rewrite Ebranch. reflexivity.
        -- rewrite (has_column_columns cleaned _ _ Hcols). exact H2.
        -- intros row Hrow.
           destruct (cleaned_num_num_row _ _ _ _ row Hclean Hrow)
             as (_ & y & Hy & _). eauto.
      * rewrite (has_column_columns cleaned _ _ Hcols). exact H1.
      * intros row Hrow.
        destruct (cleaned_num_num_row _ _ _ _ row Hclean Hrow)
          as ((x & Hx & _) & _). eauto.
    + exfalso. rewrite correlation_run in Hrun. cbv zeta in Hrun.
      unfold clean_num_num in Hclean.
      destruct (coerce_column _ col1) as [f1|]; [|discriminate].
      destruct (coerce_column f1 col2); [|discriminate].
      rewrite Hclean in Hrun. discriminate.
Qed.

Lemma cleaned_table_is_a_fixed_point_witness :
  let L := Fixture.libraries 1 0.01 in
  let first := correlation_effect_size 0 "x" "y" 0.05 [Fixture.measurements] in
  let result_text :=
    significant "Pearson's r" 1 (Some "perfect correlation") 0.01 in
  first = (Ok (result_text, 2%nat, "x", "y"), snd first)
  /\ correlation_effect_size 2 "x" "y" 0.05 (snd first)
     = (Ok (result_text, S (List.length (snd first)), "x", "y"),
        snd first ++ [at_loc (snd first) 2; at_loc (snd first) 2]).
Proof.
  cbv zeta.
  assert (correlation_effect_size (H := Fixture.libraries 1 0.01)
            0 "x" "y" 0.05 [Fixture.measurements]
          = (Ok (significant "Pearson's r" 1 (Some "perfect correlation")
                   0.01, 2%nat, "x", "y"),
             snd (correlation_effect_size (H := Fixture.libraries 1 0.01)
                    0 "x" "y" 0.05 [Fixture.measurements])))
    as Hrun by (apply injective_projections; vm_compute; reflexivity).
  split; [exact Hrun|].
  exact (cleaned_table_is_a_fixed_point (H := Fixture.libraries 1 0.01)
           correlation_effect_size _ _ _ _ _ _ _ _ _ _
           (or_intror eq_refl) Hrun).
Defined.

(** X8.  The table [cat_on_num_effect_size] and
    [correlation_effect_size] return is a new frame object, with the
    columns of the caller's table and, in the same order, the caller's
    rows with the numeric column (both columns, for the correlation)
    coerced to numbers, less the rows with a missing value in either
    selected column; the two column names come back as they were
    given. *)
Theorem returned_table_is_cleaned_copy `{Libraries}
    (analyzer : loc -> string -> string -> float ->
                M (text * loc * string * string))
    (coerce : gmap string cell -> gmap string cell)
    (l l' : loc) (col1 col2 a b : string) (alpha : float)
    (st st' : store) (result_text : text) :
  (analyzer = cat_on_num_effect_size /\ coerce = coerced_row col2)
  \/ (analyzer = correlation_effect_size
      /\ coerce = fun row => coerced_row col2 (coerced_row col1 row)) ->
  analyzer l col1 col2 alpha st = (Ok (result_text, l', a, b), st') ->
  l' = S (List.length st) /\ a = col1 /\ b = col2
  /\ columns (at_loc st' l') = columns (at_loc st l)
  /\ rows (at_loc st' l')
     = List.filter (complete_on [col1; col2])
         (map coerce (rows (at_loc st l)))
  /\ forall row, In row (rows (at_loc st' l')) ->
       notna (row_cell col1 row) = true /\ notna (row_cell col2 row) = true.
Proof.
  assert (forall rs row,
            In row (List.filter (complete_on [col1; col2]) rs) ->
            notna (row_cell col1 row) = true
            /\ notna (row_cell col2 row) = true) as Hcomplete.
  { intros rs row [_ Hc]%filter_In. unfold complete_on in Hc.
    simpl in Hc. apply andb_true_iff in Hc as [Hc1 Hc2%andb_true_iff].
    split; [exact Hc1|exact (proj1 Hc2)]. }
  intros [[-> ->]|[-> ->]] Hrun.
  - destruct (clean_cat_num (at_loc st l) col1 col2) as [cleaned|] eqn:Hclean.
    + destruct (cat_on_num_cleaned_run l col1 col2 alpha st cleaned Hclean)
        as (f1 & _ & Hfirst).
      rewrite Hfirst in Hrun.
      destruct (_ <? 2)%Z; [discriminate|].
      destruct (if (_ =? 2)%Z then _ else _); [|discriminate].
      injection Hrun as <- <- <- <- <-.
      rewrite at_loc_second.
      pose proof (clean_cat_num_spec _ _ _ _ Hclean)
        as (_ & _ & Hcols & Hrows).
      split; [reflexivity|]. split; [reflexivity|]. split; [reflexivity|].
      split; [exact Hcols|]. split; [exact Hrows|].
      intros row Hrow. rewrite Hrows in Hrow. exact (Hcomplete _ row Hrow).
    + exfalso. rewrite cat_on_num_run in Hrun. cbv zeta in Hrun.
      unfold clean_cat_num in Hclean.
      destruct (coerce_column _ col2); [|discriminate].
      rewrite Hclean in Hrun. discriminate.
  - destruct (clean_num_num (at_loc st l) col1 col2) as [cleaned|] eqn:Hclean.
    + destruct (correlation_cleaned_run l col1 col2 alpha st cleaned Hclean)
        as (f1 & f2 & _ & _ & Hfirst).
      rewrite Hfirst in Hrun.
      destruct (_ <? 2)%Z; [discriminate|].
      cbv zeta in Hrun.
      destruct (if _ <=? alpha then _ else _); [|discriminate].
      injection Hrun as <- <- <- <- <-.
      rewrite at_loc_second.
      pose proof (clean_num_num_spec _ _ _ _ Hclean)
        as (_ & _ & Hcols & Hrows).
      split; [reflexivity|]. split; [reflexivity|]. split; [reflexivity|].
      split; [exact Hcols|]. split; [exact Hrows|].
      intros row Hrow. rewrite Hrows in Hrow. exact (Hcomplete _ row Hrow).
    + exfalso. rewrite correlation_run in Hrun. cbv zeta in Hrun.
      unfold clean_num_num in Hclean.
      destruct (coerce_column _ col1) as [f1|]; [|discriminate].
      destruct (coerce_column f1 col2); [|discriminate].
      rewrite Hclean in Hrun. discriminate.
Qed.

Lemma returned_table_is_cleaned_copy_witness :
  let L := Fixture.libraries 1 0.01 in
  let st :=
    [Fixture.table "x" "y"
       [(Num 1, Str "5"); (Str "two", Str "7"); (Num 3, Str "9");
        (Num 4, NoneCell); (Str "5", Num 11)]] in
  let first := correlation_effect_size 0 "x" "y" 0.05 st in
  let result_text :=
    significant "Pearson's r" 1 (Some "perfect correlation") 0.01 in
  first = (Ok (result_text, 2%nat, "x", "y"), snd first)
  /\ map (fun row => (row_cell "x" row, row_cell "y" row))
       (rows (at_loc (snd first) 2))
     = [(Num 1, Num 5); (Num 3, Num 9); (Num 5, Num 11)]
  /\ at_loc (snd first) 0 = at_loc st 0.
Proof.
  cbv zeta.
  assert (correlation_effect_size (H := Fixture.libraries 1 0.01)
            0 "x" "y" 0.05
            [Fixture.table "x" "y"
               [(Num 1, Str "5"); (Str "two", Str "7"); (Num 3, Str "9");
                (Num 4, NoneCell); (Str "5", Num 11)]]
          = (Ok (significant "Pearson's r" 1 (Some "perfect correlation")
                   0.01, 2%nat, "x", "y"),
             snd (correlation_effect_size (H := Fixture.libraries 1 0.01)
                    0 "x" "y" 0.05
                    [Fixture.table "x" "y"
                       [(Num 1, Str "5"); (Str "two", Str "7");
                        (Num 3, Str "9"); (Num 4, NoneCell);
                        (Str "5", Num 11)]])))
    as Hrun by (apply injective_projections; vm_compute; reflexivity).
  split; [exact Hrun|].
  destruct (returned_table_is_cleaned_copy (H := Fixture.libraries 1 0.01)
              correlation_effect_size _ _ _ _ _ _ _ _ _ _ _
              (or_intror (conj eq_refl eq_refl)) Hrun)
    as (_ & _ & _ & _ & Hrows & _).
  split; [rewrite Hrows; vm_compute; reflexivity|].
  vm_compute. reflexivity.
Defined.

(** * The window *)

Section Dispatch.

Context `{Libraries}.

(** The method of the window shows what [calculate_effect_size] on the
    inputs read from the window says: the same message box or result
    text, and the same store afterwards. *)
Lemma window_calculation_agrees (s : EffectSizeCalculator.state)
    (st : list frame) :
  let on_inputs :=
    calculate_effect_size (EffectSizeCalculator.inputs s) st in
  let on_window := EffectSizeCalculator.calculate_effect_size s st in
  on_inputs.2 = on_window.1.2
  /\ match on_inputs.1 with
     | Ok (WarningBox msg) =>
         on_window.2 = [EffectSizeCalculator.Warning msg]
     | Ok (CriticalBox msg) =>
         on_window.2 = [EffectSizeCalculator.Critical msg]
     | Ok (ExceptionBox e) =>
         on_window.2 = [EffectSizeCalculator.CriticalError e]
     | Ok (ResultLabel result_text) =>
         on_window.2 = []
         /\ EffectSizeCalculator.result_label on_window.1.1 = result_text
     | Raise _ => False
     end.
Proof.
  cbv zeta.
  unfold calculate_effect_size, EffectSizeCalculator.calculate_effect_size,
    dispatch, EffectSizeCalculator.inputs.
  simpl.
  destruct (EffectSizeCalculator.df s) as [l|]; [|split; reflexivity].
  cbv zeta. simpl.
  destruct (py_float (EffectSizeCalculator.alpha_entry s)) as [alpha|];
    [|split; reflexivity].
  destruct (String.eqb _ _); [split; reflexivity|].
  destruct (run_analyzer _ st) as [[t|e] st']; simpl; auto.
Qed.

End Dispatch.

(** * Properties of the plots and of the window *)

Import EffectSizeCalculator.

Section Plots.

Lemma update_plot_options_items (s : state) :
  items (plot_type_menu (update_plot_options s))
  = plot_types (currentText (effect_type_menu s)).
Proof.
  unfold update_plot_options, plot_types. cbv zeta.
  destruct (String.eqb _ "Categorical on Categorical"); [reflexivity|].
  destruct (String.eqb _ "Categorical on Numerical"); [reflexivity|].
  destruct (String.eqb _ "Numerical Correlation"); reflexivity.
Qed.

Lemma in_effect_types (effect_type : string) :
  In effect_type effect_types ->
  effect_type = "Categorical on Categorical"
  \/ effect_type = "Categorical on Numerical"
  \/ effect_type = "Numerical Correlation".
Proof. simpl. intuition auto. Qed.

End Plots.

(** X9.  The plot types that [update_plot_options] offers for the
    effect type shown in the menu are the ones that the plot function
    draws for that effect type: with the columns in the table,
    [show_plot]'s figure for plot data of the same effect type has one
    chart (two for a scatter plot with the regression box checked).  For
    plot data of another effect type, which stay in place when the user
    changes the effect type after a calculation, none of the offered
    plot types is known to the plot function: the figure has a title and
    labels and no chart. *)
Theorem offered_plot_types_are_drawn
    (s : state) (st : list frame) (l : nat)
    (col1 col2 effect_type plot_type : string) (regression_checked : bool) :
  In (currentText (effect_type_menu s)) effect_types ->
  In effect_type effect_types ->
  has_column (at_loc st l) col1 = true ->
  has_column (at_loc st l) col2 = true ->
  In plot_type (items (plot_type_menu (update_plot_options s))) ->
  exists fig : figure,
    build_figure (l, col1, col2, effect_type) plot_type regression_checked st
    = Ok fig
    /\ (effect_type = currentText (effect_type_menu s) ->
        List.length (charts fig)
        = if regression_checked && String.eqb plot_type "Scatter Plot"
          then 2%nat else 1%nat)
    /\ (effect_type <> currentText (effect_type_menu s) ->
        charts fig = []).
Proof.
  intros Hshown Hstored H1 H2. rewrite update_plot_options_items.
  apply in_effect_types in Hshown, Hstored.
  unfold build_figure, show_pearsons_r_plot, frame_getitem.
  rewrite H1, H2.
  destruct Hshown as [-> | [-> | ->]];
    (intros [<- | [<- | [<- | []]]]);
    destruct Hstored as [-> | [-> | ->]];
    destruct regression_checked;
    (eexists; split; [reflexivity|]);
    (split; [intros Heq; try discriminate Heq; reflexivity
            |intros Hne; try reflexivity; exfalso; apply Hne; reflexivity]).
Qed.

Lemma offered_plot_types_are_drawn_witness :
  let s := init in
  let st := [Fixture.outcomes] in
  exists fig : figure,
    build_figure (0%nat, "Group", "Outcome", "Categorical on Categorical")
      "Heatmap" false st = Ok fig
    /\ charts fig
       = [Heatmap
            (crosstab (map (row_cell "Group") (rows Fixture.outcomes))
               (map (row_cell "Outcome") (rows Fixture.outcomes)))].
Proof.
  cbv zeta.
  destruct (offered_plot_types_are_drawn init [Fixture.outcomes] 0
              "Group" "Outcome" "Categorical on Categorical" "Heatmap" false)
    as (fig & Hfig & _); try (vm_compute; tauto); try reflexivity.
  exists fig. split; [exact Hfig|].
  unfold build_figure in Hfig.
  change (at_loc [Fixture.outcomes] 0) with Fixture.outcomes in Hfig.
  simpl in Hfig. injection Hfig as <-. reflexivity.
Defined.

(** X10.  [show_pearsons_r_plot] draws the red regression line exactly
    when the plot type is "Scatter Plot" and [add_regression] is set:
    for the hexbin and the regression plot, and for any other plot
    type, the check box makes no difference to the figure. *)
Theorem regression_line_only_on_scatter
    (df : frame) (col1 col2 plot_type : string) (add_regression : bool)
    (fig : figure) :
  show_pearsons_r_plot df col1 col2 plot_type add_regression = Ok fig ->
  (In (RegPlot col1 col2 df false (Some "red")) fig
   <-> plot_type = "Scatter Plot" /\ add_regression = true)
  /\ (plot_type <> "Scatter Plot" ->
      show_pearsons_r_plot df col1 col2 plot_type (negb add_regression)
      = Ok fig).
Proof.
  unfold show_pearsons_r_plot.
  destruct (String.eqb_spec plot_type "Scatter Plot") as [->|Hne].
  - destruct (frame_getitem df col1) as [xs|]; [|discriminate].
    destruct (frame_getitem df col2) as [ys|]; [|discriminate].
    destruct add_regression; intros [= <-]; simpl.
    + split; [|intros Hne; contradiction]. split; [auto|]. intros _. auto.
    + split; [|intros Hne; contradiction]. split; [|intros [_ ?]; discriminate].
      intros [?|[?|[?|[?|[?|[]]]]]]; discriminate.
  - intros Hfig. split; [|intros _; exact Hfig].
    split; [|intros [? _]; contradiction]. intros Hin. exfalso.
    destruct (String.eqb plot_type "Hexbin Plot").
    + destruct (frame_getitem df col1) as [xs|]; [|discriminate].
      destruct (frame_getitem df col2) as [ys|]; [|discriminate].
      injection Hfig as <-. simpl in Hin.
      destruct Hin as [?|[?|[?|[?|[?|[]]]]]]; discriminate.
    + destruct (String.eqb plot_type "Regression Plot");
        injection Hfig as <-; simpl in Hin.
      * destruct Hin as [?|[?|[?|[?|[?|[]]]]]]; discriminate.
      * destruct Hin as [?|[?|[?|[?|[]]]]]; discriminate.
Qed.

Lemma regression_line_only_on_scatter_witness :
  let fig :=
    Fixture.returned []
      (show_pearsons_r_plot Fixture.measurements "x" "y" "Hexbin Plot" true) in
  show_pearsons_r_plot Fixture.measurements "x" "y" "Hexbin Plot" true = Ok fig
  /\ ~ In (RegPlot "x" "y" Fixture.measurements false (Some "red")) fig
  /\ show_pearsons_r_plot Fixture.measurements "x" "y" "Hexbin Plot" false
     = Ok fig.
Proof.
  cbv zeta.
  assert (show_pearsons_r_plot Fixture.measurements "x" "y" "Hexbin Plot" true
          = Ok (Fixture.returned []
                  (show_pearsons_r_plot Fixture.measurements "x" "y"
                     "Hexbin Plot" true))) as Hfig by reflexivity.
  split; [exact Hfig|].
  destruct (regression_line_only_on_scatter _ _ _ _ _ _ Hfig)
    as [Hiff Hsame].
  split.
  - intros Hin. apply Hiff in Hin as [Hplot _]. discriminate Hplot.
  - apply Hsame. discriminate.
Defined.

(** ** The store under the window's methods *)

Section WindowStore.

Context `{Libraries} `{Files}.

Lemma cat_on_cat_appends (l : nat) (col1 col2 : string) (alpha : float)
    (st : list frame) :
  exists created : list frame,
    (cat_on_cat_effect_size l col1 col2 alpha st).2 = st ++ created.
Proof.
  assert (st = st ++ []) as Hnil by (symmetry; apply app_nil_r).
  rewrite cat_on_cat_run. cbv zeta.
  destruct (frame_getitem _ col1); [|simpl; eauto].
  destruct (frame_getitem _ col2); [|simpl; eauto].
  destruct (chi2_contingency _) as [[[[chi2 p] dof] expected]|];
    [|simpl; eauto].
  destruct (p <=? alpha); [|simpl; eauto].
  destruct (interpret_effect_size _ _); simpl; eauto.
Qed.

Lemma cat_on_num_appends (l : nat) (col1 col2 : string) (alpha : float)
    (st : list frame) :
  exists created : list frame,
    (cat_on_num_effect_size l col1 col2 alpha st).2 = st ++ created.
Proof.
  rewrite cat_on_num_run. cbv zeta.
  destruct (coerce_column _ col2); [|simpl; eauto].
  destruct (frame_dropna _ _); [|simpl; eauto].
  destruct (frame_getitem _ col1); [|simpl; eauto].
  destruct (_ <? 2)%Z; [simpl; eauto|].
  destruct (if (_ =? 2)%Z then _ else _); simpl; eauto.
Qed.

Lemma correlation_appends (l : nat) (col1 col2 : string) (alpha : float)
    (st : list frame) :
  exists created : list frame,
    (correlation_effect_size l col1 col2 alpha st).2 = st ++ created.
Proof.
  rewrite correlation_run. cbv zeta.
  destruct (coerce_column _ col1) as [f1|]; [|simpl; eauto].
  destruct (coerce_column f1 col2); [|simpl; eauto].
  destruct (frame_dropna _ _) as [f3|]; [|simpl; eauto].
  destruct (_ <? 2)%Z; [simpl; eauto|].
  destruct (frame_getitem f3 col1); [|simpl; eauto].
  destruct (frame_getitem f3 col2); [|simpl; eauto].
  destruct (pearsonr _ _) as [r p].
  destruct (p <=? alpha); [|simpl; eauto].
  destruct (interpret_effect_size _ _); simpl; eauto.
Qed.

Lemma run_analyzer_appends (c : analyzer_call) (st : list frame) :
  exists created : list frame, (run_analyzer c st).2 = st ++ created.
Proof.
  destruct c as [l c1 c2 alpha|l c1 c2 alpha|l c1 c2 alpha];
    unfold run_analyzer, bind;
    [destruct (cat_on_cat_appends l c1 c2 alpha st) as [created Hc]
    |destruct (cat_on_num_appends l c1 c2 alpha st) as [created Hc]
    |destruct (correlation_appends l c1 c2 alpha st) as [created Hc]];
    exists created;
    match goal with
    | |- context [match ?x with _ => _ end] =>
        destruct x as [[[[[t x1] a] b]|e] st']
    end; exact Hc.
Qed.

Lemma getitem_ok_has_column (f : frame) (col : string) (series : list cell) :
  frame_getitem f col = Ok series -> has_column f col = true.
Proof.
  unfold frame_getitem. destruct (has_column f col); [reflexivity|discriminate].
Qed.

(** An analyzer that returns has found both columns in the table. *)
Lemma run_analyzer_columns (effect_type : string) (l : nat)
    (col1 col2 : string) (alpha : float) (st st' : list frame) (t : text) :
  run_analyzer (select_analyzer effect_type l col1 col2 alpha) st
  = (Ok t, st') ->
  has_column (at_loc st l) col1 = true /\ has_column (at_loc st l) col2 = true.
Proof.
  unfold select_analyzer.
  destruct (String.eqb effect_type "Categorical on Categorical");
    [|destruct (String.eqb effect_type "Categorical on Numerical")];
    unfold run_analyzer; intros Hrun;
    apply bind_Ok in Hrun as ([[[t' x] a] b] & st1 & Hcall & _).
  - rewrite cat_on_cat_run in Hcall. cbv zeta in Hcall.
    destruct (frame_getitem _ col1) eqn:E1; [|discriminate].
    destruct (frame_getitem _ col2) eqn:E2; [|discriminate].
    split; eapply getitem_ok_has_column; eassumption.
  - destruct (clean_cat_num (at_loc st l) col1 col2) as [cleaned|] eqn:Hclean.
    + apply clean_cat_num_spec in Hclean as (H1 & H2 & _). auto.
    + exfalso. rewrite cat_on_num_run in Hcall. cbv zeta in Hcall.
      unfold clean_cat_num in Hclean.
      destruct (coerce_column _ col2); [|discriminate].
      rewrite Hclean in Hcall. discriminate.
  - destruct (clean_num_num (at_loc st l) col1 col2) as [cleaned|] eqn:Hclean.
    + apply clean_num_num_spec in Hclean as (H1 & H2 & _). auto.
    + exfalso. rewrite correlation_run in Hcall. cbv zeta in Hcall.
      unfold clean_num_num in Hclean.
      destruct (coerce_column _ col1) as [f1|]; [|discriminate].
      destruct (coerce_column f1 col2); [|discriminate].
      rewrite Hclean in Hcall. discriminate.
Qed.

Lemma calculate_appends (s : state) (st : list frame) :
  exists created : list frame,
    (calculate_effect_size s st).1.2 = st ++ created.
Proof.
  assert (st = st ++ []) as Hnil by (symmetry; apply app_nil_r).
  unfold calculate_effect_size.
  destruct (df s) as [l|]; [|simpl; eauto].
  cbv zeta. simpl.
  destruct (py_float (alpha_entry s)) as [alpha|]; [|simpl; eauto].
  destruct (String.eqb _ _); [simpl; eauto|].
  destruct (run_analyzer_appends
              (select_analyzer (currentText (effect_type_menu s)) l
                 (currentText (col1_menu s)) (currentText (col2_menu s))
                 alpha) st) as [created Hc].
  destruct (run_analyzer _ st) as [[t|e] st']; simpl in *; eauto.
Qed.

Lemma load_file_appends (file_path : string) (s : state) (st : list frame) :
  exists created : list frame,
    (load_file file_path s st).1.2 = st ++ created.
Proof.
  assert (st = st ++ []) as Hnil by (symmetry; apply app_nil_r).
  unfold load_file. destruct (String.eqb file_path ""); [simpl; eauto|].
  cbv zeta. destruct (if endswith _ _ then _ else _); simpl; eauto.
Qed.

(** No method of the window changes a frame that exists: the store after
    an event is the store before it followed by the frames created. *)
Lemma handle_appends (e : event) (s : state) (st : list frame) :
  exists created : list frame, (handle e s st).1.2 = st ++ created.
Proof.
  assert (st = st ++ []) as Hnil by (symmetry; apply app_nil_r).
  destruct e; simpl; eauto using calculate_appends, load_file_appends.
  destruct (String.eqb _ _); simpl; eauto.
Qed.

Lemma after_appends (events : list event) (s : state) (st : list frame) :
  exists created : list frame, (after events s st).2 = st ++ created.
Proof.
  revert s st. induction events as [|e events IH]; intros s st; simpl.
  - exists []. symmetry. apply app_nil_r.
  - destruct (handle_appends e s st) as [created1 H1].
    destruct (handle e s st) as [[s' st'] out]. simpl in H1. subst st'.
    destruct (IH s' (st ++ created1)) as [created2 ->].
    exists (created1 ++ created2). rewrite app_assoc. reflexivity.
Qed.

End WindowStore.

(** ** The states of the window *)

Section WindowStates.

Context `{Libraries} `{Files}.

Lemma consistent_init : consistent init [].
Proof.
  constructor;
    try (vm_compute; first [reflexivity | discriminate | tauto | lia]).
  - split; [discriminate|]. intros [l Hl]. discriminate Hl.
  - intros w Hw. vm_compute in Hw.
    repeat destruct Hw as [<-|Hw]; try reflexivity. destruct Hw.
  - split; [discriminate|]. intros [d Hd]. discriminate Hd.
  - intros [d Hd]. discriminate Hd.
Qed.

(** Frames created later do not disturb the window. *)
Lemma consistent_app (s : state) (st created : list frame) :
  consistent s st -> consistent s (st ++ created).
Proof.
  intros Hc. destruct Hc. constructor; try assumption.
  - intros l Hl. rewrite length_app. specialize (df_in_store0 l Hl). lia.
  - intros l c1 c2 e Hd.
    destruct (plot_data_in_store0 l c1 c2 e Hd) as (Hl & H1 & H2 & Hne & He).
    rewrite (at_loc_app st created l Hl), length_app.
    repeat split; try assumption. lia.
  - destruct column_items0 as [Hsame Hitems]. split; [exact Hsame|].
    rewrite Hitems. destruct (df s) as [l|] eqn:Edf; [|reflexivity].
    rewrite (at_loc_app st created l (df_in_store0 l eq_refl)). reflexivity.
Qed.

End WindowStates.

Section WindowSteps.

Context `{Libraries} `{Files}.

Lemma consistent_toggle (s : state) (st : list frame) :
  consistent s st -> consistent (toggle_dark_mode s) st.
Proof.
  intros Hc. destruct Hc.
  constructor; unfold toggle_dark_mode, apply_modern_style; simpl;
    destruct (dark_mode s); simpl; try assumption; reflexivity.
Qed.

Lemma consistent_preview (s : state) (st : list frame) :
  consistent s st -> enabled s preview_button = true ->
  consistent (preview_data s st) st.
Proof.
  intros Hc Hp. unfold preview_data.
  destruct (df s) as [l|] eqn:Edf; [|exact Hc]. cbv zeta.
  destruct Hc. rewrite analysis_enabled0 in Hp by (simpl; auto).
  constructor; simpl; try assumption; try reflexivity.
  - intros w Hw. rewrite <- (analysis_enabled0 w Hw).
    repeat destruct Hw as [<-|Hw]; try reflexivity. destruct Hw.
  - intros _. exact Hp.
Qed.

Lemma selected_added (texts : list string) (c : combo) :
  selected (addItems texts (clear c)).
Proof.
  unfold selected, addItems, clear. simpl.
  destruct texts as [|t texts]; simpl; [reflexivity|lia].
Qed.

Lemma consistent_load_file (file_path : string) (s : state)
    (st : list frame) :
  consistent s st ->
  consistent (load_file file_path s st).1.1 (load_file file_path s st).1.2.
Proof.
  intros Hc. unfold load_file.
  destruct (String.eqb file_path ""); [exact Hc|]. cbv zeta.
  destruct (if endswith _ _ then _ else _) as [f|message].
  - destruct Hc. constructor; simpl; try assumption; try reflexivity.
    + intros l [= <-]. rewrite length_app. simpl. lia.
    + intros l c1 c2 e Hd.
      destruct (plot_data_in_store0 l c1 c2 e Hd)
        as (Hl & H1 & H2 & Hne & He).
      rewrite (at_loc_app st [f] l Hl), length_app.
      repeat split; try assumption. lia.
    + split; [intros _; eexists; reflexivity|reflexivity].
    + intros w Hw.
      repeat destruct Hw as [<-|Hw]; try reflexivity. destruct Hw.
    + rewrite at_loc_fresh. split; reflexivity.
    + split; apply selected_added.
  - destruct Hc. constructor; simpl; assumption.
Qed.

Lemma consistent_calculate (s : state) (st : list frame) :
  consistent s st -> enabled s calculate_button = true ->
  consistent (calculate_effect_size s st).1.1
    (calculate_effect_size s st).1.2.
Proof.
  intros Hc Hp. unfold calculate_effect_size.
  destruct (df s) as [l|] eqn:Edf; [|exact Hc]. cbv zeta. simpl.
  destruct (py_float (alpha_entry s)) as [alpha|];
    [|destruct Hc; constructor; simpl; assumption].
  destruct (String.eqb_spec (currentText (col1_menu s))
              (currentText (col2_menu s))) as [Heq|Hne];
    [destruct Hc; constructor; simpl; assumption|].
  destruct (run_analyzer_appends
              (select_analyzer (currentText (effect_type_menu s)) l
                 (currentText (col1_menu s)) (currentText (col2_menu s))
                 alpha) st) as [created Hcreated].
  destruct (run_analyzer _ st) as [[t|e] st'] eqn:Erun;
    simpl in Hcreated; subst st'; apply (consistent_app s st created) in Hc.
  - apply run_analyzer_columns in Erun as [H1 H2].
    destruct Hc. constructor; simpl; try assumption; try reflexivity.
    + intros l' c1 c2 e [= <- <- <- <-].
      pose proof (df_in_store0 l Edf) as Hl.
      assert (l < List.length st)%nat as Hl'.
      { destruct (Nat.lt_ge_cases l (List.length st)) as [?|Hge];
          [assumption|].
        exfalso. unfold has_column, at_loc in H1.
        rewrite lookup_ge_None_2 in H1 by exact Hge. simpl in H1.
        discriminate H1. }
      rewrite (at_loc_app st created l Hl').
      repeat split; try assumption.
      unfold selected in effect_type_selected0.
      unfold currentText. rewrite effect_type_items0 in *.
      destruct (currentIndex (effect_type_menu s)) as [i|];
        [|discriminate effect_type_selected0].
      simpl in effect_type_selected0.
      destruct i as [|[|[|i]]]; simpl; auto; lia.
    + intros w Hw. rewrite <- (analysis_enabled0 w Hw).
      repeat destruct Hw as [<-|Hw]; try reflexivity. destruct Hw.
    + split; [intros _; eexists; reflexivity|reflexivity].
    + intros _. rewrite <- calculate_enabled0. exact Hp.
  - destruct Hc. constructor; simpl; assumption.
Qed.

Lemma consistent_effect_type (i : nat) (s : state) (st : list frame) :
  consistent s st ->
  (i < List.length (items (effect_type_menu s)))%nat ->
  consistent (handle (SelectEffectType i) s st).1.1 st.
Proof.
  intros Hc Hi. simpl.
  assert (currentText (setCurrentIndex i (effect_type_menu s))
          = default "" (effect_types !! i)) as Htext.
  { unfold currentText. simpl. destruct Hc as [].
    rewrite effect_type_items0. reflexivity. }
  destruct (String.eqb_spec
              (currentText (setCurrentIndex i (effect_type_menu s)))
              (currentText (effect_type_menu s))) as [Heq|Hne]; simpl.
  - destruct Hc. constructor; simpl; try assumption.
    + rewrite Heq. assumption.
    + rewrite Heq. assumption.
  - destruct Hc. rewrite effect_type_items0 in Hi.
    unfold update_plot_options. simpl. rewrite Htext.
    destruct i as [|[|[|i]]]; simpl in Hi; try lia;
      constructor; simpl; try assumption; try rewrite Htext;
      try reflexivity; try apply selected_added;
      unfold selected; simpl; rewrite effect_type_items0; simpl; lia.
Qed.

(** Every possible event keeps the window consistent. *)
Lemma consistent_handle (e : event) (s : state) (st : list frame) :
  consistent s st -> possible e s = true ->
  consistent (handle e s st).1.1 (handle e s st).1.2.
Proof.
  intros Hc Hp. destruct e.
  - exact (consistent_toggle s st Hc).
  - exact (consistent_load_file file_path s st Hc).
  - exact (consistent_preview s st Hc Hp).
  - exact (consistent_calculate s st Hc Hp).
  - exact Hc.
  - exact Hc.
  - simpl in *. apply andb_true_iff in Hp as [_ Hi%bool_decide_eq_true].
    destruct Hc as []. destruct column_selected0, column_items0.
    constructor; simpl; try assumption; auto.
  - simpl in *. apply andb_true_iff in Hp as [_ Hi%bool_decide_eq_true].
    destruct Hc as []. destruct column_selected0, column_items0.
    constructor; simpl; try assumption; auto.
  - simpl in Hp. apply andb_true_iff in Hp as [_ Hi%bool_decide_eq_true].
    assert ((handle (SelectEffectType i) s st).1.2 = st) as ->
      by (simpl; destruct (String.eqb _ _); reflexivity).
    exact (consistent_effect_type i s st Hc Hi).
  - simpl in *. apply andb_true_iff in Hp as [_ Hi%bool_decide_eq_true].
    destruct Hc as []. constructor; simpl; try assumption.
  - destruct Hc as []. constructor; simpl; assumption.
  - destruct Hc as []. constructor; simpl; assumption.
Qed.

Lemma reachable_consistent (s : state) (st : list frame) :
  reachable s st -> consistent s st.
Proof.
  induction 1 as [|e s st _ IH Hp];
    [exact consistent_init|exact (consistent_handle e s st IH Hp)].
Qed.

Lemma after_reachable (events : list event) (s : state) (st : list frame) :
  reachable s st -> possible_all events s st = true ->
  reachable (after events s st).1 (after events s st).2.
Proof.
  revert s st. induction events as [|e events IH]; intros s st Hr;
    simpl; [intros _; exact Hr|].
  intros [Hp Hrest]%andb_true_iff.
  pose proof (reachable_step e s st Hr Hp) as Hstep.
  destruct (handle e s st) as [[s' st'] out]. simpl in Hstep.
  exact (IH s' st' Hstep Hrest).
Qed.

End WindowSteps.

(** X11.  No sequence of events changes a table that exists: whatever
    the user does, in whatever order, every frame of the store is
    afterwards what it was, and the store has only grown by the tables
    read from files and the working copies of the analyzers.  A loaded
    dataset is never modified by previewing, calculating, plotting or
    saving. *)
Theorem tables_are_never_modified `{Libraries} `{Files}
    (events : list event) (s : state) (st : list frame) (l : nat) :
  (l < List.length st)%nat ->
  at_loc (after events s st).2 l = at_loc st l
  /\ (List.length st <= List.length (after events s st).2)%nat.
Proof.
  intros Hl. destruct (after_appends events s st) as [created ->].
  split; [exact (at_loc_app st created l Hl)|].
  rewrite length_app. lia.
Qed.

Lemma tables_are_never_modified_witness :
  let L := Fixture.libraries 1 0.01 in
  let F := csv_disk [("data.csv", Fixture.measurements)] in
  let s := (after [ClickBrowse "data.csv"] init []).1 in
  let st := (after [ClickBrowse "data.csv"] init []).2 in
  let events :=
    [ClickPreview; SelectCol2 1; SelectEffectType 2; ClickCalculate;
     ClickPlot] in
  (0 < List.length st)%nat
  /\ at_loc (after events s st).2 0 = at_loc st 0
  /\ (List.length st <= List.length (after events s st).2)%nat.
Proof.
  cbv zeta.
  assert (0 < List.length
                (after (H := Fixture.libraries 1 0.01)
                   (H0 := csv_disk [("data.csv", Fixture.measurements)])
                   [ClickBrowse "data.csv"] init []).2)%nat as Hl
    by (vm_compute; lia).
  split; [exact Hl|].
  exact (tables_are_never_modified
           (H := Fixture.libraries 1 0.01)
           (H0 := csv_disk [("data.csv", Fixture.measurements)])
           _ _ _ 0%nat Hl).
Defined.

Section Selected.

Lemma selected_text (c : combo) :
  selected c -> items c <> [] -> In (currentText c) (items c).
Proof.
  unfold selected, currentText.
  destruct (currentIndex c) as [i|]; [|intros -> Hne; contradiction].
  intros Hi _. destruct (lookup_lt_is_Some_2 (items c) i Hi) as [x Hx].
  rewrite Hx. simpl. apply list_elem_of_In.
  exact (list_elem_of_lookup_2 _ _ _ Hx).
Qed.

Lemma plot_types_inhabited (effect_type : string) :
  In effect_type effect_types -> plot_types effect_type <> [].
Proof.
  intros [<-|[<-|[<-|[]]]]; discriminate.
Qed.

End Selected.

(** X12.  In every state that the user can bring about the buttons
    follow the steps of the workflow: Preview Data is enabled exactly
    when a dataset is loaded; Calculate only once a dataset is loaded
    and previewed; Preview Plot and Save Plot, always together, exactly
    when a calculation has succeeded.  The effect type menu shows one of
    the three effect types, the plot type menu offers the plot types of
    that effect type with one of them selected, the regression box is
    shown exactly for "Numerical Correlation", and both column menus
    list the columns of the loaded table. *)
Theorem window_follows_workflow `{Libraries} `{Files}
    (s : state) (st : list frame) :
  reachable s st ->
  (enabled s preview_button = true <-> is_Some (df s))
  /\ (enabled s calculate_button = true ->
      is_Some (df s) /\ data_previewed s = true)
  /\ (enabled s plot_button = true <-> is_Some (plot_data s))
  /\ enabled s save_button = enabled s plot_button
  /\ (is_Some (plot_data s) -> enabled s calculate_button = true)
  /\ In (currentText (effect_type_menu s)) effect_types
  /\ items (plot_type_menu s)
     = plot_types (currentText (effect_type_menu s))
  /\ In (currentText (plot_type_menu s)) (items (plot_type_menu s))
  /\ (isVisible (regression_checkbox s) = true
      <-> currentText (effect_type_menu s) = "Numerical Correlation")
  /\ (forall l, df s = Some l ->
        (l < List.length st)%nat
        /\ items (col1_menu s) = columns (at_loc st l)
        /\ items (col2_menu s) = columns (at_loc st l)).
Proof.
  intros Hc%reachable_consistent. destruct Hc.
  assert (In (currentText (effect_type_menu s)) effect_types) as Heffect.
  { rewrite <- effect_type_items0. apply selected_text; [assumption|].
    rewrite effect_type_items0. discriminate. }
  split; [rewrite analysis_enabled0 by (simpl; auto); assumption|].
  split.
  { rewrite calculate_enabled0. intros Hp. split; [|exact Hp].
    apply file_loaded_df0, previewed_loaded0, Hp. }
  split; [assumption|]. split; [assumption|].
  split; [rewrite calculate_enabled0; assumption|].
  split; [exact Heffect|]. split; [assumption|].
  split.
  { apply selected_text; [assumption|]. rewrite plot_type_items0.
    exact (plot_types_inhabited _ Heffect). }
  split; [rewrite regression_shown0; apply String.eqb_eq|].
  intros l Hl. destruct column_items0 as [Hsame Hitems].
  rewrite <- Hsame, Hitems, Hl. auto.
Qed.

Lemma window_follows_workflow_witness :
  let L := Fixture.libraries 1 0.01 in
  let F := csv_disk [("data.csv", Fixture.measurements)] in
  let s := (after [ClickBrowse "data.csv"; ClickPreview] init []).1 in
  let st := (after [ClickBrowse "data.csv"; ClickPreview] init []).2 in
  reachable s st
  /\ (enabled s preview_button = true <-> is_Some (df s))
  /\ enabled s calculate_button = true
  /\ enabled s plot_button = false
  /\ items (col1_menu s) = ["x"; "y"].
Proof.
  cbv zeta.
  pose proof (after_reachable
                (H := Fixture.libraries 1 0.01)
                (H0 := csv_disk [("data.csv", Fixture.measurements)])
                [ClickBrowse "data.csv"; ClickPreview] init []
                reachable_init ltac:(vm_compute; reflexivity)) as Hreach.
  split; [exact Hreach|].
  split;
    [exact (proj1 (window_follows_workflow
                     (H := Fixture.libraries 1 0.01)
                     (H0 := csv_disk [("data.csv", Fixture.measurements)])
                     _ _ Hreach))|].
  split; [vm_compute; reflexivity|].
  split; vm_compute; reflexivity.
Defined.

Section Figures.



End Figures.



(** X14.  What a calculation leaves behind.  When it shows a message
    box (no dataset, an alpha that is no number, the same column twice,
    or any exception of the analyzer, whose [str] is the message), the
    result label, the stored plot data and the enabled buttons are as
    they were before: the result of an earlier calculation stays on
    the screen and stays what Preview Plot draws.  When the analyzer
    raised, the progress label nevertheless ends as "Calculation
    complete.".  When no box is shown, the result label holds the
    analyzer's text, the plot data are the loaded table with the two
    selected columns and the effect type, and both plot buttons are
    enabled.  In every case the progress bar ends hidden. *)
Theorem calculation_outcome `{Libraries}
    (s : state) (st : list frame) :
  let s' := (calculate_effect_size s st).1.1 in
  let shown := (calculate_effect_size s st).2 in
  let col1 := currentText (col1_menu s) in
  let col2 := currentText (col2_menu s) in
  let effect_type := currentText (effect_type_menu s) in
  (((exists msg, shown = [Warning msg] \/ shown = [Critical msg])
    \/ (exists e, shown = [CriticalError e]))
   /\ result_label s' = result_label s
   /\ plot_data s' = plot_data s
   /\ (forall w, enabled s' w = enabled s w)
   /\ (bar_visible (progress_bar s') = false \/ s' = s)
   /\ (forall l alpha,
         df s = Some l -> py_float (alpha_entry s) = Some alpha ->
         col1 <> col2 ->
         progress_label s' = "Calculation complete."
         /\ exists e,
              (run_analyzer (select_analyzer effect_type l col1 col2 alpha)
                 st).1 = Raise e
              /\ shown = [CriticalError e]))
  \/ (shown = []
      /\ exists l alpha result_text,
           df s = Some l
           /\ py_float (alpha_entry s) = Some alpha
           /\ col1 <> col2
           /\ (run_analyzer (select_analyzer effect_type l col1 col2 alpha)
                 st).1 = Ok result_text
           /\ result_label s' = result_text
           /\ plot_data s' = Some (l, col1, col2, effect_type)
           /\ enabled s' plot_button = true
           /\ enabled s' save_button = true
           /\ bar_visible (progress_bar s') = false
           /\ progress_label s' = "Calculation complete.").
Proof.
  cbv zeta. unfold calculate_effect_size.
  destruct (df s) as [l|] eqn:Edf.
  2:{ left. simpl. split; [left; eauto|].
      split; [reflexivity|]. split; [reflexivity|]. split; [reflexivity|].
      split; [right; reflexivity|]. intros l' alpha' Hdf. discriminate Hdf. }
  cbv zeta. simpl.
  destruct (py_float (alpha_entry s)) as [alpha|] eqn:Ealpha.
  2:{ left. simpl. split; [left; eauto|].
      split; [reflexivity|]. split; [reflexivity|]. split; [reflexivity|].
      split; [left; reflexivity|].
      intros l' alpha' _ Halpha. discriminate Halpha. }
  destruct (String.eqb_spec (currentText (col1_menu s))
              (currentText (col2_menu s))) as [Heq|Hne].
  { left. simpl. split; [left; eauto|].
    split; [reflexivity|]. split; [reflexivity|]. split; [reflexivity|].
    split; [left; reflexivity|].
    intros l' alpha' _ _ Hne. contradiction. }
  destruct (run_analyzer _ st) as [[t|e] st'] eqn:Erun; simpl.
  - right. split; [reflexivity|]. exists l, alpha, t.
    split; [reflexivity|]. split; [reflexivity|]. split; [exact Hne|].
    split; [rewrite Erun; reflexivity|].
    split; [reflexivity|]. split; [reflexivity|].
    split; [reflexivity|]. split; [reflexivity|]. split; reflexivity.
  - left. split; [right; eauto|].
    split; [reflexivity|]. split; [reflexivity|]. split; [reflexivity|].
    split; [left; reflexivity|].
    intros l' alpha' [= <-] [= <-] _. split; [reflexivity|].
    exists e. split; [rewrite Erun; reflexivity|reflexivity].
Qed.

Section Returned.

Context `{Libraries}.




End Returned.



Section ShowPlot.


End ShowPlot.



Section FirstColumn.

Lemma currentText_added (texts : list string) (c : combo) :
  currentText (addItems texts (clear c)) = default "" (head texts).
Proof.
  unfold currentText, addItems, clear. simpl.
  destruct texts; reflexivity.
Qed.

End FirstColumn.

(** X17.  [load_file] fills both column menus with the columns of the
    new table, so both show its first column.  A calculation made right
    after the preview, without choosing a second column, therefore
    stops at "Please select two different columns." whenever the alpha
    entry holds a number: no analyzer is called, nothing is created in
    the store, and the result label is left as it was. *)
Theorem first_column_is_selected_twice `{Libraries} `{Files}
    (file_path : string) (s : state) (st : list frame) (f : frame)
    (alpha : float) :
  file_path <> "" ->
  (if endswith file_path ".csv"
   then read_csv file_path else read_excel file_path) = Table f ->
  py_float (alpha_entry s) = Some alpha ->
  let s1 := (handle (ClickBrowse file_path) s st).1.1 in
  let st1 := (handle (ClickBrowse file_path) s st).1.2 in
  let s2 := (handle ClickPreview s1 st1).1.1 in
  items (col1_menu s1) = columns f
  /\ items (col2_menu s1) = columns f
  /\ currentText (col1_menu s1) = default "" (head (columns f))
  /\ currentText (col2_menu s1) = default "" (head (columns f))
  /\ possible ClickPreview s1 = true
  /\ possible ClickCalculate s2 = true
  /\ (handle ClickCalculate s2 st1).2
     = [Critical "Please select two different columns."]
  /\ (handle ClickCalculate s2 st1).1.2 = st1
  /\ result_label (handle ClickCalculate s2 st1).1.1 = result_label s.
Proof.
  intros Hpath Hread Halpha s1 st1 s2.
  assert (st1 = st ++ [f]
          /\ col1_menu s1 = addItems (columns f) (clear (col1_menu s))
          /\ col2_menu s1 = addItems (columns f) (clear (col2_menu s))
          /\ df s1 = Some (List.length st)
          /\ alpha_entry s1 = alpha_entry s
          /\ result_label s1 = result_label s
          /\ enabled s1 preview_button = true)
    as (Hst1 & S1 & S2 & Sdf & Sa & Sl & Sp).
  { unfold s1, st1. simpl. unfold load_file.
    destruct (String.eqb_spec file_path ""); [contradiction|].
    cbv zeta. rewrite Hread. simpl. repeat split; reflexivity. }
  clearbody s1 st1.
  assert (col1_menu s2 = col1_menu s1 /\ col2_menu s2 = col2_menu s1
          /\ df s2 = df s1 /\ alpha_entry s2 = alpha_entry s1
          /\ result_label s2 = result_label s1
          /\ enabled s2 calculate_button = true)
    as (P1 & P2 & Pdf & Pa & Pl & Pc).
  { unfold s2. simpl. unfold preview_data. rewrite Sdf. simpl.
    rewrite ?Sdf. repeat split; reflexivity. }
  clearbody s2.
  split; [rewrite S1; reflexivity|]. split; [rewrite S2; reflexivity|].
  split; [rewrite S1; apply currentText_added|].
  split; [rewrite S2; apply currentText_added|].
  split; [exact Sp|]. split; [exact Pc|].
  simpl. unfold calculate_effect_size.
  rewrite Pdf, Sdf. cbv zeta. simpl.
  rewrite Pa, Sa, Halpha, P1, P2, S1, S2, !currentText_added.
  rewrite String.eqb_refl. simpl.
  split; [reflexivity|]. split; [reflexivity|]. rewrite Pl. exact Sl.
Qed.

Lemma first_column_is_selected_twice_witness :
  let L := Fixture.libraries 1 0.01 in
  let F := csv_disk [("data.csv", Fixture.measurements)] in
  let s1 := (handle (ClickBrowse "data.csv") init []).1.1 in
  let st1 := (handle (ClickBrowse "data.csv") init []).1.2 in
  let s2 := (handle ClickPreview s1 st1).1.1 in
  py_float (alpha_entry init) = Some 0.05
  /\ currentText (col1_menu s1) = "x"
  /\ currentText (col2_menu s1) = "x"
  /\ (handle ClickCalculate s2 st1).2
     = [Critical "Please select two different columns."].
Proof.
  cbv zeta.
  assert (py_float (Libraries := Fixture.libraries 1 0.01)
            (alpha_entry init) = Some 0.05) as Halpha
    by (vm_compute; reflexivity).
  split; [exact Halpha|].
  destruct (first_column_is_selected_twice
              (H := Fixture.libraries 1 0.01)
              (H0 := csv_disk [("data.csv", Fixture.measurements)])
              "data.csv" init [] Fixture.measurements 0.05
              ltac:(discriminate) ltac:(reflexivity) Halpha)
    as (_ & _ & H1 & H2 & _ & _ & Hout & _).
  split; [exact H1|]. split; [exact H2|exact Hout].
Defined.
